(** * Seat-relocation engine of the classroom seating planner

    A shallow embedding of the data model ([models.js]), the coordinate
    helpers ([utils.js]) and the seat operations of [SeatingApp]
    ([js/main.js]) together with the drag payload built by
    [DragDropManager] ([drag-drop.js]).

    Conventions of the embedding:
    - JavaScript numbers that hold grid coordinates, indices and
      timestamps are integers and are modelled in [Z];
    - student objects live in a heap ([list Student], a reference is an
      index) because seats, the roster and the drag payload alias them;
    - seat objects are only reachable through the [seats] array, so a
      reference to a seat is its index in that array;
    - a JavaScript [Set] keeps insertion order: it is a duplicate-free
      list;
    - rendering, [localStorage] and the [console.log] traces are outside
      the model; the [console.warn] of the relinking pass is returned as a
      list of messages;
    - [Date.now()], generated uuids and the answers to [confirm] dialogs
      are inputs of the operations. *)

From Stdlib Require Import Ascii.
From stdpp Require Import base option list list_numbers sorting strings pretty gmap.

Local Open Scope string_scope.
Local Open Scope list_scope.
Local Open Scope Z_scope.

(** ** JavaScript array helpers *)

Module Js.

(** [Array.prototype.slice(start, end)]: negative bounds count from the
    end, both are clamped to the array. *)
Definition rel_index (len k : Z) : Z :=
  if decide (k < 0) then Z.max (len + k) 0 else Z.min k len.

Definition slice {A} (start : Z) (stop : option Z) (l : list A) : list A :=
  let len := Z.of_nat (length l) in
  let k := rel_index len start in
  let e := rel_index len (default len stop) in
  take (Z.to_nat (e - k)) (drop (Z.to_nat k) l).

(** [arr[i]] for a numeric index: [undefined] outside the array. *)
Definition index {A} (l : list A) (i : Z) : option A :=
  if decide (0 ≤ i) then l !! Z.to_nat i else None.

(** [Array.prototype.sort(cmp)] is stable; with a comparator that is a
    total preorder its result is the one of the stable insertion sort
    (an element stays in front of the later elements it ties with). *)
Fixpoint insert_sorted {A} (cmp : A → A → Z) (x : A) (l : list A) : list A :=
  match l with
  | [] => [x]
  | y :: l' => if decide (cmp x y ≤ 0) then x :: y :: l'
               else y :: insert_sorted cmp x l'
  end.

Definition sort {A} (cmp : A → A → Z) (l : list A) : list A :=
  foldr (insert_sorted cmp) [] l.

(** [a || b] on numbers: [a] unless it is zero. *)
Definition num_or (a b : Z) : Z := if decide (a = 0) then b else a.

(** Truthiness of a value that may be absent: [o || ...] and [if (o)] pass
    over the empty string and over the number zero ([NaN] is absent). *)
Definition truthy_string (o : option string) : option string :=
  o ≫= λ x, if decide (x = "") then None else Some x.
Definition truthy_number (o : option Z) : option Z :=
  o ≫= λ z, if decide (z = 0) then None else Some z.

(** A [Set] in insertion order. *)
Definition set_has (x : string) (s : list string) : bool := bool_decide (x ∈ s).
Definition set_add (x : string) (s : list string) : list string :=
  if set_has x s then s else s ++ [x].
Definition set_delete (x : string) (s : list string) : list string :=
  filter (λ y, y ≠ x) s.

End Js.

(** ** models.js *)

Definition loc := nat.

Record Student := mkStudent {
  uuid : string;
  name : string;
  sid : string;               (* the field [id], the student number *)
  gender : string;
  height : option Z;
  notes : string;
  seatId : option string      (* cache of the seat currently assigned *)
}.

Record Seat := mkSeat {
  id : string;
  row : Z;
  col : Z;
  student : option loc;       (* reference to a student object *)
  position : Z;
  isDeleted : bool
}.

(** A seat as [JSON.parse(JSON.stringify(seat))] leaves it: the student is
    held by value. *)
Record SeatCopy := mkSeatCopy {
  c_id : string;
  c_row : Z;
  c_col : Z;
  c_student : option Student;
  c_position : Z;
  c_isDeleted : bool
}.

Record HistoryItem := mkHistoryItem {
  action : string;
  hdata : list SeatCopy;      (* the field [data.seats] *)
  timestamp : Z
}.

Record SeatingData := mkSeatingData {
  heap : list Student;
  students : list loc;
  seats : list Seat;
  rows : Z;
  cols : Z;
  history : list HistoryItem;
  historyIndex : Z
}.

Global Instance Student_eq_dec : EqDecision Student.
Proof. solve_decision. Defined.
Global Instance Seat_eq_dec : EqDecision Seat.
Proof. solve_decision. Defined.
Global Instance SeatCopy_eq_dec : EqDecision SeatCopy.
Proof. solve_decision. Defined.

Definition MAX_HISTORY_SIZE : Z := 5.

Definition set_seatId (v : option string) (s : Student) : Student :=
  mkStudent (uuid s) (name s) (sid s) (gender s) (height s) (notes s) v.

Definition set_student (v : option loc) (s : Seat) : Seat :=
  mkSeat (id s) (row s) (col s) v (position s) (isDeleted s).

Definition set_isDeleted (b : bool) (s : Seat) : Seat :=
  mkSeat (id s) (row s) (col s) (student s) (position s) b.

Definition with_heap (h : list Student) (d : SeatingData) : SeatingData :=
  mkSeatingData h (students d) (seats d) (rows d) (cols d) (history d) (historyIndex d).

Definition with_students (r : list loc) (d : SeatingData) : SeatingData :=
  mkSeatingData (heap d) r (seats d) (rows d) (cols d) (history d) (historyIndex d).

Definition with_seats (ss : list Seat) (d : SeatingData) : SeatingData :=
  mkSeatingData (heap d) (students d) ss (rows d) (cols d) (history d) (historyIndex d).

Definition with_dims (r c : Z) (d : SeatingData) : SeatingData :=
  mkSeatingData (heap d) (students d) (seats d) r c (history d) (historyIndex d).

Definition with_history (h : list HistoryItem) (i : Z) (d : SeatingData) : SeatingData :=
  mkSeatingData (heap d) (students d) (seats d) (rows d) (cols d) h i.

(** [new SeatingData()] *)
Definition new_SeatingData : SeatingData :=
  mkSeatingData [] [] [] 6 8 [] (-1).

(** [SeatingUtils.deepClone] of the seat array: every student reference is
    replaced by the value of the object it points to. *)
Definition deepClone_seat (h : list Student) (s : Seat) : SeatCopy :=
  mkSeatCopy (id s) (row s) (col s) (student s ≫= (h !!.)) (position s) (isDeleted s).

Definition deepClone_seats (h : list Student) (ss : list Seat) : list SeatCopy :=
  deepClone_seat h <$> ss.

(** *** History *)

(** [addToHistory(action, data)] with [data = { seats }]. *)
Definition addToHistory (act : string) (data : list Seat) (now : Z)
    (d : SeatingData) : SeatingData :=
  let h1 := Js.slice 0 (Some (historyIndex d + 1)) (history d) in
  let h2 := h1 ++ [mkHistoryItem act (deepClone_seats (heap d) data) now] in
  if decide (Z.of_nat (length h2) > MAX_HISTORY_SIZE) then
    let removeCount := Z.of_nat (length h2) - MAX_HISTORY_SIZE in
    let h3 := Js.slice removeCount None h2 in
    with_history h3 (Z.of_nat (length h3) - 1) d
  else
    with_history h2 (historyIndex d + 1) d.

(** [undo()]: the item under the pointer, and the pointer moves down. *)
Definition undo (d : SeatingData) : option HistoryItem * SeatingData :=
  if decide (historyIndex d >= 0) then
    (Js.index (history d) (historyIndex d),
     with_history (history d) (historyIndex d - 1) d)
  else (None, d).

Definition redo (d : SeatingData) : option HistoryItem * SeatingData :=
  if decide (historyIndex d < Z.of_nat (length (history d)) - 1) then
    (Js.index (history d) (historyIndex d + 1),
     with_history (history d) (historyIndex d + 1) d)
  else (None, d).

Definition canUndo (d : SeatingData) : bool := bool_decide (historyIndex d >= 0).
Definition canRedo (d : SeatingData) : bool :=
  bool_decide (historyIndex d < Z.of_nat (length (history d)) - 1).

(** ** utils.js: coordinate conversion *)

Definition toDisplayCoord (internalRow internalCol totalRows : Z) : Z * Z :=
  (totalRows - internalRow, internalCol + 1).

Definition toInternalCoord (displayRow displayCol totalRows : Z) : Z * Z :=
  (totalRows - displayRow, displayCol - 1).

(** ** models.js: lookups, relinking and grid initialisation *)

(** [this.students.find(s => s.uuid === uuid)] *)
Definition findStudentByUuid (u : string) (d : SeatingData) : option loc :=
  snd <$> list_find (λ p, uuid <$> heap d !! p = Some u) (students d).

(** [this.seats.find(s => s.id === seatId)]: the seat and its reference. *)
Definition findSeatById (seatId : string) (d : SeatingData) : option (nat * Seat) :=
  list_find (λ s, id s = seatId) (seats d).

Definition getActiveSeats (d : SeatingData) : list Seat :=
  filter (λ s, isDeleted s = false) (seats d).

(** The warning [relinkStudentReferences] prints: the seat and the name of
    the student that is not in the roster. *)
Record Warning := mkWarning { w_seat : string; w_student : string }.

(** One iteration of the [forEach] of [relinkStudentReferences]. *)
Definition relink_seat (d : SeatingData) (seat : Seat) : Seat * list Warning :=
  match student seat ≫= (heap d !!.) with
  | Some st =>
      if decide (uuid st = "") then (seat, [])
      else match findStudentByUuid (uuid st) d with
           | Some studentInArray => (set_student (Some studentInArray) seat, [])
           | None => (seat, [mkWarning (id seat) (name st)])
           end
  | None => (seat, [])
  end.

Definition relinkStudentReferences (d : SeatingData) : SeatingData * list Warning :=
  let r := foldl (λ acc seat,
                    let '(seat', w) := relink_seat d seat in
                    (acc.1 ++ [seat'], acc.2 ++ w)) ([], []) (seats d) in
  (with_seats r.1 d, r.2).

(** The template string [`${row}-${col}`]. *)
Definition seatIdOf (r c : Z) : string := pretty r +:+ "-" +:+ pretty c.

(** [initializeSeats()]: the occupant and the deleted flag of the previous
    seats are remembered by seat id and given to the seats of the new grid
    that carry the same id. *)
Definition existingSeatData (ss : list Seat) : gmap string (option loc * bool) :=
  foldl (λ m seat, <[id seat := (student seat, isDeleted seat)]> m) ∅ ss.

Definition initial_seat (existing : gmap string (option loc * bool))
    (ncols r c : Z) : Seat :=
  let seatId := seatIdOf r c in
  match existing !! seatId with
  | Some (st, del) => mkSeat seatId r c st (r * ncols + c + 1) del
  | None => mkSeat seatId r c None (r * ncols + c + 1) false
  end.

Definition initializeSeats (d : SeatingData) : SeatingData :=
  let existing := existingSeatData (seats d) in
  with_seats
    (r ← seqZ 0 (rows d); c ← seqZ 0 (cols d); [initial_seat existing (cols d) r c])
    d.

(** ** main.js: the application state and the seat operations *)

Record SeatingApp := mkSeatingApp {
  data : SeatingData;
  selectedSeats : list string
}.

Definition with_data (d : SeatingData) (app : SeatingApp) : SeatingApp :=
  mkSeatingApp d (selectedSeats app).

Definition with_selection (s : list string) (app : SeatingApp) : SeatingApp :=
  mkSeatingApp (data app) s.

Global Instance Seat_inhabited : Inhabited Seat :=
  populate (mkSeat "" 0 0 None 0 false).

(** [seat.student = v] on the seat object referenced by [i]. *)
Definition write_student (i : nat) (v : option loc) (ss : list Seat) : list Seat :=
  alter (set_student v) i ss.

(** [syncStudentSeatIds()]: every roster object loses its cache, then every
    occupied seat writes its id into the object it references. *)
Definition syncStudentSeatIds (d : SeatingData) : SeatingData :=
  let h1 := foldl (λ h p, alter (set_seatId None) p h) (heap d) (students d) in
  let h2 := foldl (λ h seat,
                     match student seat with
                     | Some p => alter (set_seatId (Some (id seat))) p h
                     | None => h
                     end) h1 (seats d) in
  with_heap h2 d.

(** [saveStudent()] with the values of the form: [editId] is
    [form.dataset.editId], which counts when it is a string that is not
    empty, [fresh] the uuid generated otherwise, [hgt] the result of
    [parseInt] on the height field ([None] for [NaN]). *)
Definition saveStudent (editId : option string) (fresh : string)
    (nm num gen : string) (hgt : option Z) (nts : string)
    (app : SeatingApp) : SeatingApp :=
  let d := data app in
  if decide (nm = "") then app
  else
    let obj := mkStudent (default fresh (Js.truthy_string editId)) nm num gen
                 (Js.truthy_number hgt) nts None in
    let p := length (heap d) in
    let h := heap d ++ [obj] in
    match Js.truthy_string editId with
    | Some u =>
        match list_find (λ q, uuid <$> heap d !! q = Some u) (students d) with
        | Some (index, _) =>
            with_data (with_students (<[index := p]> (students d)) (with_heap h d)) app
        | None => with_data (with_heap h d) app
        end
    | None => with_data (with_students (students d ++ [p]) (with_heap h d)) app
    end.

(** [deleteStudent(uuid)] once the dialog is confirmed. *)
Definition deleteStudent (u : string) (confirmed : bool) (app : SeatingApp) : SeatingApp :=
  if confirmed then
    let d := data app in
    let ss := match list_find (λ s, uuid <$> (student s ≫= (heap d !!.)) = Some u)
                              (seats d) with
              | Some (i, _) => write_student i None (seats d)
              | None => seats d
              end in
    let roster := filter (λ p, uuid <$> heap d !! p ≠ Some u) (students d) in
    with_data (syncStudentSeatIds (with_students roster (with_seats ss d))) app
  else app.

(** [assignStudentToSeat(studentUuid, seatId)] *)
Definition assignStudentToSeat (studentUuid seatId : string) (now : Z)
    (app : SeatingApp) : SeatingApp :=
  let d := data app in
  match findStudentByUuid studentUuid d, findSeatById seatId d with
  | Some stud, Some (ti, targetSeat) =>
      if isDeleted targetSeat then app
      else
        let currentSeat :=
          list_find (λ s, uuid <$> (student s ≫= (heap d !!.)) = Some studentUuid)
                    (seats d) in
        if bool_decide (id <$> (snd <$> currentSeat) = Some seatId) then app
        else
          let d1 := addToHistory "seatArrangement" (seats d) now d in
          let displacedStudent := student targetSeat in
          let s1 := write_student ti (Some stud) (seats d1) in
          let s2 := match currentSeat with
                    | Some (ci, _) => write_student ci displacedStudent s1
                    | None => s1
                    end in
          with_data (syncStudentSeatIds (with_seats s2 d1)) app
  | _, _ => app
  end.

(** How a call ends: with a plain [return] (the operations of main.js
    return nothing) or with a thrown error. *)
Inductive Completion :=
  | ReturnsUndefined
  | Throws (error : string).

(** The way the guards of [assignStudentToSeat(studentUuid, seatId)] end
    the call: each of them is a bare [return]; [None] when no guard applies
    and the call goes on to its writes. *)
Definition assignStudentToSeat_guard (studentUuid seatId : string)
    (app : SeatingApp) : option Completion :=
  let d := data app in
  match findStudentByUuid studentUuid d, findSeatById seatId d with
  | Some _, Some (_, targetSeat) =>
      if isDeleted targetSeat then Some ReturnsUndefined
      else
        let currentSeat :=
          list_find (λ s, uuid <$> (student s ≫= (heap d !!.)) = Some studentUuid)
                    (seats d) in
        if bool_decide (id <$> (snd <$> currentSeat) = Some seatId)
        then Some ReturnsUndefined
        else None
  | _, _ => Some ReturnsUndefined
  end.

(** [removeStudentFromSeat(seatId)] *)
Definition removeStudentFromSeat (seatId : string) (now : Z)
    (app : SeatingApp) : SeatingApp :=
  let d := data app in
  match findSeatById seatId d with
  | Some (i, seat) =>
      if student seat is Some _ then
        let d1 := addToHistory "seatArrangement" (seats d) now d in
        with_data (syncStudentSeatIds (with_seats (write_student i None (seats d1)) d1)) app
      else app
  | None => app
  end.

(** [deleteSeat(seatId)] *)
Definition deleteSeat (seatId : string) (now : Z) (app : SeatingApp) : SeatingApp :=
  let d := data app in
  match findSeatById seatId d with
  | Some (i, seat) =>
      if student seat is Some _ then app
      else
        let d1 := addToHistory "seatArrangement" (seats d) now d in
        with_data (with_seats (alter (set_isDeleted true) i (seats d1)) d1) app
  | None => app
  end.

(** *** Multi-selection *)

Definition clearSelection (app : SeatingApp) : SeatingApp :=
  with_selection [] app.

Definition toggleSeatSelection (seatId : string) (clearOthers : bool)
    (app : SeatingApp) : SeatingApp :=
  let app1 := if clearOthers && negb (Js.set_has seatId (selectedSeats app))
              then clearSelection app else app in
  if Js.set_has seatId (selectedSeats app1)
  then with_selection (Js.set_delete seatId (selectedSeats app1)) app1
  else with_selection (Js.set_add seatId (selectedSeats app1)) app1.

Definition selectAllSeats (app : SeatingApp) : SeatingApp :=
  with_selection
    (foldl (λ sel seat, if isDeleted seat then sel else Js.set_add (id seat) sel)
           [] (seats (data app)))
    app.

(** [clearAllSeats()] once the dialog is confirmed. *)
Definition clearAllSeats (confirmed : bool) (now : Z) (app : SeatingApp) : SeatingApp :=
  if confirmed then
    let d := data app in
    let d1 := addToHistory "seatArrangement" (seats d) now d in
    with_data (with_seats ((λ s, set_isDeleted false (set_student None s)) <$> seats d1) d1) app
  else app.

(** *** The drag payload (drag-drop.js) *)

Record SourceSeat := mkSourceSeat {
  ss_seatId : string;
  ss_row : Z;
  ss_col : Z;
  ss_student : option loc
}.

(** The payload built on [pointerdown]; the HTML5 [dragstart] path builds
    the same multi-seat payload without anchor. *)
Inductive DragData :=
  | SingleSeat (studentUuid sourceSeatId : string)
  | MultipleSeats (sourceSeats : list SourceSeat)
                  (dragged : list (string * loc))
                  (anchorSeatId : option string).

(** [prepareMultiSeatDrag(seatId)]: the selected seats in the order of the
    selection set; [seatId], the seat under the pointer, is kept as anchor. *)
Definition prepareMultiSeatDrag (seatId : string) (app : SeatingApp) : DragData :=
  let found := omap (λ sid, (λ s, (sid, s.2)) <$> findSeatById sid (data app))
                    (selectedSeats app) in
  MultipleSeats
    ((λ x, mkSourceSeat x.1 (row x.2) (col x.2) (student x.2)) <$> found)
    (omap (λ x, (λ p, (x.1, p)) <$> student x.2) found)
    (Some seatId).

(** *** Block move *)

Record Position := mkPosition {
  originalSeatId : string;
  targetSeatId : string;
  p_student : option loc
}.

Record DropResult := mkDropResult {
  positions : list Position;
  displacedStudents : list loc
}.

(** The [for ... of] loop of [checkMultiDropTarget]: [None] is the
    [return null] of a rejected translation. *)
Fixpoint checkLoop (d : SeatingData) (rowOffset colOffset : Z)
    (selectedSeatIds : list string) (todo : list string)
    (pos : list Position) (displaced : list loc) : option DropResult :=
  match todo with
  | [] => Some (mkDropResult pos displaced)
  | seatId :: rest =>
      match findSeatById seatId d with
      | None => checkLoop d rowOffset colOffset selectedSeatIds rest pos displaced
      | Some (_, sourceSeat) =>
          let newRow := row sourceSeat + rowOffset in
          let newCol := col sourceSeat + colOffset in
          if decide (newRow < 0 ∨ newRow >= rows d ∨ newCol < 0 ∨ newCol >= cols d)
          then None
          else
            match list_find (λ s, row s = newRow ∧ col s = newCol) (seats d) with
            | None => None
            | Some (_, targetSeatForThis) =>
                if isDeleted targetSeatForThis then None
                else
                  let pos' := pos ++ [mkPosition seatId (id targetSeatForThis)
                                                 (student sourceSeat)] in
                  let displaced' :=
                    match student targetSeatForThis with
                    | Some p =>
                        if bool_decide (id targetSeatForThis ∈ selectedSeatIds)
                        then displaced else displaced ++ [p]
                    | None => displaced
                    end in
                  checkLoop d rowOffset colOffset selectedSeatIds rest pos' displaced'
            end
      end
  end.

(** [checkMultiDropTarget(targetSeatId, selectedSeatIds)]: the reference
    point of the translation is the first selected seat. *)
Definition checkMultiDropTarget (targetId : string) (selectedSeatIds : list string)
    (d : SeatingData) : option DropResult :=
  match findSeatById targetId d with
  | Some (_, targetSeat) =>
      if isDeleted targetSeat then None
      else
        match head selectedSeatIds ≫= (λ firstSelectedId, findSeatById firstSelectedId d) with
        | Some (_, firstSelectedSeat) =>
            let rowOffset := row targetSeat - row firstSelectedSeat in
            let colOffset := col targetSeat - col firstSelectedSeat in
            checkLoop d rowOffset colOffset selectedSeatIds selectedSeatIds [] []
        | None => None
        end
  | None => None
  end.

(** A displaced student together with the seat it is bumped off. *)
Record Displaced := mkDisplaced { d_student : loc; d_currentSeat : nat }.

(** The comparator [(a.row - b.row) || (a.col - b.col)]. *)
Definition byPosition (a b : Seat) : Z :=
  Js.num_or (row a - row b) (col a - col b).

(** The net-vacated source seats: not a target of the move, still present
    and not deleted, in row-major order. *)
Definition availableSourceSeats (sourceSeats : list SourceSeat)
    (targetIds : list string) (d : SeatingData) : list nat :=
  let notTarget := filter (λ s, ss_seatId s ∉ targetIds) sourceSeats in
  let found := omap (λ s, findSeatById (ss_seatId s) d) notTarget in
  let live := filter (λ x, isDeleted x.2 = false) found in
  fst <$> Js.sort (λ a b, byPosition a.2 b.2) live.

(** Step 2 of [executeMultiDropWithAllSeats], one position: the state is
    the seat array, the students to move and the displaced students. *)
Definition collect_step (seatIds : list string)
    (st : list Seat * list (loc * string) * list Displaced) (pos : Position)
    : list Seat * list (loc * string) * list Displaced :=
  let '(ss, toMove, displaced) := st in
  let sourceSeat := list_find (λ s, id s = originalSeatId pos) ss in
  let targetRef := list_find (λ s, id s = targetSeatId pos) ss in
  let '(ss1, toMove1) :=
    match sourceSeat with
    | Some (si, src) =>
        match student src with
        | Some p => (write_student si None ss, toMove ++ [(p, targetSeatId pos)])
        | None => (ss, toMove)
        end
    | None => (ss, toMove)
    end in
  let displaced1 :=
    match targetRef with
    | Some (ti, _) =>
        match student <$> ss1 !! ti with
        | Some (Some p) =>
            if bool_decide (targetSeatId pos ∈ seatIds) then displaced
            else displaced ++ [mkDisplaced p ti]
        | _ => displaced
        end
    | None => displaced
    end in
  (ss1, toMove1, displaced1).

(** Step 4: every moved student is written into its target seat. *)
Definition place_step (ss : list Seat) (item : loc * string) : list Seat :=
  match list_find (λ s, id s = item.2) ss with
  | Some (ti, _) => write_student ti (Some item.1) ss
  | None => ss
  end.

(** Step 5: the displaced student of rank [index] takes the net-vacated
    seat of the same rank; without such a seat its cache is cleared. *)
Definition backfill_step (available : list nat)
    (st : list Seat * list Student) (ix : nat * Displaced)
    : list Seat * list Student :=
  match available !! ix.1 with
  | Some seat => (write_student seat (Some (d_student ix.2)) st.1, st.2)
  | None => (st.1, alter (set_seatId None) (d_student ix.2) st.2)
  end.

Definition executeMultiDropWithAllSeats (targetId : string) (dragData : DragData)
    (now : Z) (app : SeatingApp) : SeatingApp :=
  match dragData with
  | SingleSeat _ _ => app
  | MultipleSeats sourceSeats _ _ =>
      let d := data app in
      let seatIds := ss_seatId <$> sourceSeats in
      match checkMultiDropTarget targetId seatIds d with
      | None => app
      | Some dropResult =>
          let d1 := addToHistory "seatArrangement" (seats d) now d in
          let targetIds := targetSeatId <$> positions dropResult in
          let available := availableSourceSeats sourceSeats targetIds d1 in
          let '(ss2, studentsToMove, displaced) :=
            foldl (collect_step seatIds) (seats d1, [], []) (positions dropResult) in
          let displaced' :=
            Js.sort (λ a b, byPosition (ss2 !!! d_currentSeat a) (ss2 !!! d_currentSeat b))
                    displaced in
          let ss4 := foldl place_step ss2 studentsToMove in
          let '(ss5, h5) :=
            foldl (backfill_step available) (ss4, heap d1) (imap pair displaced') in
          clearSelection
            (with_data (syncStudentSeatIds (with_seats ss5 (with_heap h5 d1))) app)
      end
  end.

(** *** Undo and layout change *)

(** [deepClone] of a stored seat: a new seat object whose student, if any,
    is a newly allocated copy. *)
Definition revive_seat (acc : list Student * list Seat) (c : SeatCopy)
    : list Student * list Seat :=
  match c_student c with
  | Some st =>
      (acc.1 ++ [st],
       acc.2 ++ [mkSeat (c_id c) (c_row c) (c_col c) (Some (length acc.1))
                        (c_position c) (c_isDeleted c)])
  | None =>
      (acc.1,
       acc.2 ++ [mkSeat (c_id c) (c_row c) (c_col c) None
                        (c_position c) (c_isDeleted c)])
  end.

Definition restoreFromHistory (item : HistoryItem) (app : SeatingApp)
    : SeatingApp * list Warning :=
  if decide (action item = "seatArrangement") then
    let d := data app in
    let r := foldl revive_seat (heap d, []) (hdata item) in
    let res := relinkStudentReferences (with_seats r.2 (with_heap r.1 d)) in
    (with_data res.1 app, res.2)
  else (app, []).

(** [SeatingApp.undo()] *)
Definition app_undo (app : SeatingApp) : SeatingApp * list Warning :=
  let r := undo (data app) in
  match r.1 with
  | Some historyItem => restoreFromHistory historyItem (with_data r.2 app)
  | None => (with_data r.2 app, [])
  end.

(** [applyNewLayoutFromDropdown()] with the values of the two inputs and the
    answer to the confirmation dialog. *)
Definition applyNewLayoutFromDropdown (newRows newCols : Z) (confirmed : bool)
    (now : Z) (app : SeatingApp) : SeatingApp :=
  if decide (newRows < 1 ∨ newRows > 15 ∨ newCols < 1 ∨ newCols > 12) then app
  else if confirmed then
    let d := data app in
    let d1 := addToHistory "seatArrangement" (seats d) now d in
    with_data (initializeSeats (with_dims newRows newCols d1)) app
  else app.

(** [new SeatingApp()] with an empty store: the default grid, and the
    initial history item whose pointer is reset to [-1]. *)
Definition new_SeatingApp (now : Z) : SeatingApp :=
  let d := initializeSeats new_SeatingData in
  let d1 := addToHistory "seatArrangement" (seats d) now d in
  mkSeatingApp (with_history (history d1) (-1) d1) [].

(** ** Scenarios *)

Module Scenario.

(** A 2 x 3 classroom with three students. *)
Definition classroom : SeatingApp :=
  let a0 := applyNewLayoutFromDropdown 2 3 true 1 (new_SeatingApp 0) in
  let a1 := saveStudent None "ua" "Ann" "1" "female" None "" a0 in
  let a2 := saveStudent None "ub" "Bob" "2" "male" None "" a1 in
  saveStudent None "uc" "Cid" "3" "male" None "" a2.

Definition occupancy (app : SeatingApp) : list (string * option loc * bool) :=
  (λ s, (id s, student s, isDeleted s)) <$> seats (data app).

Definition caches (app : SeatingApp) : list (string * option string) :=
  (λ st, (uuid st, seatId st)) <$> heap (data app).

(** Ann, Bob and Cid are seated one after the other, Bob is removed from
    the roster, and the last assignment is undone: the restored snapshot
    still seats Bob. *)
Definition seated : SeatingApp :=
  assignStudentToSeat "uc" "1-0" 4
    (assignStudentToSeat "ub" "0-1" 3
       (assignStudentToSeat "ua" "0-0" 2 classroom)).

Definition bob_deleted_then_undo : SeatingApp * list Warning :=
  app_undo (deleteStudent "ub" true seated).

(** The uuid of the occupant of every seat. *)
Definition occupant_uuids (app : SeatingApp) : list (string * option string) :=
  (λ s, (id s, uuid <$> (student s ≫= (heap (data app) !!.)))) <$> seats (data app).

Definition roster_uuids (app : SeatingApp) : list (option string) :=
  (λ p, uuid <$> heap (data app) !! p) <$> students (data app).

(** The seats [0-0] and [0-1] are selected in this order and the block is
    grabbed at [0-1]. *)
Definition two_selected : SeatingApp :=
  toggleSeatSelection "0-1" false (toggleSeatSelection "0-0" false seated).

Definition grabbed_at_0_1 : DragData := prepareMultiSeatDrag "0-1" two_selected.

(** Ann sits at [0-0] and Bob at [1-1]; the seats [0-0] and [0-1] (an
    empty seat) are selected and the block is grabbed at [0-0]. *)
Definition ann_and_bob : SeatingApp :=
  assignStudentToSeat "ub" "1-1" 3 (assignStudentToSeat "ua" "0-0" 2 classroom).

Definition ann_and_empty_selected : SeatingApp :=
  toggleSeatSelection "0-1" false (toggleSeatSelection "0-0" false ann_and_bob).

Definition dropped_at_1_0 : SeatingApp :=
  executeMultiDropWithAllSeats "1-0"
    (prepareMultiSeatDrag "0-0" ann_and_empty_selected) 4 ann_and_empty_selected.

(** Ann sits at [0-0], Cid at [1-0] and Bob at [1-1]; the seats [0-0] and
    [0-1] are selected, then the empty seat [0-1] is deleted, and the block
    is grabbed at [0-0] and dropped at [1-0]. *)
Definition front_row_selected : SeatingApp :=
  toggleSeatSelection "0-1" false
    (toggleSeatSelection "0-0" false
       (assignStudentToSeat "ub" "1-1" 4
          (assignStudentToSeat "uc" "1-0" 3
             (assignStudentToSeat "ua" "0-0" 2 classroom)))).

Definition selected_seat_deleted : SeatingApp := deleteSeat "0-1" 5 front_row_selected.

Definition dropped_after_delete : SeatingApp :=
  executeMultiDropWithAllSeats "1-0"
    (prepareMultiSeatDrag "0-0" selected_seat_deleted) 6 selected_seat_deleted.

(** The block of [two_selected], grabbed at [0-1], is dropped at [1-1]. *)
Definition dropped_at_1_1 : SeatingApp :=
  executeMultiDropWithAllSeats "1-1" grabbed_at_0_1 9 two_selected.

End Scenario.

(** ** History: replaying calls *)

(** A call of [addToHistory]: the action, the seat array handed over and
    the clock. *)
Definition Call : Type := string * list Seat * Z.

Definition record_all (calls : list Call) (d : SeatingData) : SeatingData :=
  foldl (λ d c, addToHistory c.1.1 c.1.2 c.2 d) d calls.

(** The history item a call leaves on the stack. *)
Definition item_of (h : list Student) (c : Call) : HistoryItem :=
  mkHistoryItem c.1.1 (deepClone_seats h c.1.2) c.2.

(** [n] calls of [undo()] in a row, with what each returned. *)
Fixpoint undo_n (n : nat) (d : SeatingData) : list (option HistoryItem) * SeatingData :=
  match n with
  | O => ([], d)
  | S n' => let r := undo d in
            let r' := undo_n n' r.2 in
            (r.1 :: r'.1, r'.2)
  end.

(** The last (at most) five items of a stack. *)
Definition keep5 (l : list HistoryItem) : list HistoryItem :=
  drop (length l - 5)%nat l.

(** Seven calls in a row on a new store. *)
Definition seven_calls : list Call :=
  (λ t, ("seatArrangement", [], t)) <$> [1; 2; 3; 4; 5; 6; 7].

(** ** Vocabulary of the statements *)

(** The uuid of the student a seat references. *)
Definition occupant_uuid (h : list Student) (s : Seat) : option string :=
  uuid <$> (student s ≫= (h !!.)).

(** No student is referenced by two seats that are not deleted: two such
    seats whose occupants carry the same uuid are the same seat object. *)
Definition injective_occupancy (d : SeatingData) : Prop :=
  ∀ i j si sj u,
    seats d !! i = Some si → seats d !! j = Some sj →
    isDeleted si = false → isDeleted sj = false →
    occupant_uuid (heap d) si = Some u → occupant_uuid (heap d) sj = Some u →
    i = j.

(** The seat found at a coordinate, as [checkMultiDropTarget] looks it up. *)
Definition seat_at (r c : Z) (d : SeatingData) : option Seat :=
  snd <$> list_find (λ s, row s = r ∧ col s = c) (seats d).

(** A translated coordinate that makes a block move invalid: outside the
    grid, or on a deleted seat. *)
Definition lands_outside_or_deleted (d : SeatingData) (r c : Z) : Prop :=
  (r < 0 ∨ r >= rows d ∨ c < 0 ∨ c >= cols d) ∨
  (∃ t, seat_at r c d = Some t ∧ isDeleted t = true).

(** The two lists [executeMultiDropWithAllSeats] pairs up for a drop of
    [sourceSeats] on [targetId], computed as the operation computes them:
    the displaced students sorted by the seat they are bumped off, and the
    net-vacated seats in row-major order. *)
Definition pairing_lists (targetId : string) (sourceSeats : list SourceSeat)
    (d : SeatingData) : option (list Displaced * list nat) :=
  let seatIds := ss_seatId <$> sourceSeats in
  dropResult ← checkMultiDropTarget targetId seatIds d;
  let available :=
    availableSourceSeats sourceSeats (targetSeatId <$> positions dropResult) d in
  let '(ss2, _, displaced) :=
    foldl (collect_step seatIds) (seats d, [], []) (positions dropResult) in
  Some (Js.sort (λ a b, byPosition (ss2 !!! d_currentSeat a) (ss2 !!! d_currentSeat b))
                displaced,
        available).

(** The source seats of a multi-seat payload. *)
Definition sourceSeats_of (drag : DragData) : list SourceSeat :=
  match drag with
  | MultipleSeats sourceSeats _ _ => sourceSeats
  | SingleSeat _ _ => []
  end.

Definition anchor_of (drag : DragData) : option string :=
  match drag with
  | MultipleSeats _ _ anchor => anchor
  | SingleSeat _ _ => None
  end.

(** Strings without a dash, as the decimal form of a non-negative number. *)
Fixpoint dash_free (s : string) : Prop :=
  match s with
  | EmptyString => True
  | String c s' => c ≠ "-"%char ∧ dash_free s'
  end.

(** A position of a plan moves the occupant of its source seat by the
    offset [(rowOffset, colOffset)] onto a seat of the grid that is not
    deleted. *)
Definition translated_by (d : SeatingData) (rowOffset colOffset : Z)
    (p : Position) : Prop :=
  ∃ i src t,
    findSeatById (originalSeatId p) d = Some (i, src) ∧
    seat_at (row src + rowOffset) (col src + colOffset) d = Some t ∧
    isDeleted t = false ∧
    0 ≤ row src + rowOffset < rows d ∧ 0 ≤ col src + colOffset < cols d ∧
    targetSeatId p = id t ∧ p_student p = student src.

(** Ascending row-major order of two seats. *)
Definition row_major (a b : Seat) : Prop :=
  row a < row b ∨ (row a = row b ∧ col a ≤ col b).

(** The timestamps of a stack, and of what a run of [undo()] returned. *)
Definition stamps (l : list HistoryItem) : list Z := timestamp <$> l.
Definition returned_stamps (l : list (option HistoryItem)) : list (option Z) :=
  (λ r : option HistoryItem, timestamp <$> r) <$> l.

(** ** Further definitions of models.js and main.js *)

(** [Seat.getDisplayCoord], [isEmpty], [isAvailable] and [isOccupied]. *)
Definition getDisplayCoord (totalRows : Z) (s : Seat) : Z * Z :=
  (totalRows - row s, col s + 1).

Definition isEmpty (s : Seat) : bool :=
  negb (bool_decide (is_Some (student s))) && negb (isDeleted s).

Definition isAvailable (s : Seat) : bool :=
  negb (isDeleted s) && negb (bool_decide (is_Some (student s))).

Definition isOccupied (s : Seat) : bool :=
  negb (isDeleted s) && bool_decide (is_Some (student s)).

Definition getAvailableSeats (d : SeatingData) : list Seat :=
  filter (λ s, isDeleted s = false ∧ student s = None) (seats d).

Definition getSeatedStudentsCount (d : SeatingData) : Z :=
  Z.of_nat (length (filter (λ s, is_Some (student s)) (seats d))).

Definition getUnseatedStudentsCount (d : SeatingData) : Z :=
  Z.of_nat (length (students d)) - getSeatedStudentsCount d.

(** The references of the seats [getActiveSeats()] returns. *)
Definition activeSeatRefs (ss : list Seat) : list nat :=
  fst <$> filter (λ x, isDeleted x.2 = false) (imap pair ss).

(** [clearAllStudents()] once the dialog is confirmed. *)
Definition clearAllStudents (confirmed : bool) (now : Z) (app : SeatingApp) : SeatingApp :=
  if confirmed then
    let d := data app in
    let d1 := addToHistory "seatArrangement" (seats d) now d in
    with_data
      (syncStudentSeatIds
         (with_seats (set_student None <$> seats d1) (with_students [] d1)))
      app
  else app.

(** [clearSelectedSeats()] with the answer to the dialog: the occupants of
    the selected seats that are not deleted are removed. *)
Definition clearSelectedSeats (confirmed : bool) (now : Z) (app : SeatingApp) : SeatingApp :=
  match selectedSeats app with
  | [] => app
  | _ =>
      if confirmed then
        let d := data app in
        let d1 := addToHistory "seatArrangement" (seats d) now d in
        let ss :=
          foldl (λ ss seatId,
                   match list_find (λ s, id s = seatId) ss with
                   | Some (i, seat) =>
                       if isDeleted seat then ss else write_student i None ss
                   | None => ss
                   end) (seats d1) (selectedSeats app) in
        clearSelection (with_data (with_seats ss d1) app)
      else app
  end.

(** [executeReplaceSelectedSeats(replacements)]: every replacement is a
    pair of a student uuid and a seat id. *)
Definition replace_step (d : SeatingData) (ss : list Seat) (r : string * string)
    : list Seat :=
  match list_find (λ s, id s = r.2) ss, findStudentByUuid r.1 d with
  | Some (ti, targetSeat), Some newStudent =>
      if isDeleted targetSeat then ss else write_student ti (Some newStudent) ss
  | _, _ => ss
  end.

Definition executeReplaceSelectedSeats (replacements : list (string * string))
    (now : Z) (app : SeatingApp) : SeatingApp :=
  let d := data app in
  let d1 := addToHistory "seatArrangement" (seats d) now d in
  let ss := foldl (replace_step d1) (seats d1) replacements in
  clearSelection (with_data (syncStudentSeatIds (with_seats ss d1)) app).

(** *** Rotation *)

(** [students.unshift(students.pop())] and [students.push(students.shift())]
    on an array of occupants. *)
Definition rotate_right (l : list (option loc)) : list (option loc) :=
  default None (last l) :: take (length l - 1)%nat l.

Definition rotate_left (l : list (option loc)) : list (option loc) :=
  drop 1 l ++ [default None (head l)].

(** The object [rows] (or [cols]) built by the first loop: one array of
    seat references per key, in creation order of the keys. *)
Fixpoint group_push (k : Z) (ref : nat) (groups : list (Z * list nat))
    : list (Z * list nat) :=
  match groups with
  | [] => [(k, [ref])]
  | (k', refs) :: rest =>
      if decide (k' = k) then (k', refs ++ [ref]) :: rest
      else (k', refs) :: group_push k ref rest
  end.

Definition group_by (key : Seat → Z) (ss : list Seat) (refs : list nat)
    : list (Z * list nat) :=
  foldl (λ groups ref, group_push (key (ss !!! ref)) ref groups) [] refs.

(** [Object.values]: the keys that are array indices come first, in
    ascending order, the other keys follow in creation order. *)
Definition is_array_index (k : Z) : Prop := 0 ≤ k < 4294967295.

Definition object_values (groups : list (Z * list nat)) : list (list nat) :=
  snd <$> (Js.sort (λ a b, a.1 - b.1) (filter (λ g, is_array_index g.1) groups)
           ++ filter (λ g, ¬ is_array_index g.1) groups).

(** The body of the second loop, for one row (or column): the seats are
    sorted along the line, their occupants rotated and written back. *)
Definition rotate_group (along : Seat → Z) (direction : Z) (ss : list Seat)
    (group : list nat) : list Seat :=
  let sorted := Js.sort (λ a b, along (ss !!! a) - along (ss !!! b)) group in
  let studs := (λ ref, student (ss !!! ref)) <$> sorted in
  let studs' := if decide (direction > 0) then rotate_right studs
                else rotate_left studs in
  foldl (λ ss ix, write_student ix.2 (default None (studs' !! ix.1)) ss)
        ss (imap pair sorted).

Definition rotateRows (refs : list nat) (direction : Z) (ss : list Seat) : list Seat :=
  foldl (rotate_group col direction) ss (object_values (group_by row ss refs)).

Definition rotateCols (refs : list nat) (direction : Z) (ss : list Seat) : list Seat :=
  foldl (rotate_group row direction) ss (object_values (group_by col ss refs)).

(** [rotateSeats(direction)] *)
Definition rotateSeats (direction : string) (now : Z) (app : SeatingApp) : SeatingApp :=
  let d := data app in
  let d1 := addToHistory "seatArrangement" (seats d) now d in
  let active := activeSeatRefs (seats d1) in
  let ss :=
    if decide (direction = "rowLeft") then rotateRows active (-1) (seats d1)
    else if decide (direction = "rowRight") then rotateRows active 1 (seats d1)
    else if decide (direction = "colForward") then rotateCols active (-1) (seats d1)
    else if decide (direction = "colBackward") then rotateCols active 1 (seats d1)
    else seats d1 in
  with_data (syncStudentSeatIds (with_seats ss d1)) app.

(** The last seat of the array that references the student object [q]. *)
Definition last_seat_of (q : loc) (ss : list Seat) : option Seat :=
  last (filter (λ s, student s = Some q) ss).

(** The seat [s], read in the heap [h], carries what the stored copy [c]
    recorded: the same fields, and an occupant with the uuid of the copied
    student, or nobody where the copy has nobody. *)
Definition restores (h : list Student) (c : SeatCopy) (s : Seat) : Prop :=
  id s = c_id c ∧ row s = c_row c ∧ col s = c_col c ∧
  position s = c_position c ∧ isDeleted s = c_isDeleted c ∧
  match c_student c with
  | Some st => ∃ p st', student s = Some p ∧ h !! p = Some st' ∧ uuid st' = uuid st
  | None => student s = None
  end.

(** The seats [ss'], read in the heap [h'], show the arrangement of the
    seats [ss] read in [h]: seat by seat the same fields and an occupant
    with the same uuid. *)
Definition same_arrangement (h : list Student) (ss : list Seat)
    (h' : list Student) (ss' : list Seat) : Prop :=
  Forall2 (λ s s', id s' = id s ∧ row s' = row s ∧ col s' = col s ∧
                   position s' = position s ∧ isDeleted s' = isDeleted s ∧
                   occupant_uuid h' s' = occupant_uuid h s) ss ss'.

(** No student is referenced by two seats, deleted or not. *)
Definition unique_occupancy (d : SeatingData) : Prop :=
  ∀ i j si sj u,
    seats d !! i = Some si → seats d !! j = Some sj →
    occupant_uuid (heap d) si = Some u → occupant_uuid (heap d) sj = Some u →
    i = j.

(** In a line of [n] seats, the position whose occupant the rotation moves
    to position [j]. *)
Definition rotated_from (direction : Z) (n j : nat) : nat :=
  if decide (direction > 0) then (if decide (j = 0) then n - 1 else j - 1)%nat
  else (if decide (j + 1 = n) then 0 else j + 1)%nat.

(** All the fields of a seat but its occupant. *)
Definition frame (s : Seat) : Seat := set_student None s.

(** ** utils.js: [parseDisplayCoordinate] and models.js: [getDisplayCoordString] *)

(** A string is read as the sequence of its code units, all below 256.  In
    that range [String.prototype.trim] removes the characters 9 to 13, the
    space and the no-break space (160). *)
Definition is_white_space (c : ascii) : bool :=
  let n := N_of_ascii c in
  ((9 <=? n) && (n <=? 13) || (n =? 32) || (n =? 160))%N.

Fixpoint trim_start (s : string) : string :=
  match s with
  | EmptyString => EmptyString
  | String c s' => if is_white_space c then trim_start s' else s
  end.

Fixpoint trim_end (s : string) : string :=
  match s with
  | EmptyString => EmptyString
  | String c s' =>
      match trim_end s' with
      | EmptyString => if is_white_space c then EmptyString else String c EmptyString
      | t => String c t
      end
  end.

Definition trim (s : string) : string := trim_end (trim_start s).

(** [\d] *)
Definition is_digit (c : ascii) : bool :=
  let n := N_of_ascii c in ((48 <=? n) && (n <=? 57))%N.

(** The longest prefix of digits, and what follows it. *)
Fixpoint span_digits (s : string) : string * string :=
  match s with
  | EmptyString => (EmptyString, EmptyString)
  | String c s' =>
      if is_digit c then let r := span_digits s' in (String c r.1, r.2)
      else (EmptyString, s)
  end.

(** [s.match(/^(\d+)-(\d+)$/)]: the two groups.  A digit is not a dash, so
    the first group can only be the longest prefix of digits. *)
Definition match_coord (s : string) : option (string * string) :=
  let a := span_digits s in
  match a.2 with
  | String "-" rest =>
      let b := span_digits rest in
      if decide (a.1 ≠ "" ∧ b.1 ≠ "" ∧ b.2 = "") then Some (a.1, b.1) else None
  | _ => None
  end.

(** [parseInt] of a string of digits.  The value is exact here; a number of
    JavaScript is a double and rounds beyond 2^53, which the range test of
    [parseDisplayCoordinate] rejects either way for a grid below that
    size. *)
Fixpoint parseInt_digits (acc : Z) (s : string) : Z :=
  match s with
  | EmptyString => acc
  | String c s' => parseInt_digits (10 * acc + (Z.of_N (N_of_ascii c) - 48)) s'
  end.

Record ParsedCoord := mkParsedCoord {
  pc_row : Z;
  pc_col : Z;
  pc_displayRow : Z;
  pc_displayCol : Z;
  pc_seatId : string
}.

Definition parseDisplayCoordinate (coordString : string) (totalRows totalCols : Z)
    : option ParsedCoord :=
  if decide (coordString = "") then None
  else
    match match_coord (trim coordString) with
    | None => None
    | Some (g1, g2) =>
        let displayRow := parseInt_digits 0 g1 in
        let displayCol := parseInt_digits 0 g2 in
        let internalRow := totalRows - displayRow in
        let internalCol := displayCol - 1 in
        if decide (internalRow < 0 ∨ internalRow >= totalRows ∨
                   internalCol < 0 ∨ internalCol >= totalCols) then None
        else Some (mkParsedCoord internalRow internalCol displayRow displayCol
                     (seatIdOf internalRow internalCol))
    end.

(** [Seat.getDisplayCoordString(totalRows)] *)
Definition getDisplayCoordString (totalRows : Z) (s : Seat) : string :=
  let coord := getDisplayCoord totalRows s in
  pretty coord.1 +:+ "-" +:+ pretty coord.2.

(** Strings of digits, and strings of white space. *)
Fixpoint digits_only (s : string) : Prop :=
  match s with
  | EmptyString => True
  | String c s' => is_digit c = true ∧ digits_only s'
  end.

Fixpoint white_space_only (s : string) : Prop :=
  match s with
  | EmptyString => True
  | String c s' => is_white_space c = true ∧ white_space_only s'
  end.

Fixpoint no_white_space (s : string) : Prop :=
  match s with
  | EmptyString => True
  | String c s' => is_white_space c = false ∧ no_white_space s'
  end.

(** *** Arrangement *)

(** The loop of [randomSeatArrangement()].  [draw k] stands for the [k]-th
    call of [Math.random()]: [Math.floor(Math.random() * n)] is some index
    below [n], here [draw k mod n].  Every turn takes a student away, so
    the number of students bounds the number of turns. *)
Fixpoint random_loop (draw : nat → nat) (k : nat) (turns : nat)
    (studentsToSeat : list loc) (availableSeats : list nat) (ss : list Seat)
    : list Seat :=
  match turns with
  | O => ss
  | S turns' =>
      if decide (studentsToSeat = [] ∨ availableSeats = []) then ss
      else
        let randomStudentIndex := (draw k mod length studentsToSeat)%nat in
        let randomSeatIndex := (draw (S k) mod length availableSeats)%nat in
        match studentsToSeat !! randomStudentIndex, availableSeats !! randomSeatIndex with
        | Some stud, Some seat =>
            random_loop draw (S (S k)) turns'
              (delete randomStudentIndex studentsToSeat)
              (delete randomSeatIndex availableSeats)
              (write_student seat (Some stud) ss)
        | _, _ => ss
        end
  end.

(** [seat => { if (!seat.isDeleted) seat.student = null; }] *)
Definition clear_active (s : Seat) : Seat :=
  if isDeleted s then s else set_student None s.

Definition randomSeatArrangement (draw : nat → nat) (now : Z) (app : SeatingApp)
    : SeatingApp :=
  let d := data app in
  if decide (students d = []) then app
  else
    let d1 := addToHistory "seatArrangement" (seats d) now d in
    let ss0 := clear_active <$> seats d1 in
    let ss := random_loop draw 0 (length (students d1)) (students d1)
                (activeSeatRefs ss0) ss0 in
    with_data (syncStudentSeatIds (with_seats ss d1)) app.

(** The two comparators of [arrangeStudentsInOrder]. *)
Definition byColumn (a b : Seat) : Z :=
  if decide (col a ≠ col b) then col a - col b else row b - row a.

Definition byRow (a b : Seat) : Z :=
  if decide (row a ≠ row b) then row b - row a else col a - col b.

(** [arrangeStudentsInOrder(students, arrangementType)]: the seats that are
    not deleted are sorted and the students put on them in this order. *)
Definition seatComparator (arrangementType : string) : Seat → Seat → Z :=
  if decide (arrangementType = "column") then byColumn else byRow.

Definition availableSeatsInOrder (arrangementType : string) (ss : list Seat)
    : list nat :=
  Js.sort (λ a b, seatComparator arrangementType (ss !!! a) (ss !!! b))
          (activeSeatRefs ss).

Definition arrangeStudentsInOrder (studs : list loc) (arrangementType : string)
    (ss : list Seat) : list Seat :=
  let availableSeats := availableSeatsInOrder arrangementType ss in
  foldl (λ ss ix, match availableSeats !! ix.1 with
                  | Some seat => write_student seat (Some ix.2) ss
                  | None => ss
                  end) ss (imap pair studs).

(** The occupants of the seats that are not deleted. *)
Definition active_occupants (ss : list Seat) : list loc :=
  omap student (filter (λ s, isDeleted s = false) ss).

(** *** Storage (models.js) *)

(** The part of the stored JSON document that the model keeps: students and
    seat occupants are held by value. *)
Record Stored := mkStored {
  st_students : list Student;
  st_seats : list SeatCopy;
  st_rows : Z;
  st_cols : Z;
  st_history : list HistoryItem;
  st_historyIndex : Z
}.

(** [saveToStorage()]: the document written to [localStorage]. *)
Definition saveToStorage (d : SeatingData) : Stored :=
  mkStored (omap (heap d !!.) (students d)) (deepClone_seats (heap d) (seats d))
           (rows d) (cols d) (history d) (historyIndex d).

(** [loadFromStorage()] with the stored item, absent or as [saveToStorage]
    wrote it: [JSON.parse] allocates every object anew. *)
Definition loadFromStorage (savedData : option Stored) (d : SeatingData)
    : bool * (SeatingData * list Warning) :=
  match savedData with
  | None => (false, (d, []))
  | Some data =>
      let h1 := heap d ++ st_students data in
      let roster := seq (length (heap d)) (length (st_students data)) in
      let d1 := mkSeatingData h1 roster (seats d)
                  (Js.num_or (st_rows data) 6) (Js.num_or (st_cols data) 8)
                  (st_history data) (st_historyIndex data) in
      if decide (st_seats data ≠ []) then
        let r := foldl revive_seat (h1, []) (st_seats data) in
        (true, relinkStudentReferences (with_seats r.2 (with_heap r.1 d1)))
      else (true, (initializeSeats d1, []))
  end.

(** *** Export (excel-handler.js) *)

(** The rows [exportToExcel()] hands to the spreadsheet library, header
    included; the text of the header and of the gender is written in
    UTF-8. *)
Definition genderText (g : string) : string :=
  if decide (g = "male") then "男" else if decide (g = "female") then "女" else "".

Definition export_header : list string :=
  ["座位坐标"; "学生姓名"; "学号"; "性别"; "身高(cm)"; "职务"].

Definition export_blank : list string := [""; ""; ""; ""; ""; ""].

Definition export_cells (h : list Student) (displayCoord : string) (seat : Seat)
    : list string :=
  match student seat ≫= (h !!.) with
  | Some st =>
      [displayCoord; name st; sid st; genderText (gender st);
       match height st with
       | Some x => if decide (x = 0) then "" else pretty x
       | None => ""
       end;
       notes st]
  | None => [displayCoord; ""; ""; ""; ""; ""]
  end.

Definition export_seat (d : SeatingData) (displayCol displayRow : Z)
    : list (list string) :=
  let internalRow := rows d - displayRow in
  let internalCol := displayCol - 1 in
  match list_find (λ s, row s = internalRow ∧ col s = internalCol) (seats d) with
  | Some (_, seat) =>
      if isDeleted seat then []
      else [export_cells (heap d) (pretty displayRow +:+ "-" +:+ pretty displayCol) seat]
  | None => []
  end.

Definition exportToExcel (d : SeatingData) : list (list string) :=
  export_header ::
  (displayCol ← seqZ 1 (cols d);
   (displayRow ← reverse (seqZ 1 (rows d)); export_seat d displayCol displayRow)
   ++ (if decide (displayCol < cols d) then [export_blank] else [])).

(** *** Import (excel-handler.js) *)

(** A row of [validData] as [validateExcelData] leaves it; the height is
    [''] ([None]) or a number. *)
Record StudentData := mkStudentData {
  sd_name : string;
  sd_id : string;
  sd_gender : string;
  sd_height : option Z;
  sd_notes : string;
  sd_seatCoord : string
}.

(** [a || b] on strings and on heights. *)
Definition str_or (a b : string) : string := if decide (a = "") then b else a.

Definition height_or (a b : option Z) : option Z :=
  match a with
  | Some z => if decide (z = 0) then b else Some z
  | None => b
  end.

(** The store and the locals of [confirmExcelImport] between two rows;
    [generated] counts the calls of [generateUUID]. *)
Record ImportState := mkImportState {
  i_data : SeatingData;
  generated : nat;
  importedCount : Z;
  skippedCount : Z;
  seatedCount : Z
}.

(** The second step of a row: the student object [p] takes the seat its
    coordinate names.  The flag tells whether [seatedCount] grows. *)
Definition import_seat (seatCoord : string) (p : loc) (d : SeatingData)
    : SeatingData * bool :=
  if decide (seatCoord = "") then (d, false)
  else
    match parseDisplayCoordinate seatCoord (rows d) (cols d) with
    | None => (d, false)
    | Some parsedCoord =>
        match list_find (λ s, row s = pc_row parsedCoord ∧ col s = pc_col parsedCoord ∧
                              isDeleted s = false) (seats d) with
        | None => (d, false)
        | Some (ti, targetSeat) =>
            let h1 := match student targetSeat with
                      | Some q =>
                          if decide (uuid <$> heap d !! q = uuid <$> heap d !! p)
                          then heap d
                          else alter (set_seatId None) q (heap d)
                      | None => heap d
                      end in
            let ss1 := match h1 !! p ≫= seatId with
                       | Some old =>
                           if decide (old = "") then seats d
                           else
                             match list_find (λ s, id s = old) (seats d) with
                             | Some (oi, _) => write_student oi None (seats d)
                             | None => seats d
                             end
                       | None => seats d
                       end in
            let ss2 := write_student ti (Some p) ss1 in
            let h2 := alter (set_seatId (Some (id targetSeat))) p h1 in
            (with_seats ss2 (with_heap h2 d), true)
        end
    end.

(** The body of [validData.forEach]; [fresh k] is the result of the call
    number [k] of [generateUUID]. *)
Definition import_row (overwriteExisting : bool) (fresh : nat → string)
    (st : ImportState) (studentData : StudentData) : ImportState :=
  let d := i_data st in
  let p := length (heap d) in
  let finish d1 g :=
    let '(d2, seated) := import_seat (sd_seatCoord studentData) p d1 in
    mkImportState d2 g (importedCount st + 1) (skippedCount st)
      (if seated then seatedCount st + 1 else seatedCount st) in
  match list_find (λ q, name <$> heap d !! q = Some (sd_name studentData)) (students d) with
  | Some (existingIndex, q) =>
      if overwriteExisting then
        match heap d !! q with
        | Some existingStudent =>
            let obj := mkStudent (uuid existingStudent) (name existingStudent)
                         (str_or (sd_id studentData) (sid existingStudent))
                         (str_or (sd_gender studentData) (gender existingStudent))
                         (height_or (sd_height studentData) (height existingStudent))
                         (str_or (sd_notes studentData) (notes existingStudent))
                         (seatId existingStudent) in
            finish (with_students (<[existingIndex := p]> (students d))
                      (with_heap (heap d ++ [obj]) d)) (generated st)
        | None => st
        end
      else
        mkImportState d (generated st) (importedCount st) (skippedCount st + 1)
          (seatedCount st)
  | None =>
      let obj := mkStudent (fresh (generated st)) (sd_name studentData)
                   (str_or (sd_id studentData) "") (str_or (sd_gender studentData) "")
                   (height_or (sd_height studentData) None)
                   (str_or (sd_notes studentData) "") None in
      finish (with_students (students d ++ [p]) (with_heap (heap d ++ [obj]) d))
        (S (generated st))
  end.

(** [confirmExcelImport()]: nothing happens without pending data; otherwise
    the rows are imported in order and the three counts are shown. *)
Definition confirmExcelImport (pendingImportData : option (list StudentData))
    (overwriteExisting : bool) (fresh : nat → string) (d : SeatingData)
    : option ImportState :=
  foldl (import_row overwriteExisting fresh) (mkImportState d 0 0 0 0)
    <$> pendingImportData.

(** What the import relies on: references point into the heap, seat ids
    are distinct and not empty, the roster holds each uuid once, and the
    roster object of a seated student caches the id of that seat. *)
Definition seats_cached (d : SeatingData) : Prop :=
  ∀ s u p, s ∈ seats d → occupant_uuid (heap d) s = Some u →
    p ∈ students d → uuid <$> heap d !! p = Some u →
    heap d !! p ≫= seatId = Some (id s).

Record import_invariant (d : SeatingData) : Prop := mkImportInvariant {
  inv_unique : unique_occupancy d;
  inv_ids : NoDup (id <$> seats d);
  inv_ids_ne : "" ∉ id <$> seats d;
  inv_roster_refs : ∀ p, p ∈ students d → (p < length (heap d))%nat;
  inv_seat_refs : ∀ s q, s ∈ seats d → student s = Some q → (q < length (heap d))%nat;
  inv_roster : NoDup ((λ p, uuid <$> heap d !! p) <$> students d);
  inv_cached : seats_cached d
}.

(** Between two rows: the invariant holds and the uuids still to be
    generated are not in the heap. *)
Definition between_rows (fresh : nat → string) (st : ImportState) : Prop :=
  import_invariant (i_data st) ∧
  ∀ n (k : nat), (generated st ≤ n)%nat → uuid <$> heap (i_data st) !! k ≠ Some (fresh n).

(** The names on the roster, in roster order. *)
Definition roster_names (d : SeatingData) : list (option string) :=
  (λ p : nat, name <$> heap d !! p) <$> students d.

(** * Properties *)

(** ** Array helpers *)

Section slice.
Context {A : Type}.
Implicit Types l : list A.

Lemma slice_prefix l (e : Z) :
  0 ≤ e → Js.slice 0 (Some e) l = take (Z.to_nat e) l.
Proof.
  intros He. unfold Js.slice, Js.rel_index. simpl.
  repeat case_decide; try lia.
  replace (0 `min` Z.of_nat (length l)) with 0 by lia.
  rewrite Z.sub_0_r. change (Z.to_nat 0) with 0%nat. rewrite drop_0.
  destruct (decide (e ≤ Z.of_nat (length l))).
  - by rewrite Z.min_l by lia.
  - rewrite Z.min_r by lia.
    rewrite Nat2Z.id. rewrite take_ge by lia. by rewrite take_ge by lia.
Qed.

Lemma slice_suffix l (k : Z) :
  0 ≤ k ≤ Z.of_nat (length l) → Js.slice k None l = drop (Z.to_nat k) l.
Proof.
  intros Hk. unfold Js.slice, Js.rel_index. simpl.
  repeat case_decide; try lia.
  rewrite Z.min_l by lia. rewrite Z.min_l by lia.
  apply take_ge. rewrite length_drop. lia.
Qed.

End slice.

(** ** Bounded history *)

Lemma length_keep5 l : length (keep5 l) = (length l `min` 5)%nat.
Proof. unfold keep5. rewrite length_drop. lia. Qed.

Lemma keep5_idem_app l l2 : keep5 (keep5 l ++ l2) = keep5 (l ++ l2).
Proof.
  unfold keep5. rewrite !length_app, length_drop.
  destruct (decide (length l ≤ 5)%nat) as [Hle|Hgt].
  - replace (length l - 5)%nat with 0%nat by lia. by rewrite drop_0, Nat.sub_0_r.
  - replace (length l - (length l - 5) + length l2 - 5)%nat with (length l2) by lia.
    replace (length l + length l2 - 5)%nat with ((length l - 5) + length l2)%nat by lia.
    rewrite <- drop_drop. f_equal.
    by rewrite drop_app_le by lia.
Qed.

Lemma keep5_app_ge l1 l2 : (5 ≤ length l2)%nat → keep5 (l1 ++ l2) = keep5 l2.
Proof.
  intros H. unfold keep5. rewrite length_app.
  replace (length l1 + length l2 - 5)%nat with (length l1 + (length l2 - 5))%nat by lia.
  by rewrite drop_app_add.
Qed.

(** One call, seen from a stack whose pointer is on the top item or above. *)
Lemma addToHistory_top act data now d :
  Z.of_nat (length (history d)) - 1 ≤ historyIndex d →
  let d' := addToHistory act data now d in
  history d' = keep5 (history d ++ [item_of (heap d) (act, data, now)]) ∧
  heap d' = heap d ∧
  Z.of_nat (length (history d')) - 1 ≤ historyIndex d' ∧
  ((5 ≤ length (history d))%nat → historyIndex d' = 4).
Proof.
  intros Htop. unfold addToHistory, item_of, MAX_HISTORY_SIZE. simpl.
  rewrite slice_prefix by lia.
  rewrite take_ge by lia.
  set (h2 := history d ++ _).
  assert (length h2 = S (length (history d))) as Hlen
    by (unfold h2; rewrite length_app; simpl; lia).
  case_decide as Hbig.
  - rewrite slice_suffix by lia. simpl.
    replace (Z.to_nat (Z.of_nat (length h2) - 5)) with (length h2 - 5)%nat by lia.
    fold (keep5 h2). rewrite length_keep5. repeat split; try done; lia.
  - simpl. unfold keep5. replace (length h2 - 5)%nat with 0%nat by lia.
    rewrite drop_0. repeat split; try done; lia.
Qed.

(** The first call cuts the redo entries and leaves the pointer on top. *)
Lemma addToHistory_first act data now d :
  -1 ≤ historyIndex d →
  let d' := addToHistory act data now d in
  history d' = keep5 (take (Z.to_nat (historyIndex d + 1)) (history d)
                      ++ [item_of (heap d) (act, data, now)]) ∧
  heap d' = heap d ∧
  Z.of_nat (length (history d')) - 1 ≤ historyIndex d'.
Proof.
  intros Hidx. unfold addToHistory, item_of, MAX_HISTORY_SIZE. simpl.
  rewrite slice_prefix by lia.
  set (h2 := take _ (history d) ++ _).
  assert (Z.of_nat (length h2) ≤ historyIndex d + 2) as Hlen.
  { unfold h2. rewrite length_app, length_take. simpl. lia. }
  case_decide as Hbig.
  - rewrite slice_suffix by lia. simpl.
    replace (Z.to_nat (Z.of_nat (length h2) - 5)) with (length h2 - 5)%nat by lia.
    fold (keep5 h2). rewrite length_keep5. repeat split; try done; lia.
  - simpl. unfold keep5. replace (length h2 - 5)%nat with 0%nat by lia.
    rewrite drop_0. repeat split; try done; lia.
Qed.

Lemma record_all_top calls : ∀ d,
  Z.of_nat (length (history d)) - 1 ≤ historyIndex d →
  (length (history d) ≤ 5)%nat →
  let d' := record_all calls d in
  history d' = keep5 (history d ++ (item_of (heap d) <$> calls)) ∧
  heap d' = heap d ∧
  (calls ≠ [] → (5 < length (history d) + length calls)%nat → historyIndex d' = 4).
Proof.
  induction calls as [|[[act dat] now] calls IH]; intros d Htop Hlen.
  - simpl. rewrite app_nil_r. unfold keep5.
    replace (length (history d) - 5)%nat with 0%nat by lia. done.
  - simpl.
    destruct (addToHistory_top act dat now d Htop) as (Hh & Hheap & Htop' & Hidx).
    set (d1 := addToHistory act dat now d) in *.
    assert (length (history d1) = S (length (history d)) `min` 5)%nat as Hlen1.
    { rewrite Hh, length_keep5, length_app. simpl. lia. }
    destruct (IH d1 Htop' ltac:(lia)) as (IHh & IHheap & IHidx).
    fold (record_all calls d1). rewrite IHh, IHheap, Hheap, Hh.
    rewrite keep5_idem_app, <- app_assoc. simpl. repeat split; try done.
    intros _ Hmany. destruct calls as [|c calls].
    + simpl in *. apply Hidx. lia.
    + apply IHidx; [done|]. simpl in *. lia.
Qed.

Lemma undo_n_S n d :
  undo_n (S n) d = ((undo d).1 :: (undo_n n (undo d).2).1, (undo_n n (undo d).2).2).
Proof. done. Qed.

Lemma undo_at d :
  historyIndex d >= 0 →
  undo d = (Js.index (history d) (historyIndex d),
            with_history (history d) (historyIndex d - 1) d).
Proof. intros. unfold undo. by case_decide. Qed.

(** With the pointer on the item of rank [length l - 1], as many calls of
    [undo()] return the items below the pointer from the top down, and one
    more call returns nothing. *)
Lemma undo_n_top l : ∀ d,
  historyIndex d = Z.of_nat (length l) - 1 →
  take (length l) (history d) = l →
  (undo_n (S (length l)) d).1 = (Some <$> reverse l) ++ [None].
Proof.
  induction l as [|x l IH] using rev_ind; intros d Hidx Htake.
  - simpl in *. unfold undo. case_decide; [lia|done].
  - rewrite length_app in Hidx, Htake |- *. cbn [length] in Hidx, Htake |- *.
    replace (length l + 1)%nat with (S (length l)) in * by lia.
    rewrite undo_n_S, undo_at by lia. cbn [fst snd].
    rewrite reverse_app. cbn [reverse rev_append app fmap list_fmap]. f_equal.
    + unfold Js.index. case_decide; [|lia].
      replace (Z.to_nat (historyIndex d)) with (length l) by lia.
      apply (f_equal (λ k, k !! length l)) in Htake.
      rewrite lookup_take_lt in Htake by lia. rewrite Htake.
      by rewrite lookup_app_r, Nat.sub_diag by lia.
    + apply IH; simpl; [lia|].
      apply (f_equal (take (length l))) in Htake.
      rewrite take_take, take_app_length in Htake.
      by rewrite Nat.min_l in Htake by lia.
Qed.

(** C4. After more than five calls of [addToHistory] in a row (on a store
    whose pointer is not below [-1]) the stack holds exactly the five most
    recent items, oldest first, and the pointer is on the topmost slot; six
    calls of [undo()] then return these five items from the most recent to
    the oldest, and nothing on the sixth call. *)
Theorem bounded_history (d : SeatingData) (calls : list Call) :
  -1 ≤ historyIndex d →
  (5 < length calls)%nat →
  let d' := record_all calls d in
  let recent := drop (length calls - 5) (item_of (heap d) <$> calls) in
  length recent = 5%nat ∧
  history d' = recent ∧
  historyIndex d' = Z.of_nat (length (history d')) - 1 ∧
  (undo_n 6 d').1 = (Some <$> reverse recent) ++ [None].
Proof.
  intros Hidx Hmany d' recent.
  assert (length recent = 5%nat) as Hlen.
  { unfold recent. rewrite length_drop, length_fmap. lia. }
  destruct calls as [|[[act dat] now] calls]; [simpl in Hmany; lia|].
  simpl in Hmany.
  destruct (addToHistory_first act dat now d Hidx) as (Hh & Hheap & Htop).
  unfold d', record_all. cbn [foldl fst snd].
  set (d1 := addToHistory act dat now d) in *. fold (record_all calls d1).
  assert (length (history d1) ≤ 5)%nat as Hlen1
    by (rewrite Hh, length_keep5; lia).
  destruct (record_all_top calls d1 Htop Hlen1) as (Hh' & _ & Hidx').
  assert (history (record_all calls d1) = recent) as Hrec.
  { rewrite Hh'. rewrite keep5_app_ge by (rewrite length_fmap; lia).
    unfold keep5, recent. rewrite length_fmap, Hheap. cbn [length fmap list_fmap].
    replace (S (length calls) - 5)%nat with (S (length calls - 5)) by lia.
    done. }
  assert (historyIndex (record_all calls d1) = 4) as Hi.
  { apply Hidx'; [by destruct calls; simpl in *; [lia|]|].
    assert (1 ≤ length (history d1))%nat
      by (rewrite Hh, length_keep5, length_app; simpl; lia).
    lia. }
  rewrite Hrec, Hlen. repeat split; try done.
  replace 6%nat with (S (length recent)) by lia.
  apply undo_n_top; [rewrite Hlen; lia|].
  rewrite Hrec. by rewrite take_ge by lia.
Qed.

(** Seven calls on a new store: the items stamped 3 to 7 remain, and six
    undos return 7, 6, 5, 4, 3 and nothing. *)
Lemma bounded_history_witness :
  -1 ≤ historyIndex new_SeatingData ∧
  (5 < length seven_calls)%nat ∧
  stamps (history (record_all seven_calls new_SeatingData)) = [3; 4; 5; 6; 7] ∧
  historyIndex (record_all seven_calls new_SeatingData) = 4 ∧
  returned_stamps (undo_n 6 (record_all seven_calls new_SeatingData)).1
    = [Some 7; Some 6; Some 5; Some 4; Some 3; None].
Proof.
  assert (-1 ≤ historyIndex new_SeatingData) as H1 by (simpl; lia).
  assert (5 < length seven_calls)%nat as H2 by (simpl; lia).
  destruct (bounded_history new_SeatingData seven_calls H1 H2) as (_ & Hh & Hi & Hu).
  split; [exact H1|]. split; [exact H2|].
  rewrite Hu, Hi, Hh. repeat split.
Defined.

(** ** Coordinates *)

(** C7. For every internal coordinate of the grid, converting to display
    coordinates and back is the identity; the display coordinates are
    1-based and inside the grid. *)
Theorem coord_round_trip (totalRows totalCols r c : Z) :
  0 ≤ r < totalRows →
  0 ≤ c < totalCols →
  let dc := toDisplayCoord r c totalRows in
  toInternalCoord dc.1 dc.2 totalRows = (r, c) ∧
  1 ≤ dc.1 ≤ totalRows ∧ 1 ≤ dc.2 ≤ totalCols.
Proof.
  intros Hr Hc. unfold toDisplayCoord, toInternalCoord. cbn [fst snd].
  split; [f_equal; lia | lia].
Qed.

(** Row 2, column 3 of the default 6 x 8 grid. *)
Lemma coord_round_trip_witness :
  (0 ≤ 2 < 6) ∧ (0 ≤ 3 < 8) ∧
  toInternalCoord (toDisplayCoord 2 3 6).1 (toDisplayCoord 2 3 6).2 6 = (2, 3).
Proof.
  assert (0 ≤ 2 < 6) as Hr by lia.
  assert (0 ≤ 3 < 8) as Hc by lia.
  split; [exact Hr|]. split; [exact Hc|].
  exact (proj1 (coord_round_trip 6 8 2 3 Hr Hc)).
Defined.

(** ** Selection *)

(** With [0-0] and [0-1] selected, an exclusive toggle of [0-0] leaves
    [0-1] selected: the result is neither [0-0] alone nor empty. *)
Lemma toggle_exclusive_counterexample :
  let app := mkSeatingApp new_SeatingData ["0-0"; "0-1"] in
  let sel := selectedSeats (toggleSeatSelection "0-0" true app) in
  sel = ["0-1"] ∧ sel ≠ ["0-0"] ∧ sel ≠ [].
Proof. vm_compute. repeat split; discriminate. Qed.

(** C9 (amended). [toggleSeatSelection(seatId, true)] leaves the data
    untouched; when [seatId] is not selected the selection is emptied first
    and becomes exactly [seatId]; when [seatId] is already selected nothing
    is emptied: [seatId] alone leaves the selection and every other member
    stays selected. *)
Theorem toggle_exclusive (app : SeatingApp) (seatId : string) :
  let app' := toggleSeatSelection seatId true app in
  data app' = data app ∧
  (seatId ∉ selectedSeats app → selectedSeats app' = [seatId]) ∧
  (seatId ∈ selectedSeats app →
     selectedSeats app' = filter (λ y, y ≠ seatId) (selectedSeats app) ∧
     ∀ y, y ∈ selectedSeats app' ↔ y ∈ selectedSeats app ∧ y ≠ seatId).
Proof.
  unfold toggleSeatSelection, clearSelection, Js.set_has, Js.set_add, Js.set_delete.
  destruct (decide (seatId ∈ selectedSeats app)) as [Hin|Hnin].
  - rewrite !(bool_decide_eq_true_2 _ Hin). simpl.
    split; [done|]. split; [done|]. intros _. split; [done|].
    intros y. rewrite list_elem_of_filter. tauto.
  - rewrite !(bool_decide_eq_false_2 _ Hnin). simpl.
    split; [done|]. split; [done|]. intros Hin. by destruct Hnin.
Qed.

(** An exclusive toggle of [0-0] while only [0-1] is selected. *)
Lemma toggle_exclusive_witness :
  let app := mkSeatingApp new_SeatingData ["0-1"] in
  ("0-0" ∉ selectedSeats app) ∧
  selectedSeats (toggleSeatSelection "0-0" true app) = ["0-0"].
Proof.
  intros app.
  assert ("0-0" ∉ selectedSeats app) as Hnin.
  { cbn. intros [Heq|Hin%elem_of_nil]%elem_of_cons; [discriminate Heq|done]. }
  split; [exact Hnin|].
  exact (proj1 (proj2 (toggle_exclusive app "0-0")) Hnin).
Defined.

(** ** Relinking *)

Lemma findStudentByUuid_Some u d q :
  findStudentByUuid u d = Some q →
  q ∈ students d ∧ uuid <$> heap d !! q = Some u.
Proof.
  unfold findStudentByUuid. intros H.
  destruct (list_find _ _) as [[j q']|] eqn:Hf; [|done].
  simpl in H. injection H as ->.
  apply list_find_Some in Hf as (Hj & Hq & _).
  split; [by eapply list_elem_of_lookup_2|done].
Qed.

Lemma findStudentByUuid_None u d :
  findStudentByUuid u d = None →
  ∀ q, q ∈ students d → uuid <$> heap d !! q ≠ Some u.
Proof.
  unfold findStudentByUuid. intros H q Hq.
  destruct (list_find _ _) as [[j q']|] eqn:Hf; [done|].
  rewrite list_find_None, Forall_forall in Hf. by apply Hf.
Qed.

(** The [forEach] visits every seat once: seat by seat, the result is the
    one of [relink_seat]. *)
Lemma relinkStudentReferences_unfold d :
  relinkStudentReferences d =
    (with_seats ((λ s, (relink_seat d s).1) <$> seats d) d,
     seats d ≫= (λ s, (relink_seat d s).2)).
Proof.
  unfold relinkStudentReferences.
  set (step := λ (acc : list Seat * list Warning) seat,
         let '(seat', w) := relink_seat d seat in (acc.1 ++ [seat'], acc.2 ++ w)).
  assert (∀ l acc, foldl step acc l =
            (acc.1 ++ ((λ s, (relink_seat d s).1) <$> l),
             acc.2 ++ (l ≫= (λ s, (relink_seat d s).2)))) as Hfold.
  { induction l as [|s l IH]; intros [a w].
    - simpl. by rewrite !app_nil_r.
    - cbn [foldl]. rewrite IH. subst step. cbn [fmap list_fmap mbind list_bind].
      destruct (relink_seat d s) as [s' w']. cbn [fst snd].
      by rewrite <- !app_assoc. }
  rewrite Hfold. done.
Qed.

(** After the undo of the scenario the roster has no student of uuid
    [ub], and the seat [0-1] is still occupied by the copy of Bob, also
    when the relinking pass runs once more. *)
Lemma relink_orphan_kept :
  let r := Scenario.bob_deleted_then_undo in
  Scenario.roster_uuids r.1 = [Some "ua"; Some "uc"] ∧
  Scenario.occupant_uuids r.1 !! 1%nat = Some ("0-1", Some "ub") ∧
  r.2 = [mkWarning "0-1" "Bob"] ∧
  student <$> seats (relinkStudentReferences (data r.1)).1 !! 1%nat
    = Some (Some 4%nat).
Proof. vm_compute. done. Qed.

(** C8 (amended). Relinking leaves the student objects and the roster as
    they are. A seat whose occupant has a non-empty uuid gets the first
    roster student of that uuid as occupant; when the roster has no student
    of that uuid the seat keeps the occupant it had (the copy) and a
    warning naming the seat and the student is logged. *)
Theorem relink_canonical_or_kept (d : SeatingData) (i : nat) (s : Seat)
    (p : loc) (st : Student) :
  seats d !! i = Some s →
  student s = Some p →
  heap d !! p = Some st →
  uuid st ≠ "" →
  let r := relinkStudentReferences d in
  heap r.1 = heap d ∧ students r.1 = students d ∧
  match findStudentByUuid (uuid st) d with
  | Some q =>
      q ∈ students d ∧ uuid <$> heap d !! q = Some (uuid st) ∧
      seats r.1 !! i = Some (set_student (Some q) s)
  | None =>
      (∀ q, q ∈ students d → uuid <$> heap d !! q ≠ Some (uuid st)) ∧
      seats r.1 !! i = Some s ∧
      mkWarning (id s) (name st) ∈ r.2
  end.
Proof.
  intros Hi Hp Hst Hu r. unfold r. rewrite relinkStudentReferences_unfold.
  cbn [fst snd with_seats heap students seats].
  split; [done|]. split; [done|].
  assert (relink_seat d s =
            match findStudentByUuid (uuid st) d with
            | Some q => (set_student (Some q) s, [])
            | None => (s, [mkWarning (id s) (name st)])
            end) as Hseat.
  { unfold relink_seat. rewrite Hp. simpl. rewrite Hst. by case_decide. }
  rewrite list_lookup_fmap, Hi. simpl.
  destruct (findStudentByUuid (uuid st) d) as [q|] eqn:Hfind.
  - apply findStudentByUuid_Some in Hfind as [? ?]. by rewrite Hseat.
  - split; [by apply findStudentByUuid_None|]. rewrite Hseat. split; [done|].
    apply list_elem_of_bind. exists s. rewrite Hseat.
    split; [apply list_elem_of_here | by eapply list_elem_of_lookup_2].
Qed.

(** The seat [0-1] of the scenario, relinked once more. *)
Lemma relink_canonical_or_kept_witness :
  let d := data Scenario.bob_deleted_then_undo.1 in
  let s := mkSeat "0-1" 0 1 (Some 4%nat) 2 false in
  let st := mkStudent "ub" "Bob" "2" "male" None "" (Some "0-1") in
  (seats d !! 1%nat = Some s ∧ student s = Some 4%nat ∧
   heap d !! 4%nat = Some st ∧ uuid st ≠ "") ∧
  findStudentByUuid "ub" d = None ∧
  seats (relinkStudentReferences d).1 !! 1%nat = Some s ∧
  mkWarning "0-1" "Bob" ∈ (relinkStudentReferences d).2.
Proof.
  set (d := data Scenario.bob_deleted_then_undo.1).
  set (s := mkSeat "0-1" 0 1 (Some 4%nat) 2 false).
  set (st := mkStudent "ub" "Bob" "2" "male" None "" (Some "0-1")).
  assert (seats d !! 1%nat = Some s) as H1 by reflexivity.
  assert (student s = Some 4%nat) as H2 by reflexivity.
  assert (heap d !! 4%nat = Some st) as H3 by reflexivity.
  assert (uuid st ≠ "") as H4 by discriminate.
  assert (findStudentByUuid "ub" d = None) as H5 by reflexivity.
  pose proof (relink_canonical_or_kept d 1 s 4%nat st H1 H2 H3 H4) as (_ & _ & H).
  change (uuid st) with "ub" in H. rewrite H5 in H. destruct H as (_ & Hs & Hw).
  exact (conj (conj H1 (conj H2 (conj H3 H4))) (conj H5 (conj Hs Hw))).
Defined.

(** ** Frame lemmas *)

Lemma addToHistory_frame act data now d :
  let d' := addToHistory act data now d in
  heap d' = heap d ∧ students d' = students d ∧ seats d' = seats d ∧
  rows d' = rows d ∧ cols d' = cols d.
Proof. unfold addToHistory. by case_decide. Qed.

Lemma syncStudentSeatIds_frame d :
  let d' := syncStudentSeatIds d in
  students d' = students d ∧ seats d' = seats d ∧
  rows d' = rows d ∧ cols d' = cols d ∧
  history d' = history d ∧ historyIndex d' = historyIndex d.
Proof. done. Qed.

(** The only element that satisfies a predicate is the one [find] returns. *)
Lemma list_find_unique {A} (P : A → Prop) `{∀ x, Decision (P x)} (l : list A) i x :
  l !! i = Some x → P x →
  (∀ j y, l !! j = Some y → P y → j = i) →
  list_find P l = Some (i, x).
Proof.
  intros Hi HP Huniq. apply list_find_Some. repeat split; [done..|].
  intros j y Hj Hlt HPy. specialize (Huniq j y Hj HPy). lia.
Qed.

Lemma findSeatById_Some seatId d i s :
  findSeatById seatId d = Some (i, s) → seats d !! i = Some s ∧ id s = seatId.
Proof. unfold findSeatById. intros (? & ? & _)%list_find_Some. done. Qed.

(** ** Single-seat assignment *)

(** C5 (counterexample). After the block move of the run for C1, Bob is
    referenced by the seats [0-0] and [1-1]. Assigning Bob to [1-1], a seat
    that is not deleted and holds him already, is not a no-op: [find]
    returns [0-0] as his current seat, so the call goes on and records a
    history item. And a call naming a missing seat or an unknown student
    ends with a plain return: no error is raised. *)
Lemma assign_counterexample :
  let app := Scenario.dropped_at_1_0 in
  let app' := assignStudentToSeat "ub" "1-1" 7 app in
  findStudentByUuid "ub" (data app) = Some 1%nat ∧
  (∃ ti t, findSeatById "1-1" (data app) = Some (ti, t) ∧ isDeleted t = false ∧
           occupant_uuid (heap (data app)) t = Some "ub") ∧
  length (history (data app')) = S (length (history (data app))) ∧
  app' ≠ app ∧
  (findSeatById "9-9" (data app) = None ∧
   assignStudentToSeat_guard "ub" "9-9" app = Some ReturnsUndefined ∧
   assignStudentToSeat_guard "ub" "9-9" app ≠ Some (Throws "InvalidTarget")) ∧
  (findStudentByUuid "zz" (data app) = None ∧
   assignStudentToSeat_guard "zz" "1-1" app = Some ReturnsUndefined ∧
   assignStudentToSeat_guard "zz" "1-1" app ≠ Some (Throws "UnknownStudent")).
Proof.
  intros app app'.
  assert (length (history (data app')) = S (length (history (data app)))) as Hlen
    by (vm_compute; reflexivity).
  split; [vm_compute; reflexivity|]. split.
  { exists 4%nat, (mkSeat "1-1" 1 1 (Some 1%nat) 5 false).
    split; [vm_compute; reflexivity|]. split; vm_compute; reflexivity. }
  split; [exact Hlen|]. split.
  { intros Heq. rewrite Heq in Hlen. exact (n_Sn _ Hlen). }
  split; (split; [vm_compute; reflexivity|]); (split; [vm_compute; reflexivity|]);
    vm_compute; discriminate.
Qed.

(** C5 (amended). No guard of [assignStudentToSeat] raises an error. The
    call ends with a plain return, without touching anything (seats,
    roster, caches, history), when the target seat is missing or deleted
    and when the student is unknown; it does nothing either when the
    student sits in the target seat and in no other seat. Otherwise, for a
    student sitting in one other seat, the target seat receives the student
    and the seat it leaves receives whatever the target held (nothing if
    the target was empty); no other seat changes and the roster is kept. *)
Theorem assign_swaps (app : SeatingApp) (u seatId : string) (now : Z) :
  let d := data app in
  let app' := assignStudentToSeat u seatId now app in
  let ended := assignStudentToSeat_guard u seatId app in
  (∀ e, ended ≠ Some (Throws e)) ∧
  (findSeatById seatId d = None → ended = Some ReturnsUndefined ∧ app' = app) ∧
  (∀ ti t, findSeatById seatId d = Some (ti, t) → isDeleted t = true →
     ended = Some ReturnsUndefined ∧ app' = app) ∧
  (findStudentByUuid u d = None → ended = Some ReturnsUndefined ∧ app' = app) ∧
  (∀ ti t,
     findSeatById seatId d = Some (ti, t) →
     occupant_uuid (heap d) t = Some u →
     (∀ j s, seats d !! j = Some s → occupant_uuid (heap d) s = Some u → j = ti) →
     app' = app) ∧
  (∀ p ti t ci c,
     findStudentByUuid u d = Some p →
     findSeatById seatId d = Some (ti, t) → isDeleted t = false →
     seats d !! ci = Some c → occupant_uuid (heap d) c = Some u →
     (∀ j s, seats d !! j = Some s → occupant_uuid (heap d) s = Some u → j = ci) →
     id c ≠ seatId →
     let ss' := seats (data app') in
     ss' !! ti = Some (set_student (Some p) t) ∧
     ss' !! ci = Some (set_student (student t) c) ∧
     (∀ j, j ≠ ti → j ≠ ci → ss' !! j = seats d !! j) ∧
     students (data app') = students d).
Proof.
  intros d app' ended. subst app' ended.
  unfold assignStudentToSeat, assignStudentToSeat_guard. fold d.
  split; [|split; [|split; [|split; [|split]]]].
  - intros e. destruct (findStudentByUuid u d); [|done].
    destruct (findSeatById seatId d) as [[ti t]|]; [|done].
    destruct (isDeleted t); [done|]. cbv zeta. by case_bool_decide.
  - intros ->. by destruct (findStudentByUuid u d).
  - intros ti t -> ->. by destruct (findStudentByUuid u d).
  - by intros ->.
  - intros ti t Hfind Hocc Huniq.
    destruct (findSeatById_Some _ _ _ _ Hfind) as [Hti Hid].
    rewrite Hfind. destruct (findStudentByUuid u d); [|done].
    destruct (isDeleted t); [done|].
    rewrite (list_find_unique _ _ ti t Hti Hocc Huniq). simpl.
    by rewrite Hid, bool_decide_eq_true_2.
  - intros p ti t ci c Hstud Hfind Hlive Hci Hocc Huniq Hother.
    destruct (findSeatById_Some _ _ _ _ Hfind) as [Hti Hid].
    assert (ti ≠ ci) as Hne by (intros ->; congruence).
    rewrite Hstud, Hfind, Hlive.
    rewrite (list_find_unique _ _ ci c Hci Hocc Huniq). simpl.
    rewrite bool_decide_eq_false_2 by congruence.
    destruct (addToHistory_frame "seatArrangement" (seats d) now d)
      as (_ & Hroster & Hseats & _).
    cbn [data with_data syncStudentSeatIds with_heap with_seats seats students].
    rewrite Hseats, Hroster. unfold write_student.
    split; [|split; [|split]]; [| | |done].
    + rewrite list_lookup_alter_ne by done.
      by rewrite list_lookup_alter_eq, Hti.
    + rewrite list_lookup_alter_eq, list_lookup_alter_ne by done.
      by rewrite Hci.
    + intros j Hj1 Hj2. by rewrite !list_lookup_alter_ne by done.
Qed.

(** Ann (seat [0-0]) is assigned to the seat [0-1] that Bob occupies. *)
Lemma assign_swaps_witness :
  let app := Scenario.seated in
  let app' := assignStudentToSeat "ua" "0-1" 5 app in
  findStudentByUuid "ua" (data app) = Some 0%nat ∧
  (student <$> seats (data app) !! 0%nat = Some (Some 0%nat) ∧
   student <$> seats (data app) !! 1%nat = Some (Some 1%nat)) ∧
  (student <$> seats (data app') !! 1%nat = Some (Some 0%nat) ∧
   student <$> seats (data app') !! 0%nat = Some (Some 1%nat)).
Proof.
  intros app app'.
  set (t := mkSeat "0-1" 0 1 (Some 1%nat) 2 false).
  set (c := mkSeat "0-0" 0 0 (Some 0%nat) 1 false).
  assert (findStudentByUuid "ua" (data app) = Some 0%nat) as Hp
    by (vm_compute; reflexivity).
  assert (findSeatById "0-1" (data app) = Some (1%nat, t)) as Ht
    by (vm_compute; reflexivity).
  assert (seats (data app) !! 0%nat = Some c) as Hc by (vm_compute; reflexivity).
  assert (∀ j s, seats (data app) !! j = Some s →
                 occupant_uuid (heap (data app)) s = Some "ua" → j = 0%nat) as Huniq.
  { intros j s. unfold occupant_uuid.
    replace (seats (data app)) with
      [c; t; mkSeat "0-2" 0 2 None 3 false; mkSeat "1-0" 1 0 (Some 2%nat) 4 false;
       mkSeat "1-1" 1 1 None 5 false; mkSeat "1-2" 1 2 None 6 false]
      by (vm_compute; reflexivity).
    replace (heap (data app)) with
      [mkStudent "ua" "Ann" "1" "female" None "" (Some "0-0");
       mkStudent "ub" "Bob" "2" "male" None "" (Some "0-1");
       mkStudent "uc" "Cid" "3" "male" None "" (Some "1-0")]
      by (vm_compute; reflexivity).
    do 6 (destruct j as [|j]; [intros [= <-]; simpl; congruence|]).
    intros [=]. }
  destruct (assign_swaps app "ua" "0-1" 5) as (_ & _ & _ & _ & _ & Hswap).
  destruct (Hswap 0%nat 1%nat t 0%nat c Hp Ht eq_refl Hc eq_refl Huniq ltac:(discriminate))
    as (H1 & H0 & _).
  fold app' in H1, H0.
  split; [exact Hp|].
  rewrite Hc, (proj1 (findSeatById_Some _ _ _ _ Ht)), H1, H0.
  split; split; reflexivity.
Defined.

(** ** Block move: rejection *)

(** The loop gives up as soon as one selected seat translates to an invalid
    coordinate, whatever it has collected so far. *)
Lemma checkLoop_rejects d ro co sel sid si src :
  findSeatById sid d = Some (si, src) →
  lands_outside_or_deleted d (row src + ro) (col src + co) →
  ∀ todo pos displaced,
    sid ∈ todo → checkLoop d ro co sel todo pos displaced = None.
Proof.
  intros Hsrc Hbad. induction todo as [|x todo IH]; intros pos displaced Hin.
  - by apply elem_of_nil in Hin.
  - cbn [checkLoop].
    destruct (decide (x = sid)) as [->|Hne].
    + rewrite Hsrc. case_decide as Hout; [done|].
      destruct Hbad as [Hbad|(t & Ht & Hdel)]; [done|].
      unfold seat_at in Ht.
      destruct (list_find _ (seats d)) as [[j t']|]; [|done].
      simpl in Ht. injection Ht as ->. by rewrite Hdel.
    + apply elem_of_cons in Hin as [->|Hin]; [done|].
      destruct (findSeatById x d) as [[j s]|]; [|by apply IH].
      case_decide; [done|].
      destruct (list_find _ (seats d)) as [[k t']|]; [|done].
      destruct (isDeleted t'); [done|]. by apply IH.
Qed.

(** A rejected plan stops [executeMultiDropWithAllSeats] before its first
    write. *)
Lemma executeMultiDrop_rejected targetId sourceSeats dragged anchor now app :
  checkMultiDropTarget targetId (ss_seatId <$> sourceSeats) (data app) = None →
  executeMultiDropWithAllSeats targetId (MultipleSeats sourceSeats dragged anchor) now app
    = app.
Proof. intros H. unfold executeMultiDropWithAllSeats. by rewrite H. Qed.

(** C2. When the translation of a selected seat (by the offset from the
    first selected seat to the drop target) falls outside the grid or on a
    deleted seat, the plan is rejected and the block move changes nothing:
    seats, student objects, roster, selection and history are the ones
    before the call. *)
Theorem rejected_block_move_is_atomic (app : SeatingApp) (targetId : string)
    (sourceSeats : list SourceSeat) (dragged : list (string * loc))
    (anchor : option string) (now : Z)
    (ti fi si : nat) (t f src : Seat) (fid sid : string) :
  let d := data app in
  let seatIds := ss_seatId <$> sourceSeats in
  findSeatById targetId d = Some (ti, t) →
  head seatIds = Some fid →
  findSeatById fid d = Some (fi, f) →
  sid ∈ seatIds →
  findSeatById sid d = Some (si, src) →
  lands_outside_or_deleted d (row src + (row t - row f)) (col src + (col t - col f)) →
  checkMultiDropTarget targetId seatIds d = None ∧
  executeMultiDropWithAllSeats targetId (MultipleSeats sourceSeats dragged anchor) now app
    = app.
Proof.
  intros d seatIds Ht Hhead Hf Hin Hsrc Hbad.
  assert (checkMultiDropTarget targetId seatIds d = None) as Hnone.
  { unfold checkMultiDropTarget. rewrite Ht, Hhead. simpl. rewrite Hf.
    destruct (isDeleted t); [done|].
    by eapply checkLoop_rejects. }
  split; [done|]. by apply executeMultiDrop_rejected.
Qed.

(** The block [0-0], [0-1] dropped on [1-2]: the seat [0-1] would land in
    column 3 of a grid of 3 columns. *)
Lemma rejected_block_move_witness :
  let app := Scenario.two_selected in
  findSeatById "1-2" (data app) = Some (5%nat, mkSeat "1-2" 1 2 None 6 false) ∧
  lands_outside_or_deleted (data app) (0 + (1 - 0)) (1 + (2 - 0)) ∧
  executeMultiDropWithAllSeats "1-2" Scenario.grabbed_at_0_1 9 app = app.
Proof.
  intros app.
  set (t := mkSeat "1-2" 1 2 None 6 false).
  set (f := mkSeat "0-0" 0 0 (Some 0%nat) 1 false).
  set (src := mkSeat "0-1" 0 1 (Some 1%nat) 2 false).
  assert (findSeatById "1-2" (data app) = Some (5%nat, t)) as Ht
    by (vm_compute; reflexivity).
  assert (findSeatById "0-0" (data app) = Some (0%nat, f)) as Hf
    by (vm_compute; reflexivity).
  assert (findSeatById "0-1" (data app) = Some (1%nat, src)) as Hsrc
    by (vm_compute; reflexivity).
  assert (lands_outside_or_deleted (data app) (0 + (1 - 0)) (1 + (2 - 0))) as Hbad.
  { left. replace (cols (data app)) with 3 by (vm_compute; reflexivity). lia. }
  assert (Scenario.grabbed_at_0_1 =
            MultipleSeats [mkSourceSeat "0-0" 0 0 (Some 0%nat);
                           mkSourceSeat "0-1" 0 1 (Some 1%nat)]
                          [("0-0", 0%nat); ("0-1", 1%nat)] (Some "0-1")) as ->
    by (vm_compute; reflexivity).
  split; [exact Ht|]. split; [exact Hbad|].
  refine (proj2 (rejected_block_move_is_atomic app "1-2"
                   [mkSourceSeat "0-0" 0 0 (Some 0%nat);
                    mkSourceSeat "0-1" 0 1 (Some 1%nat)] _ _ 9
                   5 0 1 t f src "0-0" "0-1" Ht eq_refl Hf _ Hsrc Hbad)).
  cbn. apply list_elem_of_further, list_elem_of_here.
Defined.

(** ** Block move: the offset of an accepted plan *)

Lemma checkLoop_translates d ro co sel : ∀ todo pos displaced res,
  checkLoop d ro co sel todo pos displaced = Some res →
  ∃ new, positions res = pos ++ new ∧
         Forall (translated_by d ro co) new ∧
         originalSeatId <$> new = filter (λ sid, is_Some (findSeatById sid d)) todo.
Proof.
  induction todo as [|sid todo IH]; intros pos displaced res; cbn [checkLoop].
  - intros [= <-]. exists []. by rewrite app_nil_r.
  - destruct (findSeatById sid d) as [[i src]|] eqn:Hsrc.
    + case_decide as Hout; [done|].
      destruct (list_find _ (seats d)) as [[j t]|] eqn:Ht; [|done].
      destruct (isDeleted t) eqn:Hdel; [done|].
      intros (new & Hpos & Hall & Hids)%IH.
      exists (mkPosition sid (id t) (student src) :: new).
      split; [by rewrite Hpos, <- app_assoc|]. split.
      * constructor; [|done]. exists i, src, t. cbn.
        unfold seat_at. rewrite Ht. repeat split; try done; lia.
      * rewrite filter_cons_True by (by rewrite Hsrc). by rewrite fmap_cons, Hids.
    + intros (new & Hpos & Hall & Hids)%IH. exists new.
      rewrite filter_cons_False; [done|]. rewrite Hsrc. by intros [? ?].
Qed.

(** The reference point of an accepted plan: every position is the
    translation of a selected seat by the offset from the first selected
    seat to the drop target, onto a seat of the grid that is not deleted,
    and the plan has one position for every selected seat that exists, in
    selection order. *)
Theorem plan_offset_from_first_selected (d : SeatingData) (targetId : string)
    (selectedSeatIds : list string) (res : DropResult) :
  checkMultiDropTarget targetId selectedSeatIds d = Some res →
  ∃ fid i f j t,
    head selectedSeatIds = Some fid ∧
    findSeatById fid d = Some (i, f) ∧
    findSeatById targetId d = Some (j, t) ∧ isDeleted t = false ∧
    Forall (translated_by d (row t - row f) (col t - col f)) (positions res) ∧
    originalSeatId <$> positions res
      = filter (λ sid, is_Some (findSeatById sid d)) selectedSeatIds.
Proof.
  unfold checkMultiDropTarget.
  destruct (findSeatById targetId d) as [[j t]|]; [|done].
  destruct (isDeleted t) eqn:Hdel; [done|].
  destruct (head selectedSeatIds) as [fid|]; [|done]. cbn [mbind option_bind].
  destruct (findSeatById fid d) as [[i f]|] eqn:Hf; [|done].
  intros (new & Hpos & Hall & Hids)%checkLoop_translates.
  exists fid, i, f, j, t. rewrite Hpos. by repeat split.
Qed.

Lemma plan_offset_witness :
  let d := data Scenario.two_selected in
  checkMultiDropTarget "1-1" ["0-0"; "0-1"] d =
    Some (mkDropResult [mkPosition "0-0" "1-1" (Some 0%nat);
                        mkPosition "0-1" "1-2" (Some 1%nat)] []) ∧
  Forall (translated_by d (1 - 0) (1 - 0))
    [mkPosition "0-0" "1-1" (Some 0%nat); mkPosition "0-1" "1-2" (Some 1%nat)].
Proof.
  intros d.
  assert (checkMultiDropTarget "1-1" ["0-0"; "0-1"] d =
            Some (mkDropResult [mkPosition "0-0" "1-1" (Some 0%nat);
                                mkPosition "0-1" "1-2" (Some 1%nat)] [])) as Hplan
    by (vm_compute; reflexivity).
  split; [exact Hplan|].
  destruct (plan_offset_from_first_selected d "1-1" ["0-0"; "0-1"] _ Hplan)
    as (fid & i & f & j & t & Hhead & Hf & Ht & _ & Hall & _).
  injection Hhead as <-.
  assert (findSeatById "0-0" d = Some (0%nat, mkSeat "0-0" 0 0 (Some 0%nat) 1 false))
    as Hf' by (vm_compute; reflexivity).
  assert (findSeatById "1-1" d = Some (4%nat, mkSeat "1-1" 1 1 None 5 false))
    as Ht' by (vm_compute; reflexivity).
  rewrite Hf' in Hf. rewrite Ht' in Ht.
  injection Hf as <- <-. injection Ht as <- <-. exact Hall.
Defined.

(** ** Block move: pairing of displaced students and net-vacated seats *)

Section sort.
Context {A : Type} (cmp : A → A → Z).

Lemma insert_sorted_Permutation x l : Js.insert_sorted cmp x l ≡ₚ x :: l.
Proof.
  induction l as [|y l IH]; simpl; [done|].
  case_decide; [done|]. rewrite IH. apply Permutation_swap.
Qed.

Lemma sort_Permutation l : Js.sort cmp l ≡ₚ l.
Proof.
  unfold Js.sort. induction l as [|x l IH]; simpl; [done|].
  by rewrite insert_sorted_Permutation, IH.
Qed.

End sort.

Section sorted.
Context {A : Type} (cmp : A → A → Z).
Hypothesis cmp_total : ∀ a b, cmp a b ≤ 0 ∨ cmp b a ≤ 0.
Hypothesis cmp_trans : ∀ a b c, cmp a b ≤ 0 → cmp b c ≤ 0 → cmp a c ≤ 0.

Lemma insert_sorted_StronglySorted x l :
  StronglySorted (λ a b, cmp a b ≤ 0) l →
  StronglySorted (λ a b, cmp a b ≤ 0) (Js.insert_sorted cmp x l).
Proof.
  induction l as [|y l IH]; intros Hl; simpl.
  - by repeat constructor.
  - apply StronglySorted_cons in Hl as [Hy Hl]. case_decide as Hxy.
    + apply StronglySorted_cons. split; [|by apply StronglySorted_cons].
      constructor; [done|]. eapply Forall_impl; [exact Hy|]. intros z Hz.
      by eapply cmp_trans.
    + apply StronglySorted_cons. split; [|by apply IH].
      rewrite insert_sorted_Permutation. constructor; [|done].
      destruct (cmp_total x y); [done|done].
Qed.

Lemma sort_StronglySorted l : StronglySorted (λ a b, cmp a b ≤ 0) (Js.sort cmp l).
Proof.
  unfold Js.sort. induction l as [|x l IH]; simpl; [constructor|].
  by apply insert_sorted_StronglySorted.
Qed.

End sorted.

Lemma byPosition_le a b : byPosition a b ≤ 0 ↔ row_major a b.
Proof. unfold byPosition, Js.num_or, row_major. case_decide; lia. Qed.

Lemma row_major_total a b : row_major a b ∨ row_major b a.
Proof. unfold row_major. lia. Qed.

Lemma row_major_trans a b c : row_major a b → row_major b c → row_major a c.
Proof. unfold row_major. lia. Qed.

(** A sorted list stays sorted under a map that respects the order on the
    elements of the list. *)
Lemma StronglySorted_transfer {A B} (R : relation A) (R' : relation B)
    (f : A → B) (l : list A) :
  (∀ x y, x ∈ l → y ∈ l → R x y → R' (f x) (f y)) →
  StronglySorted R l → StronglySorted R' (f <$> l).
Proof.
  induction l as [|x l IH]; intros Hf Hl; [constructor|].
  apply StronglySorted_cons in Hl as [Hx Hl]. rewrite fmap_cons.
  apply StronglySorted_cons. split.
  - apply Forall_fmap, Forall_forall. intros y Hy. cbn.
    apply Hf; [apply list_elem_of_here|by apply list_elem_of_further|].
    by eapply Forall_forall in Hx.
  - apply IH; [|done]. intros y z Hy Hz. apply Hf; by apply list_elem_of_further.
Qed.

Lemma write_student_coords i v ss j :
  row (write_student i v ss !!! j) = row (ss !!! j) ∧
  col (write_student i v ss !!! j) = col (ss !!! j).
Proof.
  unfold write_student. rewrite !list_lookup_total_alt, list_lookup_alter.
  case_decide; [subst|done]. by destruct (ss !! j).
Qed.

Lemma collect_step_coords seatIds st pos j :
  row ((collect_step seatIds st pos).1.1 !!! j) = row (st.1.1 !!! j) ∧
  col ((collect_step seatIds st pos).1.1 !!! j) = col (st.1.1 !!! j).
Proof.
  destruct st as [[ss toMove] displaced]. unfold collect_step.
  destruct (list_find _ ss) as [[si src]|]; [destruct (student src)|];
    cbn [fst snd]; repeat case_match; cbn [fst snd];
    by rewrite ?(proj1 (write_student_coords _ _ _ _)),
               ?(proj2 (write_student_coords _ _ _ _)).
Qed.

Lemma collect_coords seatIds l j : ∀ st,
  row ((foldl (collect_step seatIds) st l).1.1 !!! j) = row (st.1.1 !!! j) ∧
  col ((foldl (collect_step seatIds) st l).1.1 !!! j) = col (st.1.1 !!! j).
Proof.
  induction l as [|pos l IH]; intros st; [done|].
  cbn [foldl]. destruct (IH (collect_step seatIds st pos)) as [-> ->].
  apply collect_step_coords.
Qed.

Lemma write_student_length i v ss : length (write_student i v ss) = length ss.
Proof. apply length_alter. Qed.

Lemma list_find_lt {A} (P : A → Prop) `{∀ x, Decision (P x)} (l : list A) i x :
  list_find P l = Some (i, x) → (i < length l)%nat.
Proof. intros (Hi & _)%list_find_Some. by eapply lookup_lt_Some. Qed.

(** Seats found under different ids are different seat objects. *)
Lemma found_seats_NoDup d (l : list SourceSeat) :
  NoDup (ss_seatId <$> l) →
  NoDup (fst <$> omap (λ s, findSeatById (ss_seatId s) d) l).
Proof.
  induction l as [|s l IH]; intros Hnd; [constructor|].
  rewrite fmap_cons in Hnd. apply NoDup_cons in Hnd as [Hfresh Hnd].
  cbn [omap list_omap].
  destruct (findSeatById (ss_seatId s) d) as [[i seat]|] eqn:Hfind; [|by apply IH].
  cbn. apply NoDup_cons. split; [|by apply IH].
  intros ([j seat'] & Hj & Hin)%list_elem_of_fmap. simpl in Hj. subst j.
  apply list_elem_of_omap in Hin as (s' & Hs' & Hfind').
  apply findSeatById_Some in Hfind as [Hi Hid], Hfind' as [Hi' Hid'].
  apply Hfresh. apply list_elem_of_fmap. exists s'. split; [|done]. congruence.
Qed.

Lemma availableSourceSeats_NoDup sourceSeats targetIds d :
  NoDup (ss_seatId <$> sourceSeats) →
  NoDup (availableSourceSeats sourceSeats targetIds d).
Proof.
  intros Hnd. unfold availableSourceSeats.
  rewrite sort_Permutation.
  eapply sublist_NoDup; [|apply fmap_sublist, sublist_filter].
  apply found_seats_NoDup.
  eapply sublist_NoDup; [done|apply fmap_sublist, sublist_filter].
Qed.

Lemma availableSourceSeats_lt sourceSeats targetIds d seat :
  seat ∈ availableSourceSeats sourceSeats targetIds d →
  (seat < length (seats d))%nat.
Proof.
  unfold availableSourceSeats. rewrite sort_Permutation.
  intros ([i s] & -> & Hin)%list_elem_of_fmap.
  apply list_elem_of_filter in Hin as [_ Hin].
  apply list_elem_of_omap in Hin as (src & _ & Hfind).
  by apply list_find_lt in Hfind.
Qed.

Lemma availableSourceSeats_ext sourceSeats targetIds d1 d2 :
  seats d1 = seats d2 →
  availableSourceSeats sourceSeats targetIds d1
    = availableSourceSeats sourceSeats targetIds d2.
Proof. intros H. unfold availableSourceSeats, findSeatById. by rewrite H. Qed.

Lemma collect_step_length seatIds st pos :
  length (collect_step seatIds st pos).1.1 = length st.1.1.
Proof.
  destruct st as [[ss toMove] displaced]. unfold collect_step.
  destruct (list_find _ ss) as [[si src]|]; [destruct (student src)|];
    cbn [fst snd]; repeat case_match; cbn [fst snd];
    by rewrite ?write_student_length.
Qed.

Lemma collect_length seatIds l : ∀ st,
  length (foldl (collect_step seatIds) st l).1.1 = length st.1.1.
Proof.
  induction l as [|pos l IH]; intros st; [done|].
  cbn [foldl]. by rewrite IH, collect_step_length.
Qed.

Lemma place_length l : ∀ ss, length (foldl place_step ss l) = length ss.
Proof.
  induction l as [|item l IH]; intros ss; [done|].
  cbn [foldl]. rewrite IH. unfold place_step.
  destruct (list_find _ ss) as [[ti t]|]; by rewrite ?write_student_length.
Qed.

(** The two lists are in ascending row-major order of the seats involved:
    the net-vacated seats themselves, and the seats the displaced students
    are bumped off. *)
Lemma pairing_lists_sorted targetId sourceSeats d D V :
  pairing_lists targetId sourceSeats d = Some (D, V) →
  StronglySorted (λ i j, row_major (seats d !!! i) (seats d !!! j)) V ∧
  StronglySorted (λ a b, row_major (seats d !!! d_currentSeat a)
                                   (seats d !!! d_currentSeat b)) D.
Proof.
  unfold pairing_lists.
  destruct (checkMultiDropTarget _ _ d) as [dropResult|]; [|done].
  cbn [mbind option_bind].
  pose proof (λ j, collect_coords (ss_seatId <$> sourceSeats) (positions dropResult) j
                     (seats d, [], [])) as Hcoords.
  destruct (foldl _ _ (positions dropResult)) as [[ss2 toMove] displaced].
  cbn [fst snd] in Hcoords. intros [= <- <-]. split.
  - unfold availableSourceSeats.
    set (live := filter _ (omap _ _)).
    eapply (StronglySorted_transfer (λ x y, byPosition x.2 y.2 ≤ 0)); [|
      apply sort_StronglySorted;
        [intros a b; rewrite !byPosition_le; apply row_major_total
        |intros a b c; rewrite !byPosition_le; apply row_major_trans]].
    assert (∀ x, x ∈ Js.sort (λ a b, byPosition a.2 b.2) live →
                 seats d !!! x.1 = x.2) as Hlook.
    { intros [i s]. rewrite sort_Permutation. unfold live.
      intros [_ (src & _ & Hfind)%list_elem_of_omap]%list_elem_of_filter.
      apply findSeatById_Some in Hfind as [Hi _].
      cbn. by rewrite list_lookup_total_alt, Hi. }
    intros x y Hx Hy. rewrite byPosition_le, (Hlook x Hx), (Hlook y Hy). done.
  - rewrite <- (list_fmap_id (Js.sort _ displaced)).
    eapply StronglySorted_transfer; [|
      apply sort_StronglySorted;
        [intros a b; rewrite !byPosition_le; apply row_major_total
        |intros a b c; rewrite !byPosition_le; apply row_major_trans]].
    intros x y _ _. rewrite byPosition_le. unfold row_major.
    destruct (Hcoords (d_currentSeat x)) as [-> ->].
    destruct (Hcoords (d_currentSeat y)) as [-> ->]. done.
Qed.

(** Step 5 on its own: with distinct net-vacated seats, the displaced
    student of rank [i] is the occupant of the net-vacated seat of rank
    [i] once all displaced students are handled. *)
Lemma backfill_paired V :
  NoDup V → ∀ D ss h,
  (∀ seat, seat ∈ V → (seat < length ss)%nat) →
  let r := foldl (backfill_step V) (ss, h) (imap pair D) in
  length r.1 = length ss ∧
  ∀ i item seat, D !! i = Some item → V !! i = Some seat →
     student <$> r.1 !! seat = Some (Some (d_student item)).
Proof.
  intros Hnd D. induction D as [|x D IH] using rev_ind; intros ss h Hlt.
  - split; [done|]. intros i item seat Hi. by rewrite lookup_nil in Hi.
  - rewrite imap_app, foldl_app. cbn [imap foldl].
    destruct (IH ss h Hlt) as [Hlen Hpaired].
    set (r' := foldl (backfill_step V) (ss, h) (imap pair D)) in *.
    rewrite Nat.add_0_r.
    change (backfill_step V r' (length D, x)) with
      (match V !! length D with
       | Some seat => (write_student seat (Some (d_student x)) r'.1, r'.2)
       | None => (r'.1, alter (set_seatId None) (d_student x) r'.2)
       end).
    destruct (V !! length D) as [seat'|] eqn:Hseat'; cbn [fst snd].
    + split; [by rewrite write_student_length|].
      intros i item seat Hi Hseat.
      destruct (decide (i = length D)) as [->|Hne].
      * rewrite lookup_app_r, Nat.sub_diag in Hi by lia. injection Hi as <-.
        rewrite Hseat' in Hseat. injection Hseat as <-.
        unfold write_student. rewrite list_lookup_alter_eq.
        assert (seat' < length r'.1)%nat as Hvalid.
        { rewrite Hlen. apply Hlt. by eapply list_elem_of_lookup_2. }
        apply lookup_lt_is_Some in Hvalid as [s Hs]. by rewrite Hs.
      * assert (i < length D)%nat as Hi'.
        { apply lookup_lt_Some in Hi. rewrite length_app in Hi. simpl in Hi. lia. }
        rewrite lookup_app_l in Hi by done.
        unfold write_student. rewrite list_lookup_alter_ne; [by eapply Hpaired|].
        intros ->. apply Hne. by eapply (NoDup_lookup V).
    + split; [done|]. intros i item seat Hi Hseat.
      assert (i < length D)%nat as Hi'.
      { destruct (decide (i < length D)%nat); [done|].
        apply lookup_lt_Some in Hi. rewrite length_app in Hi. simpl in Hi.
        assert (i = length D) as -> by lia. congruence. }
      rewrite lookup_app_l in Hi by done. by eapply Hpaired.
Qed.

(** Pairing on every accepted block move whose payload names each source
    seat once: the displaced students are listed in ascending row-major
    order of the seats they leave and the net-vacated seats in ascending
    row-major order; the displaced student of rank [i] is afterwards the
    occupant of the net-vacated seat of rank [i], and the roster is the one
    before the move. *)
Theorem displaced_paired_with_vacated (app : SeatingApp) (targetId : string)
    (sourceSeats : list SourceSeat) (dragged : list (string * loc))
    (anchor : option string) (now : Z) (D : list Displaced) (V : list nat) :
  NoDup (ss_seatId <$> sourceSeats) →
  pairing_lists targetId sourceSeats (data app) = Some (D, V) →
  let app' := executeMultiDropWithAllSeats targetId
                (MultipleSeats sourceSeats dragged anchor) now app in
  (StronglySorted (λ a b, row_major (seats (data app) !!! d_currentSeat a)
                                    (seats (data app) !!! d_currentSeat b)) D ∧
   StronglySorted (λ i j, row_major (seats (data app) !!! i)
                                    (seats (data app) !!! j)) V) ∧
  students (data app') = students (data app) ∧
  ∀ i item seat, D !! i = Some item → V !! i = Some seat →
    student <$> seats (data app') !! seat = Some (Some (d_student item)).
Proof.
  intros Hnd Hlists.
  split; [by destruct (pairing_lists_sorted _ _ _ _ _ Hlists)|].
  unfold pairing_lists in Hlists.
  unfold executeMultiDropWithAllSeats.
  destruct (checkMultiDropTarget targetId (ss_seatId <$> sourceSeats) (data app))
    as [dropResult|]; [|done].
  cbn [mbind option_bind] in Hlists.
  destruct (addToHistory_frame "seatArrangement" (seats (data app)) now (data app))
    as (Hheap & Hroster & Hseats & _).
  set (d1 := addToHistory "seatArrangement" (seats (data app)) now (data app)) in *.
  rewrite Hseats, (availableSourceSeats_ext _ _ d1 (data app) Hseats).
  pose proof (collect_length (ss_seatId <$> sourceSeats) (positions dropResult)
                (seats (data app), [], [])) as Hlen2.
  destruct (foldl (collect_step (ss_seatId <$> sourceSeats)) (seats (data app), [], [])
              (positions dropResult)) as [[ss2 toMove] displaced].
  cbn [fst snd] in Hlen2. injection Hlists as <- <-.
  set (V := availableSourceSeats sourceSeats (targetSeatId <$> positions dropResult)
              (data app)).
  set (D := Js.sort _ displaced).
  destruct (backfill_paired V (availableSourceSeats_NoDup _ _ _ Hnd) D
              (foldl place_step ss2 toMove) (heap d1)) as [_ Hpaired].
  { intros seat Hin. rewrite place_length, Hlen2.
    by eapply availableSourceSeats_lt. }
  destruct (foldl (backfill_step V) (foldl place_step ss2 toMove, heap d1) (imap pair D))
    as [ss5 h5].
  split; [done|]. exact Hpaired.
Qed.

(** After the drop that follows the deletion of the selected seat [0-1],
    Cid, first displaced, is in the seat of index 0 ([0-0]), the first
    net-vacated seat. *)
Lemma displaced_paired_witness :
  let before := Scenario.selected_seat_deleted in
  let drag := prepareMultiSeatDrag "0-0" before in
  NoDup (ss_seatId <$> sourceSeats_of drag) ∧
  pairing_lists "1-0" (sourceSeats_of drag) (data before) =
    Some ([mkDisplaced 2%nat 3%nat; mkDisplaced 1%nat 4%nat], [0%nat]) ∧
  student <$> seats (data Scenario.dropped_after_delete) !! 0%nat = Some (Some 2%nat).
Proof.
  intros before drag.
  assert (drag = MultipleSeats [mkSourceSeat "0-0" 0 0 (Some 0%nat);
                                mkSourceSeat "0-1" 0 1 None]
                               [("0-0", 0%nat)] (Some "0-0")) as Hdrag
    by (vm_compute; reflexivity).
  assert (NoDup (ss_seatId <$> sourceSeats_of drag)) as Hnd
    by (apply (bool_decide_unpack _); vm_compute; exact I).
  assert (pairing_lists "1-0" (sourceSeats_of drag) (data before) =
            Some ([mkDisplaced 2%nat 3%nat; mkDisplaced 1%nat 4%nat], [0%nat])) as Hlists
    by (vm_compute; reflexivity).
  split; [exact Hnd|]. split; [exact Hlists|].
  unfold Scenario.dropped_after_delete. fold before. fold drag.
  rewrite Hdrag in Hnd, Hlists |- *. cbn [sourceSeats_of] in Hnd, Hlists.
  exact (proj2 (proj2 (displaced_paired_with_vacated before "1-0" _ _ _ 6 _ _ Hnd Hlists))
           0%nat (mkDisplaced 2%nat 3%nat) 0%nat eq_refl eq_refl).
Defined.

(** ** Block move: scenarios *)

(** Brute-force case analysis on a lookup in an explicit list. *)
Ltac explicit_lookup H i :=
  repeat (destruct i as [|i]; [simpl in H; injection H as <- |]);
  try (simpl in H; discriminate H).

Lemma injective_before_drop :
  injective_occupancy (data Scenario.ann_and_empty_selected).
Proof.
  unfold injective_occupancy.
  replace (seats (data Scenario.ann_and_empty_selected)) with
    [mkSeat "0-0" 0 0 (Some 0%nat) 1 false; mkSeat "0-1" 0 1 None 2 false;
     mkSeat "0-2" 0 2 None 3 false; mkSeat "1-0" 1 0 None 4 false;
     mkSeat "1-1" 1 1 (Some 1%nat) 5 false; mkSeat "1-2" 1 2 None 6 false]
    by (vm_compute; reflexivity).
  replace (heap (data Scenario.ann_and_empty_selected)) with
    [mkStudent "ua" "Ann" "1" "female" None "" (Some "0-0");
     mkStudent "ub" "Bob" "2" "male" None "" (Some "1-1");
     mkStudent "uc" "Cid" "3" "male" None "" None]
    by (vm_compute; reflexivity).
  intros i j si sj u Hi Hj _ _ Hoi Hoj.
  explicit_lookup Hi i; explicit_lookup Hj j;
    first [reflexivity | cbv in Hoi, Hoj; congruence].
Qed.

(** C1 (failing run). From the new application, through a layout change,
    three added students, two assignments, two toggles of the selection
    and one block move: before the block move no student is referenced by
    two seats; after it the seats [0-0] and [1-1], both not deleted,
    reference Bob. *)
Theorem block_move_duplicates_student :
  injective_occupancy (data Scenario.ann_and_empty_selected) ∧
  Scenario.occupant_uuids Scenario.ann_and_empty_selected =
    [("0-0", Some "ua"); ("0-1", None); ("0-2", None);
     ("1-0", None); ("1-1", Some "ub"); ("1-2", None)] ∧
  selectedSeats Scenario.ann_and_empty_selected = ["0-0"; "0-1"] ∧
  Scenario.occupant_uuids Scenario.dropped_at_1_0 =
    [("0-0", Some "ub"); ("0-1", None); ("0-2", None);
     ("1-0", Some "ua"); ("1-1", Some "ub"); ("1-2", None)] ∧
  Scenario.occupancy Scenario.dropped_at_1_0 =
    [("0-0", Some 1%nat, false); ("0-1", None, false); ("0-2", None, false);
     ("1-0", Some 0%nat, false); ("1-1", Some 1%nat, false); ("1-2", None, false)] ∧
  ¬ injective_occupancy (data Scenario.dropped_at_1_0).
Proof.
  split; [exact injective_before_drop|].
  split; [vm_compute; reflexivity|].
  split; [vm_compute; reflexivity|].
  split; [vm_compute; reflexivity|].
  split; [vm_compute; reflexivity|].
  intros Hinj.
  specialize (Hinj 0%nat 4%nat
                (mkSeat "0-0" 0 0 (Some 1%nat) 1 false)
                (mkSeat "1-1" 1 1 (Some 1%nat) 5 false) "ub").
  assert (0%nat = 4%nat) as Habs; [|discriminate Habs].
  apply Hinj; vm_compute; reflexivity.
Qed.

(** C3 (failing run). Cid and Bob are bumped off the targets [1-0] and
    [1-1]; the only net-vacated seat is [0-0] because the selected seat
    [0-1] is deleted. Cid, first of the displaced students, lands in
    [0-0]; Bob, for whom no net-vacated seat remains, is still referenced
    by the seat [1-1] and his cache still names it. *)
Theorem excess_displaced_keeps_seat :
  let before := Scenario.selected_seat_deleted in
  let after := Scenario.dropped_after_delete in
  Scenario.occupancy before =
    [("0-0", Some 0%nat, false); ("0-1", None, true); ("0-2", None, false);
     ("1-0", Some 2%nat, false); ("1-1", Some 1%nat, false); ("1-2", None, false)] ∧
  pairing_lists "1-0" (sourceSeats_of (prepareMultiSeatDrag "0-0" before)) (data before) =
    Some ([mkDisplaced 2%nat 3%nat; mkDisplaced 1%nat 4%nat], [0%nat]) ∧
  Scenario.occupant_uuids after =
    [("0-0", Some "uc"); ("0-1", None); ("0-2", None);
     ("1-0", Some "ua"); ("1-1", Some "ub"); ("1-2", None)] ∧
  Scenario.caches after =
    [("ua", Some "1-0"); ("ub", Some "1-1"); ("uc", Some "0-0")].
Proof. repeat split; vm_compute; reflexivity. Qed.

(** C6 (failing run). The block [0-0], [0-1] is grabbed at [0-1], which the
    payload records as anchor, and dropped on [1-1]. The plan translates by
    the offset from the first selected seat [0-0] to the target, (1, 1), and
    not by the offset from the anchor, (1, 0): Ann goes from [0-0] to [1-1]
    and Bob, the student grabbed, from [0-1] to [1-2]. *)
Theorem offset_taken_from_first_selected :
  let app := Scenario.two_selected in
  let drag := Scenario.grabbed_at_0_1 in
  anchor_of drag = Some "0-1" ∧
  ss_seatId <$> sourceSeats_of drag = ["0-0"; "0-1"] ∧
  positions <$> checkMultiDropTarget "1-1" (ss_seatId <$> sourceSeats_of drag) (data app) =
    Some [mkPosition "0-0" "1-1" (Some 0%nat); mkPosition "0-1" "1-2" (Some 1%nat)] ∧
  Scenario.occupant_uuids app =
    [("0-0", Some "ua"); ("0-1", Some "ub"); ("0-2", None);
     ("1-0", Some "uc"); ("1-1", None); ("1-2", None)] ∧
  Scenario.occupant_uuids Scenario.dropped_at_1_1 =
    [("0-0", None); ("0-1", None); ("0-2", None);
     ("1-0", Some "uc"); ("1-1", Some "ua"); ("1-2", Some "ub")].
Proof. repeat split; vm_compute; reflexivity. Qed.

(** ** Seat identifiers *)

Lemma pretty_N_go_dash_free x : ∀ s, dash_free s → dash_free (pretty_N_go x s).
Proof.
  induction (N.lt_wf_0 x) as [x _ IH]; intros s Hs.
  assert (x = 0 ∨ 0 < x)%N as [->|Hpos] by lia.
  - by rewrite pretty_N_go_0.
  - rewrite pretty_N_go_step by done. apply IH; [by apply N.div_lt|].
    split; [|done]. unfold pretty_N_char. by repeat case_match.
Qed.

Lemma pretty_Z_dash_free (z : Z) : 0 ≤ z → dash_free (pretty z).
Proof.
  intros Hz. destruct z as [|p|p]; [by repeat split| |lia].
  unfold pretty, pretty_Z, pretty, pretty_positive, pretty, pretty_N.
  case_decide; [by repeat split|]. by apply pretty_N_go_dash_free.
Qed.

Lemma dash_split a : ∀ a' b b',
  dash_free a → dash_free a' →
  a +:+ "-" +:+ b = a' +:+ "-" +:+ b' → a = a' ∧ b = b'.
Proof.
  induction a as [|ch a IH]; intros [|ch' a'] b b' Ha Ha'; simpl.
  - intros [= Hb]. by subst.
  - intros [= Hch _]. destruct Ha' as [Hne _]. by destruct Hne.
  - intros [= Hch _]. destruct Ha as [Hne _]. by destruct Hne.
  - intros [= Hch Heq]. destruct Ha as [_ Ha], Ha' as [_ Ha'].
    destruct (IH a' b b' Ha Ha' Heq) as [Ha0 Hb0]. by subst.
Qed.

Lemma seatIdOf_inj r c r' c' :
  0 ≤ r → 0 ≤ c → 0 ≤ r' → 0 ≤ c' →
  seatIdOf r c = seatIdOf r' c' → r = r' ∧ c = c'.
Proof.
  intros Hr Hc Hr' Hc' Heq. unfold seatIdOf in Heq.
  apply dash_split in Heq as [H1 H2]; [|by apply pretty_Z_dash_free..].
  split; by apply (inj pretty).
Qed.

(** ** Grid initialisation *)

Lemma existingSeatData_snoc ss s :
  existingSeatData (ss ++ [s]) =
    <[id s := (student s, isDeleted s)]> (existingSeatData ss).
Proof. unfold existingSeatData. by rewrite foldl_app. Qed.

Lemma existingSeatData_Some ss k v :
  existingSeatData ss !! k = Some v →
  ∃ o, o ∈ ss ∧ id o = k ∧ v = (student o, isDeleted o).
Proof.
  induction ss as [|s ss IH] using rev_ind.
  - unfold existingSeatData. simpl. by rewrite lookup_empty.
  - rewrite existingSeatData_snoc. destruct (decide (id s = k)) as [<-|Hne].
    + rewrite lookup_insert_eq. intros [= <-]. exists s.
      split; [|done]. apply elem_of_app. right. apply list_elem_of_here.
    + rewrite lookup_insert_ne by done. intros (o & Ho & ? & ?)%IH.
      exists o. split; [|done]. apply elem_of_app. by left.
Qed.

Lemma existingSeatData_None ss k :
  (∀ o, o ∈ ss → id o ≠ k) → existingSeatData ss !! k = None.
Proof.
  intros Hno. destruct (existingSeatData ss !! k) as [v|] eqn:Hv; [|done].
  apply existingSeatData_Some in Hv as (o & Ho & Hid & _). by destruct (Hno o Ho).
Qed.

Lemma existingSeatData_NoDup ss o :
  NoDup (id <$> ss) → o ∈ ss →
  existingSeatData ss !! id o = Some (student o, isDeleted o).
Proof.
  induction ss as [|s ss IH] using rev_ind; intros Hnd Ho.
  - by apply elem_of_nil in Ho.
  - rewrite fmap_app in Hnd. apply NoDup_app in Hnd as (Hnd & Hfresh & _).
    rewrite existingSeatData_snoc.
    apply elem_of_app in Ho as [Ho|Ho].
    + rewrite lookup_insert_ne; [by apply IH|].
      intros Heq. apply (Hfresh (id o)).
      * by apply list_elem_of_fmap_2.
      * rewrite <- Heq. apply list_elem_of_here.
    + apply list_elem_of_singleton in Ho as ->. by rewrite lookup_insert_eq.
Qed.

Lemma elem_of_initializeSeats n d :
  n ∈ seats (initializeSeats d) ↔
  ∃ r c, 0 ≤ r < rows d ∧ 0 ≤ c < cols d ∧
         n = initial_seat (existingSeatData (seats d)) (cols d) r c.
Proof.
  unfold initializeSeats. cbn [seats with_seats].
  rewrite list_elem_of_bind. split.
  - intros (r & (c & Hn & Hc)%list_elem_of_bind & Hr).
    apply list_elem_of_singleton in Hn. apply elem_of_seqZ in Hr, Hc.
    exists r, c. repeat split; [lia..|done].
  - intros (r & c & Hr & Hc & ->). exists r. split; [|apply elem_of_seqZ; lia].
    apply list_elem_of_bind. exists c. split; [|apply elem_of_seqZ; lia].
    apply list_elem_of_here.
Qed.

Lemma initial_seat_coords existing ncols r c :
  let n := initial_seat existing ncols r c in
  id n = seatIdOf r c ∧ row n = r ∧ col n = c.
Proof. unfold initial_seat. by destruct (existing !! _) as [[??]|]. Qed.

(** C10. [initializeSeats] builds one seat for every coordinate of the
    current dimensions and no other seat. A new seat keeps the occupant
    and the deleted flag of the previous seat with the same id, and is
    empty and not deleted when no previous seat has its id. A previous
    seat whose coordinates are outside the dimensions has no counterpart:
    the new collection has no seat of its id, and every occupant of the
    new collection comes from a previous seat of the same id. The student
    objects and the roster are untouched. *)
Theorem initializeSeats_keeps_matching_seats (d : SeatingData) :
  NoDup (id <$> seats d) →
  let d' := initializeSeats d in
  (∀ n, n ∈ seats d' →
     ∃ r c, 0 ≤ r < rows d ∧ 0 ≤ c < cols d ∧
            id n = seatIdOf r c ∧ row n = r ∧ col n = c) ∧
  (∀ r c, 0 ≤ r < rows d → 0 ≤ c < cols d →
     ∃ n, n ∈ seats d' ∧ id n = seatIdOf r c) ∧
  (∀ o n, o ∈ seats d → n ∈ seats d' → id o = id n →
     student n = student o ∧ isDeleted n = isDeleted o) ∧
  (∀ n, n ∈ seats d' → (∀ o, o ∈ seats d → id o ≠ id n) →
     student n = None ∧ isDeleted n = false) ∧
  (∀ o, o ∈ seats d → id o = seatIdOf (row o) (col o) →
     0 ≤ row o → 0 ≤ col o → ¬ (row o < rows d ∧ col o < cols d) →
     ∀ n, n ∈ seats d' → id n ≠ id o) ∧
  (∀ n p, n ∈ seats d' → student n = Some p →
     ∃ o, o ∈ seats d ∧ id o = id n ∧ student o = Some p) ∧
  heap d' = heap d ∧ students d' = students d.
Proof.
  intros Hnd d'.
  split; [|split; [|split; [|split; [|split; [|split]]]]].
  - intros n (r & c & Hr & Hc & ->)%elem_of_initializeSeats.
    exists r, c. by destruct (initial_seat_coords (existingSeatData (seats d)) (cols d) r c)
      as (? & ? & ?).
  - intros r c Hr Hc. exists (initial_seat (existingSeatData (seats d)) (cols d) r c).
    split; [apply elem_of_initializeSeats; by exists r, c|].
    apply initial_seat_coords.
  - intros o n Ho (r & c & Hr & Hc & ->)%elem_of_initializeSeats Hid.
    destruct (initial_seat_coords (existingSeatData (seats d)) (cols d) r c)
      as (Hidn & _). rewrite Hidn in Hid.
    unfold initial_seat. rewrite <- Hid.
    by rewrite (existingSeatData_NoDup _ _ Hnd Ho).
  - intros n (r & c & Hr & Hc & ->)%elem_of_initializeSeats Hno.
    destruct (initial_seat_coords (existingSeatData (seats d)) (cols d) r c)
      as (Hidn & _). rewrite Hidn in Hno.
    unfold initial_seat. by rewrite (existingSeatData_None _ _ Hno).
  - intros o Ho Hid Hro Hco Hout n (r & c & Hr & Hc & ->)%elem_of_initializeSeats.
    destruct (initial_seat_coords (existingSeatData (seats d)) (cols d) r c)
      as (Hidn & _). rewrite Hidn, Hid. intros Heq.
    apply seatIdOf_inj in Heq as [-> ->]; lia.
  - intros n p (r & c & Hr & Hc & ->)%elem_of_initializeSeats.
    unfold initial_seat.
    destruct (existingSeatData (seats d) !! seatIdOf r c) as [[st del]|] eqn:Hlook;
      [|done].
    apply existingSeatData_Some in Hlook as (o & Ho & Hid & [= -> ->]).
    cbn. intros Hp. by exists o.
  - done.
Qed.

(** The 2 x 3 classroom of the scenario shrinks to 1 x 2: Ann and Bob keep
    their seats [0-0] and [0-1]; the seat [1-0] of Cid is gone. *)
Lemma initializeSeats_witness :
  let d := with_dims 1 2 (data Scenario.seated) in
  NoDup (id <$> seats d) ∧
  (∀ o n, o ∈ seats d → n ∈ seats (initializeSeats d) → id o = id n →
     student n = student o ∧ isDeleted n = isDeleted o) ∧
  Scenario.occupancy Scenario.seated =
    [("0-0", Some 0%nat, false); ("0-1", Some 1%nat, false); ("0-2", None, false);
     ("1-0", Some 2%nat, false); ("1-1", None, false); ("1-2", None, false)] ∧
  Scenario.occupancy (applyNewLayoutFromDropdown 1 2 true 9 Scenario.seated) =
    [("0-0", Some 0%nat, false); ("0-1", Some 1%nat, false)].
Proof.
  intros d.
  assert (NoDup (id <$> seats d)) as Hnd
    by (apply (bool_decide_unpack _); vm_compute; exact I).
  pose proof (initializeSeats_keeps_matching_seats d Hnd) as (_ & _ & H3 & _).
  split; [exact Hnd|]. split; [exact H3|].
  split; vm_compute; reflexivity.
Defined.

(** ** The grid built by [initializeSeats] *)

(** Lookup in a concatenation of blocks of equal length. *)
Lemma lookup_bind_block {A B} (g : A → list B) (n : nat) (l : list A) :
  (∀ x, length (g x) = n) →
  ∀ i j x, l !! i = Some x → (j < n)%nat →
    (l ≫= g) !! (i * n + j)%nat = g x !! j.
Proof.
  intros Hlen. induction l as [|y l IH]; intros i j x Hi Hj; [done|].
  cbn [mbind list_bind]. destruct i as [|i]; simpl in Hi.
  - injection Hi as ->. rewrite lookup_app_l by (rewrite Hlen; lia). done.
  - rewrite lookup_app_r by (rewrite Hlen; lia). rewrite Hlen.
    replace (S i * n + j - n)%nat with (i * n + j)%nat by lia. by apply IH.
Qed.

Lemma length_bind_block {A B} (g : A → list B) (n : nat) (l : list A) :
  (∀ x, length (g x) = n) → length (l ≫= g) = (length l * n)%nat.
Proof.
  intros Hlen. induction l as [|y l IH]; [done|].
  cbn [mbind list_bind]. rewrite length_app, IH, Hlen. simpl. lia.
Qed.

Lemma initializeSeats_lookup d r c :
  0 ≤ r < rows d → 0 ≤ c < cols d →
  seats (initializeSeats d) !! Z.to_nat (r * cols d + c)
    = Some (initial_seat (existingSeatData (seats d)) (cols d) r c).
Proof.
  intros Hr Hc. unfold initializeSeats. cbn [seats with_seats].
  set (existing := existingSeatData (seats d)).
  set (line := λ r, c ← seqZ 0 (cols d); [initial_seat existing (cols d) r c]).
  assert (∀ x, length (line x) = Z.to_nat (cols d)) as Hline.
  { intros x. unfold line. rewrite (length_bind_block _ 1%nat) by done.
    rewrite length_seqZ. lia. }
  assert (seqZ 0 (rows d) !! Z.to_nat r = Some r) as Hri
    by (rewrite lookup_seqZ_lt by lia; f_equal; lia).
  assert (seqZ 0 (cols d) !! Z.to_nat c = Some c) as Hci
    by (rewrite lookup_seqZ_lt by lia; f_equal; lia).
  replace (Z.to_nat (r * cols d + c))
    with (Z.to_nat r * Z.to_nat (cols d) + Z.to_nat c)%nat by nia.
  rewrite (lookup_bind_block line _ _ Hline _ _ r Hri) by lia.
  unfold line. replace (Z.to_nat c) with (Z.to_nat c * 1 + 0)%nat at 1 by lia.
  by rewrite (lookup_bind_block (λ c, [initial_seat existing (cols d) r c]) 1%nat
                _ (λ _, eq_refl) _ _ c Hci) by lia.
Qed.

Lemma initializeSeats_length d :
  length (seats (initializeSeats d)) = (Z.to_nat (rows d) * Z.to_nat (cols d))%nat.
Proof.
  unfold initializeSeats. cbn [seats with_seats].
  rewrite (length_bind_block _ (Z.to_nat (cols d))), length_seqZ; [done|].
  intros x. rewrite (length_bind_block _ 1%nat) by done. rewrite length_seqZ. lia.
Qed.

(** Every index of the new array is the row-major rank of a coordinate. *)
Lemma initializeSeats_index d k s :
  seats (initializeSeats d) !! k = Some s →
  ∃ r c, 0 ≤ r < rows d ∧ 0 ≤ c < cols d ∧ k = Z.to_nat (r * cols d + c) ∧
         s = initial_seat (existingSeatData (seats d)) (cols d) r c.
Proof.
  intros Hk. pose proof (lookup_lt_Some _ _ _ Hk) as Hlt.
  rewrite initializeSeats_length in Hlt.
  assert (0 < cols d) as Hcols by nia.
  exists (Z.of_nat k `div` cols d), (Z.of_nat k `mod` cols d).
  pose proof (Z.mod_pos_bound (Z.of_nat k) (cols d) Hcols) as Hmod.
  pose proof (Z.div_mod (Z.of_nat k) (cols d) ltac:(lia)) as Hdiv.
  assert (0 ≤ Z.of_nat k `div` cols d < rows d) as Hr.
  { split; [apply Z.div_pos; lia|]. apply Z.div_lt_upper_bound; [lia|]. nia. }
  assert (k = Z.to_nat (Z.of_nat k `div` cols d * cols d + Z.of_nat k `mod` cols d))
    as Hkeq by lia.
  repeat split; try done; try lia.
  rewrite Hkeq, initializeSeats_lookup in Hk by done. by injection Hk as <-.
Qed.

(** The grid [initializeSeats] builds is dense and row-major: it has
    [rows * cols] seats, the seat of coordinate [(r, c)] is at index
    [r * cols + c] with linear position [r * cols + c + 1] and id
    [`r-c`], no two seats share an id, and [findSeatById] finds every seat
    by the id of its coordinate. *)
Theorem initializeSeats_dense_grid (d : SeatingData) :
  let d' := initializeSeats d in
  length (seats d') = (Z.to_nat (rows d) * Z.to_nat (cols d))%nat ∧
  NoDup (id <$> seats d') ∧
  ∀ r c, 0 ≤ r < rows d → 0 ≤ c < cols d →
    ∃ s, seats d' !! Z.to_nat (r * cols d + c) = Some s ∧
         id s = seatIdOf r c ∧ row s = r ∧ col s = c ∧
         position s = r * cols d + c + 1 ∧
         findSeatById (seatIdOf r c) d' = Some (Z.to_nat (r * cols d + c), s).
Proof.
  intros d'.
  assert (∀ i j si sj, seats d' !! i = Some si → seats d' !! j = Some sj →
                       id si = id sj → i = j) as Hinj.
  { intros i j si sj (r & c & Hr & Hc & -> & ->)%initializeSeats_index
                     (r' & c' & Hr' & Hc' & -> & ->)%initializeSeats_index.
    destruct (initial_seat_coords (existingSeatData (seats d)) (cols d) r c) as (-> & _).
    destruct (initial_seat_coords (existingSeatData (seats d)) (cols d) r' c') as (-> & _).
    intros Heq. apply seatIdOf_inj in Heq as [-> ->]; [done|lia..]. }
  split; [apply initializeSeats_length|]. split.
  - apply NoDup_alt. intros i j k. rewrite !list_lookup_fmap.
    destruct (seats d' !! i) as [si|] eqn:Hi; [|done].
    destruct (seats d' !! j) as [sj|] eqn:Hj; [|done].
    simpl. intros [= <-] [= Hid]. eapply Hinj; [exact Hi|exact Hj|by symmetry].
  - intros r c Hr Hc.
    pose proof (initializeSeats_lookup d r c Hr Hc) as Hlook.
    set (s := initial_seat (existingSeatData (seats d)) (cols d) r c) in *.
    destruct (initial_seat_coords (existingSeatData (seats d)) (cols d) r c)
      as (Hid & Hrow & Hcol). fold s in Hid, Hrow, Hcol.
    exists s. repeat split; try done.
    + subst s. unfold initial_seat.
      by destruct (existingSeatData (seats d) !! seatIdOf r c) as [[??]|].
    + apply list_find_unique; [done|done|].
      intros j y Hj Hy. eapply Hinj; [done|done|]. by rewrite Hy, Hid.
Qed.

(** ** History: pointer moves *)

Lemma last_keep5_snoc l x : last (keep5 (l ++ [x])) = Some x.
Proof.
  unfold keep5. rewrite length_app. simpl.
  rewrite last_lookup, length_drop, length_app, lookup_drop. simpl.
  replace (length l + 1 - 5 + Init.Nat.pred (length l + 1 - (length l + 1 - 5)))%nat
    with (length l) by lia.
  by rewrite lookup_app_r, Nat.sub_diag by lia.
Qed.

(** On a stack whose pointer is inside its bounds, a call leaves the
    pointer on the last item, which is the item of the call. *)
Lemma addToHistory_pointer act data now d :
  -1 ≤ historyIndex d < Z.of_nat (length (history d)) →
  let d' := addToHistory act data now d in
  historyIndex d' = Z.of_nat (length (history d')) - 1 ∧
  Js.index (history d') (historyIndex d')
    = Some (item_of (heap d) (act, data, now)).
Proof.
  intros Hidx d'.
  destruct (addToHistory_first act data now d ltac:(lia)) as (Hh & _ & Htop).
  fold d' in Hh, Htop.
  assert (historyIndex d' = Z.of_nat (length (history d')) - 1) as Hptr.
  { subst d'. unfold addToHistory, MAX_HISTORY_SIZE in *.
    rewrite slice_prefix in * by lia.
    set (h2 := take _ (history d) ++ _) in *.
    assert (Z.of_nat (length h2) = historyIndex d + 2) as Hlen.
    { unfold h2. rewrite length_app, length_take. simpl. lia. }
    case_decide; cbn [historyIndex history with_history] in *; lia. }
  split; [done|].
  rewrite Hptr. unfold Js.index. case_decide as Hpos.
  - pose proof (last_keep5_snoc (take (Z.to_nat (historyIndex d + 1)) (history d))
                  (item_of (heap d) (act, data, now))) as Hlast.
    rewrite <- Hh, last_lookup in Hlast. rewrite <- Hlast. f_equal. lia.
  - rewrite Hh, length_keep5, length_app in Hpos. simpl in Hpos. lia.
Qed.

(** Recording then undoing: [undo()] returns the item just recorded,
    whatever was on the stack, and right after a recording there is
    nothing to redo. *)
Theorem undo_returns_last_recorded (d : SeatingData) (act : string)
    (data : list Seat) (now : Z) :
  -1 ≤ historyIndex d < Z.of_nat (length (history d)) →
  let d' := addToHistory act data now d in
  canUndo d' = true ∧ canRedo d' = false ∧
  (undo d').1 = Some (mkHistoryItem act (deepClone_seats (heap d) data) now) ∧
  (redo d').1 = None.
Proof.
  intros Hidx d'.
  destruct (addToHistory_pointer act data now d Hidx) as [Hptr Hitem].
  fold d' in Hptr, Hitem.
  assert (0 ≤ historyIndex d') as Hpos.
  { destruct (decide (0 ≤ historyIndex d')); [done|].
    unfold Js.index in Hitem. by case_decide. }
  unfold canUndo, canRedo, undo, redo.
  rewrite bool_decide_eq_true_2, bool_decide_eq_false_2 by lia.
  repeat case_decide; try lia. done.
Qed.

(** The first recording of a new application. *)
Lemma undo_returns_last_recorded_witness :
  let d := data (new_SeatingApp 0) in
  (-1 ≤ historyIndex d < Z.of_nat (length (history d))) ∧
  (undo (addToHistory "seatArrangement" [] 7 d)).1
    = Some (mkHistoryItem "seatArrangement" [] 7).
Proof.
  intros d.
  assert (-1 ≤ historyIndex d < Z.of_nat (length (history d))) as H
    by (vm_compute; split; [discriminate|reflexivity]).
  split; [exact H|].
  exact (proj1 (proj2 (proj2 (undo_returns_last_recorded d "seatArrangement" [] 7 H)))).
Defined.

(** [undo()] and [redo()] are inverse pointer moves: with the pointer on an
    item, undoing then redoing returns the same item twice and leaves the
    store as it was; with an item above the pointer, so does redoing then
    undoing. *)
Theorem undo_redo_round_trip (d : SeatingData) :
  (0 ≤ historyIndex d < Z.of_nat (length (history d)) →
     (undo d).1 = history d !! Z.to_nat (historyIndex d) ∧
     is_Some (undo d).1 ∧
     redo (undo d).2 = ((undo d).1, d)) ∧
  (-1 ≤ historyIndex d < Z.of_nat (length (history d)) - 1 →
     (redo d).1 = history d !! Z.to_nat (historyIndex d + 1) ∧
     is_Some (redo d).1 ∧
     undo (redo d).2 = ((redo d).1, d)).
Proof.
  destruct d as [h r ss nr nc hist idx]. cbn [historyIndex history].
  split; intros Hidx.
  - unfold undo. cbn [historyIndex history]. case_decide; [|lia]. cbn [fst snd].
    unfold Js.index. case_decide; [|lia].
    split; [done|]. split; [apply lookup_lt_is_Some; lia|].
    unfold redo, with_history. cbn. case_decide; [|lia].
    unfold Js.index. case_decide; [|lia].
    replace (idx - 1 + 1) with idx by lia. done.
  - unfold redo. cbn [historyIndex history]. case_decide; [|lia]. cbn [fst snd].
    unfold Js.index. case_decide; [|lia].
    split; [done|]. split; [apply lookup_lt_is_Some; lia|].
    unfold undo, with_history. cbn. case_decide; [|lia].
    unfold Js.index. case_decide; [|lia].
    replace (idx + 1 - 1) with idx by lia. done.
Qed.

(** A store with two items and the pointer on the second. *)
Lemma undo_redo_round_trip_witness :
  let d := record_all [("seatArrangement", [], 1); ("seatArrangement", [], 2)]
                      new_SeatingData in
  (0 ≤ historyIndex d < Z.of_nat (length (history d))) ∧
  redo (undo d).2 = ((undo d).1, d).
Proof.
  intros d.
  assert (0 ≤ historyIndex d < Z.of_nat (length (history d))) as H
    by (vm_compute; split; [discriminate|reflexivity]).
  split; [exact H|].
  exact (proj2 (proj2 (proj1 (undo_redo_round_trip d) H))).
Defined.

(** ** Seat caches: [syncStudentSeatIds] *)

Lemma set_seatId_twice v w st : set_seatId v (set_seatId w st) = set_seatId v st.
Proof. by destruct st. Qed.

Lemma set_seatId_fmap_twice v w (o : option Student) :
  set_seatId v <$> (set_seatId w <$> o) = set_seatId v <$> o.
Proof. destruct o; simpl; [|done]. by rewrite set_seatId_twice. Qed.

Lemma reset_caches_lookup roster : ∀ (h : list Student) q,
  foldl (λ h p, alter (set_seatId None) p h) h roster !! q
    = if decide (q ∈ roster) then set_seatId None <$> h !! q else h !! q.
Proof.
  induction roster as [|p roster IH]; intros h q; cbn [foldl].
  - rewrite decide_False; [done|]. by intros ?%elem_of_nil.
  - rewrite IH, list_lookup_alter.
    destruct (decide (q ∈ roster)) as [Hin|Hnin].
    + rewrite (decide_True (P := q ∈ p :: roster)) by (apply elem_of_cons; by right).
      case_decide; [|done]. subst p. destruct (h !! q); simpl; [|done].
      by rewrite set_seatId_twice.
    + case_decide as Hpq.
      * subst. by rewrite (decide_True (P := q ∈ q :: roster)) by (apply elem_of_cons; by left).
      * rewrite (decide_False (P := q ∈ p :: roster)); [done|]. intros [?|?]%elem_of_cons; by subst.
Qed.

Lemma write_caches_lookup ss : ∀ (h : list Student) q,
  foldl (λ h seat, match student seat with
                   | Some p => alter (set_seatId (Some (id seat))) p h
                   | None => h
                   end) h ss !! q
    = match last_seat_of q ss with
      | Some s => set_seatId (Some (id s)) <$> h !! q
      | None => h !! q
      end.
Proof.
  unfold last_seat_of.
  induction ss as [|s ss IH] using rev_ind; intros h q; [done|].
  rewrite foldl_app, filter_app. cbn [foldl].
  destruct (student s) as [p|] eqn:Hs.
  - rewrite list_lookup_alter. case_decide as Hpq.
    + subst p. rewrite filter_cons_True, filter_nil by done.
      rewrite last_snoc, IH.
      destruct (last (filter _ ss)); [|done].
      destruct (h !! q); simpl; [|done]. by rewrite set_seatId_twice.
    + rewrite filter_cons_False, filter_nil, app_nil_r by congruence. apply IH.
  - rewrite filter_cons_False, filter_nil, app_nil_r by congruence. apply IH.
Qed.

(** What [syncStudentSeatIds] leaves in every student object. *)
Lemma syncStudentSeatIds_lookup d q :
  heap (syncStudentSeatIds d) !! q
    = match last_seat_of q (seats d) with
      | Some s => set_seatId (Some (id s)) <$> heap d !! q
      | None => if decide (q ∈ students d) then set_seatId None <$> heap d !! q
                else heap d !! q
      end.
Proof.
  unfold syncStudentSeatIds. cbn [heap with_heap].
  rewrite write_caches_lookup, reset_caches_lookup.
  destruct (last_seat_of q (seats d)); [|done].
  case_decide; [|done]. apply set_seatId_fmap_twice.
Qed.

(** After [syncStudentSeatIds]: the cache of a student object that a seat
    references names the last seat referencing it; a roster student that no
    seat references has no cache; an object that is neither in the roster
    nor referenced is left alone; and nothing but caches changes: seats,
    roster and the other fields of every student are kept. *)
Theorem syncStudentSeatIds_caches (d : SeatingData) (q : loc) (st : Student) :
  heap d !! q = Some st →
  let d' := syncStudentSeatIds d in
  seats d' = seats d ∧ students d' = students d ∧
  (∃ st', heap d' !! q = Some st' ∧
          uuid st' = uuid st ∧ name st' = name st ∧ sid st' = sid st ∧
          gender st' = gender st ∧ height st' = height st ∧ notes st' = notes st ∧
          seatId st' =
            match last_seat_of q (seats d) with
            | Some s => Some (id s)
            | None => if decide (q ∈ students d) then None else seatId st
            end).
Proof.
  intros Hq d'. split; [done|]. split; [done|].
  subst d'. rewrite syncStudentSeatIds_lookup, Hq.
  destruct (last_seat_of q (seats d)) as [s|]; [|case_decide]; simpl;
    eexists; (split; [done|]); by destruct st.
Qed.

Lemma syncStudentSeatIds_caches_witness :
  let d := data (clearSelectedSeats true 9 Scenario.two_selected) in
  heap d !! 0%nat = Some (mkStudent "ua" "Ann" "1" "female" None "" (Some "0-0")) ∧
  ∃ st', heap (syncStudentSeatIds d) !! 0%nat = Some st' ∧ seatId st' = None.
Proof.
  intros d.
  assert (heap d !! 0%nat
            = Some (mkStudent "ua" "Ann" "1" "female" None "" (Some "0-0"))) as Hq
    by (vm_compute; reflexivity).
  split; [exact Hq|].
  destruct (syncStudentSeatIds_caches d 0%nat _ Hq)
    as (_ & _ & st' & Hst' & _ & _ & _ & _ & _ & _ & Hc).
  exists st'. split; [exact Hst'|].
  rewrite Hc. vm_compute. reflexivity.
Defined.

(** [syncStudentSeatIds] is idempotent. *)
Theorem syncStudentSeatIds_idempotent (d : SeatingData) :
  syncStudentSeatIds (syncStudentSeatIds d) = syncStudentSeatIds d.
Proof.
  assert (heap (syncStudentSeatIds (syncStudentSeatIds d))
            = heap (syncStudentSeatIds d)) as Hheap.
  { apply list_eq. intros q.
    rewrite (syncStudentSeatIds_lookup (syncStudentSeatIds d)).
    change (seats (syncStudentSeatIds d)) with (seats d).
    change (students (syncStudentSeatIds d)) with (students d).
    rewrite !syncStudentSeatIds_lookup.
    destruct (last_seat_of q (seats d)) as [s|]; [|case_decide];
      by rewrite ?set_seatId_fmap_twice. }
  change (syncStudentSeatIds (syncStudentSeatIds d))
    with (with_heap (heap (syncStudentSeatIds (syncStudentSeatIds d)))
            (syncStudentSeatIds d)).
  rewrite Hheap. by destruct d.
Qed.

(** ** Undo at the level of the application *)

(** The seats rebuilt by [deepClone] point to the copies appended to the
    heap. *)
Lemma revive_seats_spec (cs : list SeatCopy) (h : list Student) :
  let r := foldl revive_seat (h, []) cs in
  h `prefix_of` r.1 ∧
  Forall2 (λ c s, id s = c_id c ∧ row s = c_row c ∧ col s = c_col c ∧
                  position s = c_position c ∧ isDeleted s = c_isDeleted c ∧
                  match c_student c with
                  | Some st => ∃ p, student s = Some p ∧ r.1 !! p = Some st
                  | None => student s = None
                  end) cs r.2.
Proof.
  induction cs as [|c cs IH] using rev_ind; cbn zeta.
  - split; [done|constructor].
  - rewrite foldl_app. cbn [foldl].
    destruct IH as [Hpre IH]. set (acc := foldl revive_seat (h, []) cs) in *.
    unfold revive_seat.
    destruct (c_student c) as [st|] eqn:Hc; cbn [fst snd].
    + split; [by etrans; [exact Hpre|apply prefix_app_r]|].
      apply Forall2_app.
      * eapply Forall2_impl; [exact IH|]. intros c' s' (?&?&?&?&?&Hs).
        repeat (split; [done|]). destruct (c_student c'); [|done].
        destruct Hs as (p & ? & Hp). exists p. split; [done|].
        by apply lookup_app_l_Some.
      * constructor; [|constructor]. cbn. repeat (split; [done|]).
        rewrite Hc. eexists. split; [done|].
        by rewrite lookup_app_r, Nat.sub_diag.
    + split; [done|]. apply Forall2_app; [exact IH|].
      constructor; [|constructor]. cbn. repeat (split; [done|]). by rewrite Hc.
Qed.

(** [relink_seat] changes no field of a seat but the reference, and the
    object it puts there carries the uuid of the one it replaces. *)
Lemma relink_seat_spec (d : SeatingData) (s : Seat) :
  let s' := (relink_seat d s).1 in
  id s' = id s ∧ row s' = row s ∧ col s' = col s ∧
  position s' = position s ∧ isDeleted s' = isDeleted s ∧
  match student s ≫= (heap d !!.) with
  | Some st => ∃ p st', student s' = Some p ∧ heap d !! p = Some st' ∧ uuid st' = uuid st
  | None => student s' = student s
  end.
Proof.
  unfold relink_seat.
  destruct (student s ≫= (heap d !!.)) as [st|] eqn:Hst; [|done].
  destruct (student s) as [p|] eqn:Hp; [|done]. cbn in Hst.
  case_decide; [by repeat (split; [done|]); eauto|].
  destruct (findStudentByUuid (uuid st) d) as [q|] eqn:Hq; cbn [fst].
  - repeat (split; [by destruct s|]).
    unfold findStudentByUuid in Hq.
    destruct (list_find _ _) as [[i q']|] eqn:Hfind; [|done].
    cbn in Hq. injection Hq as ->.
    apply list_find_Some in Hfind as (_ & Hu & _).
    destruct (heap d !! q) as [st'|] eqn:Hst'; [|done].
    cbn in Hu. injection Hu as Hu.
    exists q, st'. by destruct s.
  - by repeat (split; [done|]); eauto.
Qed.

(** What [restoreFromHistory] rebuilds from a seat-arrangement item. *)
Lemma restoreFromHistory_spec (item : HistoryItem) (app : SeatingApp) :
  action item = "seatArrangement" →
  let app' := (restoreFromHistory item app).1 in
  Forall2 (restores (heap (data app'))) (hdata item) (seats (data app')) ∧
  heap (data app) `prefix_of` heap (data app') ∧
  students (data app') = students (data app) ∧
  history (data app') = history (data app) ∧
  historyIndex (data app') = historyIndex (data app) ∧
  rows (data app') = rows (data app) ∧ cols (data app') = cols (data app) ∧
  selectedSeats app' = selectedSeats app.
Proof.
  intros Hact. unfold restoreFromHistory. rewrite decide_True by done.
  cbn zeta. rewrite relinkStudentReferences_unfold.
  cbn [fst snd data with_data heap seats students history historyIndex rows cols
       selectedSeats with_seats with_heap].
  destruct (revive_seats_spec (hdata item) (heap (data app))) as [Hpre Hall].
  set (r := foldl revive_seat (heap (data app), []) (hdata item)) in *.
  split; [|done].
  apply Forall2_fmap_r. eapply Forall2_impl; [exact Hall|].
  intros c s (Hid & Hrow & Hcol & Hpos & Hdel & Hs).
  set (d2 := with_seats r.2 (with_heap r.1 (data app))).
  destruct (relink_seat_spec d2 s) as (Hid' & Hrow' & Hcol' & Hpos' & Hdel' & Hs').
  change (heap d2) with r.1 in Hs'.
  unfold restores, compose.
  rewrite Hid', Hrow', Hcol', Hpos', Hdel'. repeat (split; [done|]).
  destruct (c_student c) as [st|].
  - destruct Hs as (p & Hp & Hlook). rewrite Hp in Hs'. cbn in Hs'.
    rewrite Hlook in Hs'. exact Hs'.
  - rewrite Hs in Hs'. cbn in Hs'. by rewrite Hs'.
Qed.

(** [SeatingApp.undo()] with the pointer on [item]. *)
Lemma app_undo_item (app : SeatingApp) (item : HistoryItem) :
  Js.index (history (data app)) (historyIndex (data app)) = Some item →
  app_undo app
    = restoreFromHistory item
        (with_data (with_history (history (data app))
                      (historyIndex (data app) - 1) (data app)) app).
Proof.
  intros Hitem. unfold app_undo, undo.
  assert (0 ≤ historyIndex (data app)) as Hpos.
  { destruct (decide (0 ≤ historyIndex (data app))); [done|].
    unfold Js.index in Hitem. by case_decide. }
  rewrite decide_True by lia. cbn [fst snd]. by rewrite Hitem.
Qed.

(** An operation records the arrangement under ['seatArrangement'] and then
    changes seats and student objects at will; the next undo puts back the
    recorded arrangement, seat by seat, with occupants of the same uuid.
    The roster and the student objects that existed are not touched (the
    seat caches are not recomputed), the selection is kept, and the pointer
    moves down by one. *)
Theorem undo_restores_recorded_arrangement (d : SeatingData) (now : Z)
    (app' : SeatingApp) :
  -1 ≤ historyIndex d < Z.of_nat (length (history d)) →
  let d1 := addToHistory "seatArrangement" (seats d) now d in
  history (data app') = history d1 →
  historyIndex (data app') = historyIndex d1 →
  let r := (app_undo app').1 in
  same_arrangement (heap d) (seats d) (heap (data r)) (seats (data r)) ∧
  heap (data app') `prefix_of` heap (data r) ∧
  students (data r) = students (data app') ∧
  history (data r) = history (data app') ∧
  historyIndex (data r) = historyIndex (data app') - 1 ∧
  selectedSeats r = selectedSeats app'.
Proof.
  intros Hidx d1 Hh Hi r.
  destruct (addToHistory_pointer "seatArrangement" (seats d) now d Hidx) as [_ Hitem].
  fold d1 in Hitem. rewrite <- Hh, <- Hi in Hitem.
  subst r. rewrite (app_undo_item _ _ Hitem).
  set (app1 := with_data _ app').
  destruct (restoreFromHistory_spec (item_of (heap d) ("seatArrangement", seats d, now))
              app1 eq_refl) as (Hall & Hpre & Hst & Hhist & Hptr & _ & _ & Hsel).
  split; [|done].
  unfold same_arrangement. cbn [item_of hdata fst snd] in Hall.
  unfold deepClone_seats in Hall. rewrite Forall2_fmap_l in Hall.
  eapply Forall2_impl; [exact Hall|].
  intros s s' (?&?&?&?&?&Hs). repeat (split; [done|]).
  unfold occupant_uuid. unfold compose in Hs. cbn [c_student deepClone_seat] in Hs.
  destruct (student s ≫= (heap d !!.)) as [st|].
  - destruct Hs as (p & st' & -> & Hp & Hu). cbn. rewrite Hp. cbn. by rewrite Hu.
  - by rewrite Hs.
Qed.

(** Ann is removed from her seat and the removal is undone. *)
Lemma undo_restores_recorded_arrangement_witness :
  let app := Scenario.seated in
  let app' := removeStudentFromSeat "0-0" 9 app in
  -1 ≤ historyIndex (data app) < Z.of_nat (length (history (data app))) ∧
  occupant_uuid (heap (data app')) <$> seats (data app') !! 0%nat = Some None ∧
  same_arrangement (heap (data app)) (seats (data app))
    (heap (data (app_undo app').1)) (seats (data (app_undo app').1)).
Proof.
  intros app app'.
  assert (-1 ≤ historyIndex (data app) < Z.of_nat (length (history (data app)))) as Hidx
    by (vm_compute; split; [discriminate|reflexivity]).
  assert (history (data app')
            = history (addToHistory "seatArrangement" (seats (data app)) 9 (data app)))
    as Hh by (vm_compute; reflexivity).
  assert (historyIndex (data app')
            = historyIndex (addToHistory "seatArrangement" (seats (data app)) 9 (data app)))
    as Hi by (vm_compute; reflexivity).
  split; [exact Hidx|]. split; [vm_compute; reflexivity|].
  exact (proj1 (undo_restores_recorded_arrangement (data app) 9 app' Hidx Hh Hi)).
Defined.

(** An arrangement recorded under another action (the AI assistant records
    ['aiArrangement']) is not restored: undoing it moves the pointer and
    leaves seats, students and selection as they are. *)
Theorem undo_skips_other_actions (d : SeatingData) (act : string)
    (ss : list Seat) (now : Z) (app' : SeatingApp) :
  -1 ≤ historyIndex d < Z.of_nat (length (history d)) →
  act ≠ "seatArrangement" →
  let d1 := addToHistory act ss now d in
  history (data app') = history d1 →
  historyIndex (data app') = historyIndex d1 →
  app_undo app'
    = (with_data (with_history (history (data app'))
                    (historyIndex (data app') - 1) (data app')) app', []).
Proof.
  intros Hidx Hact d1 Hh Hi.
  destruct (addToHistory_pointer act ss now d Hidx) as [_ Hitem].
  fold d1 in Hitem. rewrite <- Hh, <- Hi in Hitem.
  rewrite (app_undo_item _ _ Hitem).
  unfold restoreFromHistory. by rewrite decide_False.
Qed.

(** The assistant records the arrangement and empties Ann's seat. *)
Lemma undo_skips_other_actions_witness :
  let app := Scenario.seated in
  let d1 := addToHistory "aiArrangement" (seats (data app)) 9 (data app) in
  let app' := with_data (with_seats (write_student 0 None (seats d1)) d1) app in
  -1 ≤ historyIndex (data app) < Z.of_nat (length (history (data app))) ∧
  seats (data (app_undo app').1) = seats (data app') ∧
  historyIndex (data (app_undo app').1) = historyIndex (data app') - 1.
Proof.
  intros app d1 app'.
  assert (-1 ≤ historyIndex (data app) < Z.of_nat (length (history (data app)))) as Hidx
    by (vm_compute; split; [discriminate|reflexivity]).
  assert ("aiArrangement" ≠ "seatArrangement") as Hact by discriminate.
  assert (history (data app') = history d1) as Hh by (vm_compute; reflexivity).
  assert (historyIndex (data app') = historyIndex d1) as Hi
    by (vm_compute; reflexivity).
  split; [exact Hidx|].
  rewrite (undo_skips_other_actions (data app) "aiArrangement" (seats (data app)) 9 app'
             Hidx Hact Hh Hi).
  cbn [fst data with_data seats historyIndex with_history].
  split; reflexivity.
Defined.

(** ** One student, one seat: the single-seat operations *)

Lemma syncStudentSeatIds_occupant_uuid d s :
  occupant_uuid (heap (syncStudentSeatIds d)) s = occupant_uuid (heap d) s.
Proof.
  unfold occupant_uuid. destruct (student s) as [p|]; [|done]. cbn [mbind option_bind].
  rewrite syncStudentSeatIds_lookup.
  destruct (last_seat_of p (seats d)); [|case_decide];
    by destruct (heap d !! p) as [[]|].
Qed.

Lemma unique_occupancy_sync d :
  unique_occupancy d → unique_occupancy (syncStudentSeatIds d).
Proof.
  intros H i j si sj u Hi Hj. rewrite !syncStudentSeatIds_occupant_uuid.
  by apply H.
Qed.

(** Emptying seats or changing their flags keeps the occupancy unique. *)
Lemma unique_occupancy_shrink (d : SeatingData) (h : list Student) (ss : list Seat) :
  unique_occupancy d →
  (∀ i s', ss !! i = Some s' → occupant_uuid h s' = None ∨
      ∃ s, seats d !! i = Some s ∧ occupant_uuid h s' = occupant_uuid (heap d) s) →
  ∀ i j si sj u, ss !! i = Some si → ss !! j = Some sj →
    occupant_uuid h si = Some u → occupant_uuid h sj = Some u → i = j.
Proof.
  intros Hu Hss i j si sj u Hi Hj Hui Huj.
  destruct (Hss i si Hi) as [Hn|(s & Hs & Hes)]; [congruence|].
  destruct (Hss j sj Hj) as [Hn|(t & Ht & Het)]; [congruence|].
  apply (Hu i j s t u); congruence.
Qed.

(** [assignStudentToSeat] keeps the occupancy unique: the student leaves
    the seat they had, and the occupant of the target goes there. *)
Theorem assign_preserves_unique_occupancy (studentUuid seatId : string) (now : Z)
    (app : SeatingApp) :
  unique_occupancy (data app) →
  unique_occupancy (data (assignStudentToSeat studentUuid seatId now app)).
Proof.
  intros Hu. unfold assignStudentToSeat. cbn zeta.
  destruct (findStudentByUuid studentUuid (data app)) as [stud|] eqn:Hstud; [|done].
  destruct (findSeatById seatId (data app)) as [[ti targetSeat]|] eqn:Htarget; [|done].
  destruct (isDeleted targetSeat); [done|].
  case_bool_decide as Hsame; [done|].
  cbn [data with_data]. apply unique_occupancy_sync.
  destruct (addToHistory_frame "seatArrangement" (seats (data app)) now (data app))
    as (Hheap & _ & Hseats & _).
  set (d1 := addToHistory _ _ _ _) in *.
  set (d := data app) in *.
  intros i j si sj u. cbn [seats heap with_seats]. rewrite Hheap, Hseats.
  set (occ := occupant_uuid (heap d)).
  (* the roster object carries the uuid *)
  assert (∀ s, occ (set_student (Some stud) s) = Some studentUuid) as Hocc_stud.
  { intros s. unfold occ, occupant_uuid. destruct s; cbn.
    unfold findStudentByUuid in Hstud.
    destruct (list_find _ _) as [[k q]|] eqn:Hfind; [|done].
    cbn in Hstud. injection Hstud as ->.
    by apply list_find_Some in Hfind as (_ & ? & _). }
  assert (∀ v s, occ (set_student v s) = uuid <$> (v ≫= (heap d !!.))) as Hocc_set.
  { intros v s. by destruct s. }
  apply findSeatById_Some in Htarget as [Hti Hid].
  fold d in Hti.
  destruct (list_find _ (seats d)) as [[ci sc]|] eqn:Hcur.
  - apply list_find_Some in Hcur as (Hci & Hcu & Hfirst).
    fold (occupant_uuid (heap d) sc) in Hcu. fold occ in Hcu.
    assert (ci ≠ ti) as Hne.
    { intros ->. apply Hsame. cbn. rewrite Hti in Hci. injection Hci as <-.
      by rewrite Hid. }
    assert (∀ k s', write_student ci (student targetSeat)
                      (write_student ti (Some stud) (seats d)) !! k = Some s' →
              (k = ti ∧ occ s' = Some studentUuid) ∨
              (k = ci ∧ occ s' = occ targetSeat) ∨
              (k ≠ ti ∧ k ≠ ci ∧ seats d !! k = Some s')) as Hcases.
    { intros k s'. unfold write_student.
      destruct (decide (k = ci)) as [->|Hkc].
      - rewrite list_lookup_alter_eq, list_lookup_alter_ne, Hci by done.
        cbn. intros [= <-]. right; left. split; [done|]. by rewrite Hocc_set.
      - rewrite list_lookup_alter_ne by done.
        destruct (decide (k = ti)) as [->|Hkt].
        + rewrite list_lookup_alter_eq, Hti. cbn. intros [= <-]. by left.
        + rewrite list_lookup_alter_ne by done. by right; right. }
    intros Hi Hj Hui Huj.
    destruct (Hcases i si Hi) as [[-> Hoi]|[[-> Hoi]|(Hit & Hic & Hsi)]];
    destruct (Hcases j sj Hj) as [[-> Hoj]|[[-> Hoj]|(Hjt & Hjc & Hsj)]];
      try done.
    + (* target and previous seat *)
      exfalso. apply Hne. apply (Hu ci ti sc targetSeat studentUuid); try done.
      fold occ. congruence.
    + exfalso. apply Hjc. apply (Hu j ci sj sc studentUuid); try done.
      fold occ. congruence.
    + exfalso. apply Hne. apply (Hu ci ti sc targetSeat studentUuid); try done.
      fold occ. congruence.
    + exfalso. apply Hjt. apply (Hu j ti sj targetSeat u); try done.
      fold occ. congruence.
    + exfalso. apply Hic. apply (Hu i ci si sc studentUuid); try done.
      fold occ. congruence.
    + exfalso. apply Hit. apply (Hu i ti si targetSeat u); try done.
      fold occ. congruence.
    + by apply (Hu i j si sj u).
  - assert (∀ k s, seats d !! k = Some s → occ s ≠ Some studentUuid) as Hnone.
    { intros k s Hk. eapply list_find_None in Hcur.
      rewrite Forall_forall in Hcur. apply Hcur. by eapply list_elem_of_lookup_2. }
    assert (∀ k s', write_student ti (Some stud) (seats d) !! k = Some s' →
              (k = ti ∧ occ s' = Some studentUuid) ∨
              (k ≠ ti ∧ seats d !! k = Some s')) as Hcases.
    { intros k s'. unfold write_student.
      destruct (decide (k = ti)) as [->|Hkt].
      - rewrite list_lookup_alter_eq, Hti. cbn. intros [= <-]. by left.
      - rewrite list_lookup_alter_ne by done. by right. }
    intros Hi Hj Hui Huj.
    destruct (Hcases i si Hi) as [[-> Hoi]|(Hit & Hsi)];
    destruct (Hcases j sj Hj) as [[-> Hoj]|(Hjt & Hsj)]; try done.
    + exfalso. apply (Hnone j sj Hsj). fold occ in Huj. congruence.
    + exfalso. apply (Hnone i si Hsi). fold occ in Hui. congruence.
    + by apply (Hu i j si sj u).
Qed.

Lemma unique_occupancy_NoDup (d : SeatingData) :
  NoDup (omap (occupant_uuid (heap d)) (seats d)) → unique_occupancy d.
Proof.
  unfold unique_occupancy. generalize (occupant_uuid (heap d)) as f.
  intros f. induction (seats d) as [|s ss IH]; intros Hnd i j si sj u Hi Hj Hui Huj;
    [done|].
  assert (∀ k t, ss !! k = Some t → f t = Some u → u ∈ omap f ss) as Hin.
  { intros k t Hk Ht. apply list_elem_of_omap. exists t.
    split; [by eapply list_elem_of_lookup_2|done]. }
  cbn in Hnd.
  destruct i as [|i], j as [|j]; cbn in Hi, Hj; [done| | |].
  - injection Hi as ->. rewrite Hui in Hnd. apply NoDup_cons in Hnd as [Hn _].
    destruct Hn. by eapply Hin.
  - injection Hj as ->. rewrite Huj in Hnd. apply NoDup_cons in Hnd as [Hn _].
    destruct Hn. by eapply Hin.
  - f_equal. apply (IH ltac:(destruct (f s); [by apply NoDup_cons in Hnd as [_ ?]|done])
                      i j si sj u); done.
Qed.

(** Ann moves from [0-0] to Bob's seat [0-1]. *)
Lemma assign_preserves_unique_occupancy_witness :
  unique_occupancy (data Scenario.seated) ∧
  unique_occupancy (data (assignStudentToSeat "ua" "0-1" 5 Scenario.seated)).
Proof.
  assert (unique_occupancy (data Scenario.seated)) as H.
  { apply unique_occupancy_NoDup. apply (bool_decide_unpack _).
    vm_compute. reflexivity. }
  exact (conj H (assign_preserves_unique_occupancy "ua" "0-1" 5 _ H)).
Defined.

(** Emptying selected seats one after the other. *)
Lemma clear_fold_shrinks (d : SeatingData) (sel : list string) :
  ∀ ss, (∀ i s', ss !! i = Some s' → occupant_uuid (heap d) s' = None ∨
           ∃ s, seats d !! i = Some s ∧
                occupant_uuid (heap d) s' = occupant_uuid (heap d) s) →
  ∀ i s',
    foldl (λ ss seatId,
             match list_find (λ s, id s = seatId) ss with
             | Some (i, seat) => if isDeleted seat then ss else write_student i None ss
             | None => ss
             end) ss sel !! i = Some s' →
    occupant_uuid (heap d) s' = None ∨
    ∃ s, seats d !! i = Some s ∧ occupant_uuid (heap d) s' = occupant_uuid (heap d) s.
Proof.
  induction sel as [|x sel IH]; intros ss Hss; [exact Hss|].
  cbn [foldl]. apply IH.
  destruct (list_find _ ss) as [[k seat]|]; [|exact Hss].
  destruct (isDeleted seat); [exact Hss|].
  intros i s'. unfold write_student.
  destruct (decide (i = k)) as [->|Hne].
  - rewrite list_lookup_alter_eq. destruct (ss !! k) as [t|]; [|done].
    cbn. intros [= <-]. left. by destruct t.
  - rewrite list_lookup_alter_ne by done. apply Hss.
Qed.

(** The operations that only empty seats or flag them keep the occupancy
    unique: [removeStudentFromSeat], [deleteSeat], [clearAllSeats],
    [clearSelectedSeats], [deleteStudent] and [clearAllStudents]. *)
Theorem removals_preserve_unique_occupancy (app : SeatingApp) :
  unique_occupancy (data app) →
  (∀ seatId now, unique_occupancy (data (removeStudentFromSeat seatId now app))) ∧
  (∀ seatId now, unique_occupancy (data (deleteSeat seatId now app))) ∧
  (∀ confirmed now, unique_occupancy (data (clearAllSeats confirmed now app))) ∧
  (∀ confirmed now, unique_occupancy (data (clearSelectedSeats confirmed now app))) ∧
  (∀ u confirmed, unique_occupancy (data (deleteStudent u confirmed app))) ∧
  (∀ confirmed now, unique_occupancy (data (clearAllStudents confirmed now app))).
Proof.
  intros Hu.
  assert (∀ i s', seats (data app) !! i = Some s' →
            occupant_uuid (heap (data app)) s' = None ∨
            ∃ s, seats (data app) !! i = Some s ∧
                 occupant_uuid (heap (data app)) s' = occupant_uuid (heap (data app)) s)
    as Hsame by (intros i s' ?; right; by exists s').
  assert (∀ k i s', write_student k None (seats (data app)) !! i = Some s' →
            occupant_uuid (heap (data app)) s' = None ∨
            ∃ s, seats (data app) !! i = Some s ∧
                 occupant_uuid (heap (data app)) s' = occupant_uuid (heap (data app)) s)
    as Hwrite.
  { intros k i s'. unfold write_student.
    destruct (decide (i = k)) as [->|Hne].
    - rewrite list_lookup_alter_eq. destruct (seats (data app) !! k) as [t|]; [|done].
      cbn. intros [= <-]. left. by destruct t.
    - rewrite list_lookup_alter_ne by done. apply Hsame. }
  split; [|split; [|split; [|split; [|split]]]].
  - intros seatId now. unfold removeStudentFromSeat. cbn zeta.
    destruct (findSeatById _ _) as [[i seat]|]; [|done].
    destruct (student seat); [|done].
    cbn [data with_data]. apply unique_occupancy_sync.
    destruct (addToHistory_frame "seatArrangement" (seats (data app)) now (data app))
      as (Hheap & _ & Hseats & _).
    unfold unique_occupancy. cbn [seats heap with_seats]. rewrite Hheap, Hseats.
    apply (unique_occupancy_shrink (data app)); [done|apply Hwrite].
  - intros seatId now. unfold deleteSeat. cbn zeta.
    destruct (findSeatById _ _) as [[i seat]|]; [|done].
    destruct (student seat); [done|].
    destruct (addToHistory_frame "seatArrangement" (seats (data app)) now (data app))
      as (Hheap & _ & Hseats & _).
    unfold unique_occupancy. cbn [data with_data seats heap with_seats].
    rewrite Hheap, Hseats.
    apply (unique_occupancy_shrink (data app)); [done|].
    intros k s'. destruct (decide (k = i)) as [->|Hne].
    + rewrite list_lookup_alter_eq.
      destruct (seats (data app) !! i) as [t|] eqn:Ht; [|done].
      cbn. intros [= <-]. right. exists t. split; [done|]. by destruct t.
    + rewrite list_lookup_alter_ne by done. apply Hsame.
  - intros [] now; [|done]. unfold clearAllSeats.
    destruct (addToHistory_frame "seatArrangement" (seats (data app)) now (data app))
      as (Hheap & _ & Hseats & _).
    unfold unique_occupancy. cbn [data with_data seats heap with_seats].
    rewrite Hheap, Hseats.
    apply (unique_occupancy_shrink (data app)); [done|].
    intros k s'. rewrite list_lookup_fmap.
    destruct (seats (data app) !! k) as [t|]; [|done].
    cbn. intros [= <-]. left. by destruct t.
  - intros confirmed now. unfold clearSelectedSeats.
    destruct (selectedSeats app) as [|x sel] eqn:Hsel; [done|].
    destruct confirmed; [|done]. cbn zeta.
    destruct (addToHistory_frame "seatArrangement" (seats (data app)) now (data app))
      as (Hheap & _ & Hseats & _).
    unfold unique_occupancy, clearSelection.
    cbn [data with_data with_selection seats heap with_seats].
    rewrite Hheap, Hseats.
    apply (unique_occupancy_shrink (data app)); [done|].
    apply clear_fold_shrinks, Hsame.
  - intros u [] ; [|done]. unfold deleteStudent. cbn zeta.
    cbn [data with_data]. apply unique_occupancy_sync.
    unfold unique_occupancy. cbn [seats heap with_seats with_students].
    apply (unique_occupancy_shrink (data app)); [done|].
    destruct (list_find _ _) as [[i ?]|]; [apply Hwrite|apply Hsame].
  - intros [] now; [|done]. unfold clearAllStudents.
    cbn [data with_data]. apply unique_occupancy_sync.
    destruct (addToHistory_frame "seatArrangement" (seats (data app)) now (data app))
      as (Hheap & _ & Hseats & _).
    unfold unique_occupancy. cbn [seats heap with_seats with_students].
    rewrite Hheap, Hseats.
    apply (unique_occupancy_shrink (data app)); [done|].
    intros k s'. rewrite list_lookup_fmap.
    destruct (seats (data app) !! k) as [t|]; [|done].
    cbn. intros [= <-]. left. by destruct t.
Qed.

(** The class of the scenario, with two seats selected. *)
Lemma removals_preserve_unique_occupancy_witness :
  unique_occupancy (data Scenario.two_selected) ∧
  unique_occupancy (data (clearSelectedSeats true 9 Scenario.two_selected)) ∧
  unique_occupancy (data (deleteStudent "ub" true Scenario.two_selected)).
Proof.
  assert (unique_occupancy (data Scenario.two_selected)) as H.
  { apply unique_occupancy_NoDup. apply (bool_decide_unpack _).
    vm_compute. reflexivity. }
  pose proof (removals_preserve_unique_occupancy Scenario.two_selected H)
    as (_ & _ & _ & Hc & Hd & _).
  exact (conj H (conj (Hc true 9) (Hd "ub" true))).
Defined.

(** ** Batch replacement *)

(** [executeReplaceSelectedSeats] keeps the occupancy unique when, as the
    dialog arranges, the students moved in are distinct and none of them is
    seated. *)
Theorem replace_preserves_unique_occupancy (replacements : list (string * string))
    (now : Z) (app : SeatingApp) :
  unique_occupancy (data app) →
  NoDup (fst <$> replacements) →
  (∀ r k s, r ∈ replacements → seats (data app) !! k = Some s →
            occupant_uuid (heap (data app)) s ≠ Some r.1) →
  unique_occupancy (data (executeReplaceSelectedSeats replacements now app)).
Proof.
  intros Hu Hnd Hfree. unfold executeReplaceSelectedSeats, clearSelection.
  cbn zeta. cbn [data with_data with_selection]. apply unique_occupancy_sync.
  destruct (addToHistory_frame "seatArrangement" (seats (data app)) now (data app))
    as (Hheap & Hstud & Hseats & _).
  set (d1 := addToHistory _ _ _ _) in *. set (d := data app) in *.
  unfold unique_occupancy. cbn [seats heap with_seats]. rewrite Hheap, Hseats.
  set (occ := occupant_uuid (heap d)).
  fold occ in Hfree. unfold unique_occupancy in Hu. fold occ in Hu.
  revert Hu Hfree. generalize (seats d) as ss.
  induction replacements as [|r rs IH]; intros ss Hu Hfree; [exact Hu|].
  cbn [foldl]. rewrite fmap_cons in Hnd. apply NoDup_cons in Hnd as [Hr Hnd].
  assert (∀ r' k s, r' ∈ rs → ss !! k = Some s → occ s ≠ Some r'.1) as Hfree'.
  { intros r' k s Hin. apply Hfree. by apply elem_of_cons; right. }
  assert (replace_step d1 ss r = ss ∨
          ∃ ti p, replace_step d1 ss r = write_student ti (Some p) ss ∧
                  findStudentByUuid r.1 d1 = Some p) as [->|(ti & p & -> & Hp)];
    [|by apply IH|].
  { unfold replace_step.
    destruct (list_find _ ss) as [[ti targetSeat]|]; [|by left].
    destruct (findStudentByUuid r.1 d1) as [p|]; [|by left].
    destruct (isDeleted targetSeat); [by left|]. right. by exists ti, p. }
  assert (∀ s, occ (set_student (Some p) s) = Some r.1) as Hocc.
  { intros s. unfold occ, occupant_uuid. destruct s; cbn.
    unfold findStudentByUuid in Hp. rewrite Hheap, Hstud in Hp.
    destruct (list_find _ (students d)) as [[k q]|] eqn:Hfind; [|done].
    cbn in Hp. injection Hp as ->.
    by apply list_find_Some in Hfind as (_ & ? & _). }
  assert (∀ k s', write_student ti (Some p) ss !! k = Some s' →
            (k = ti ∧ occ s' = Some r.1) ∨ (k ≠ ti ∧ ss !! k = Some s')) as Hcases.
  { intros k s'. unfold write_student.
    destruct (decide (k = ti)) as [->|Hkt].
    - rewrite list_lookup_alter_eq. destruct (ss !! ti); [|done].
      cbn. intros [= <-]. by left.
    - rewrite list_lookup_alter_ne by done. by right. }
  apply IH; [done| |].
  - intros i j si sj u Hi Hj Hui Huj.
    destruct (Hcases i si Hi) as [[-> Hoi]|[Hit Hsi]];
    destruct (Hcases j sj Hj) as [[-> Hoj]|[Hjt Hsj]]; try done.
    + exfalso. apply (Hfree r j sj); [by apply elem_of_cons; left|done|congruence].
    + exfalso. apply (Hfree r i si); [by apply elem_of_cons; left|done|congruence].
    + by apply (Hu i j si sj u).
  - intros r' k s Hin Hk.
    destruct (Hcases k s Hk) as [[-> Ho]|[Hkt Hs]]; [|by eapply Hfree'].
    rewrite Ho. intros [= Heq]. apply Hr. rewrite Heq.
    apply list_elem_of_fmap. by exists r'.
Qed.

(** Cid is taken out of his seat; he then replaces Ann at [0-0]. *)
Lemma replace_preserves_unique_occupancy_witness :
  let app := removeStudentFromSeat "1-0" 8 Scenario.two_selected in
  unique_occupancy (data app) ∧
  unique_occupancy (data (executeReplaceSelectedSeats [("uc", "0-0")] 9 app)) ∧
  occupant_uuid (heap (data (executeReplaceSelectedSeats [("uc", "0-0")] 9 app)))
    <$> seats (data (executeReplaceSelectedSeats [("uc", "0-0")] 9 app)) !! 0%nat
    = Some (Some "uc").
Proof.
  intros app.
  assert (unique_occupancy (data app)) as H.
  { apply unique_occupancy_NoDup. apply (bool_decide_unpack _).
    vm_compute. reflexivity. }
  assert (NoDup (fst <$> [("uc", "0-0")])) as Hnd.
  { apply (bool_decide_unpack _). vm_compute. reflexivity. }
  assert (∀ (r : string * string) k s, r ∈ [("uc", "0-0")] →
            seats (data app) !! k = Some s →
            occupant_uuid (heap (data app)) s ≠ Some r.1) as Hfree.
  { intros r k s ->%list_elem_of_singleton Hk Ho.
    assert ("uc" ∈ omap (occupant_uuid (heap (data app))) (seats (data app))) as Hin.
    { apply list_elem_of_omap. exists s. split; [by eapply list_elem_of_lookup_2|exact Ho]. }
    revert Hin. apply (bool_decide_unpack _). vm_compute. reflexivity. }
  split; [exact H|]. split; [|vm_compute; reflexivity].
  exact (replace_preserves_unique_occupancy [("uc", "0-0")] 9 app H Hnd Hfree).
Defined.

(** ** Selection *)

Lemma elem_of_set_add x y s : y ∈ Js.set_add x s ↔ y = x ∨ y ∈ s.
Proof.
  unfold Js.set_add, Js.set_has. case_bool_decide.
  - split; [by right|]. by intros [->|?].
  - rewrite elem_of_app, list_elem_of_singleton. tauto.
Qed.

Lemma NoDup_set_add x s : NoDup s → NoDup (Js.set_add x s).
Proof.
  intros Hs. unfold Js.set_add, Js.set_has. case_bool_decide; [done|].
  apply NoDup_app. split; [done|]. split; [|apply NoDup_singleton].
  by intros y Hy ->%list_elem_of_singleton.
Qed.

(** [selectAllSeats] selects the ids of the seats that are not deleted, and
    nothing else, whatever was selected before; the store is not touched. *)
Theorem selectAllSeats_selects_active (app : SeatingApp) :
  let app' := selectAllSeats app in
  data app' = data app ∧
  NoDup (selectedSeats app') ∧
  ∀ x, x ∈ selectedSeats app' ↔
       ∃ s, s ∈ seats (data app) ∧ isDeleted s = false ∧ id s = x.
Proof.
  cbn zeta. split; [done|]. unfold selectAllSeats. cbn [selectedSeats with_selection].
  induction (seats (data app)) as [|s ss [IHnd IH]] using rev_ind.
  - split; [constructor|]. intros x. split; [by intros ?%elem_of_nil|].
    by intros (s & ?%elem_of_nil & _).
  - rewrite foldl_app. cbn [foldl]. destruct (isDeleted s) eqn:Hdel.
    + split; [done|]. intros x. rewrite IH. split.
      * intros (t & Ht & ?). exists t. split; [|done]. apply elem_of_app. by left.
      * intros (t & [Ht| ->%list_elem_of_singleton]%elem_of_app & Hd & Hid);
          [by exists t|congruence].
    + split; [by apply NoDup_set_add|]. intros x. rewrite elem_of_set_add, IH. split.
      * intros [->|(t & Ht & ?)].
        -- exists s. split; [|done]. apply elem_of_app. right. by apply list_elem_of_singleton.
        -- exists t. split; [|done]. apply elem_of_app. by left.
      * intros (t & [Ht| ->%list_elem_of_singleton]%elem_of_app & Hd & Hid);
          [right; by exists t|by left].
Qed.

Lemma toggle_selection seatId clearOthers app :
  data (toggleSeatSelection seatId clearOthers app) = data app ∧
  selectedSeats (toggleSeatSelection seatId clearOthers app)
    = if bool_decide (seatId ∈ selectedSeats app)
      then Js.set_delete seatId (selectedSeats app)
      else Js.set_add seatId (if clearOthers then [] else selectedSeats app).
Proof.
  unfold toggleSeatSelection, clearSelection, Js.set_has.
  destruct (decide (seatId ∈ selectedSeats app)) as [Hin|Hnin].
  - rewrite !(bool_decide_eq_true_2 _ Hin). cbn [negb]. rewrite andb_false_r.
    by rewrite (bool_decide_eq_true_2 _ Hin).
  - rewrite !(bool_decide_eq_false_2 _ Hnin). cbn [negb]. rewrite andb_true_r.
    destruct clearOthers.
    + cbn [selectedSeats with_selection].
      by rewrite bool_decide_eq_false_2 by (by intros ?%elem_of_nil).
    + by rewrite (bool_decide_eq_false_2 _ Hnin).
Qed.

(** Toggling a seat twice without the exclusive flag gives back the same
    set of selected seats. With the flag, the second toggle clears the
    others: a seat that was selected ends up selected alone, and nothing is
    selected when it was not. *)
Theorem toggle_twice (seatId : string) (app : SeatingApp) :
  let plain := toggleSeatSelection seatId false (toggleSeatSelection seatId false app) in
  let exclusive := toggleSeatSelection seatId true (toggleSeatSelection seatId true app) in
  data plain = data app ∧ data exclusive = data app ∧
  (∀ y, y ∈ selectedSeats plain ↔ y ∈ selectedSeats app) ∧
  selectedSeats exclusive
    = if bool_decide (seatId ∈ selectedSeats app) then [seatId] else [].
Proof.
  cbn zeta.
  assert (seatId ∉ Js.set_delete seatId (selectedSeats app)) as Hgone.
  { unfold Js.set_delete. rewrite list_elem_of_filter. tauto. }
  assert (∀ l, seatId ∉ l → Js.set_add seatId l = l ++ [seatId]) as Hadd.
  { intros l Hl. unfold Js.set_add, Js.set_has. by rewrite bool_decide_eq_false_2. }
  assert (∀ l, seatId ∉ l → Js.set_delete seatId (l ++ [seatId]) = l) as Hdel.
  { intros l Hl. unfold Js.set_delete.
    rewrite filter_app, filter_cons_False, filter_nil, app_nil_r by tauto.
    induction l as [|z l IH]; [done|].
    rewrite filter_cons_True.
    - f_equal. apply IH. intros ?. apply Hl. by apply elem_of_cons; right.
    - intros ->. apply Hl. by apply elem_of_cons; left. }
  split; [|split; [|split]].
  - by rewrite (proj1 (toggle_selection _ _ _)), (proj1 (toggle_selection _ _ _)).
  - by rewrite (proj1 (toggle_selection _ _ _)), (proj1 (toggle_selection _ _ _)).
  - intros y.
    rewrite (proj2 (toggle_selection _ _ _)), (proj2 (toggle_selection seatId false app)).
    destruct (decide (seatId ∈ selectedSeats app)) as [Hin|Hnin].
    + rewrite (bool_decide_eq_true_2 _ Hin), (bool_decide_eq_false_2 _ Hgone).
      rewrite elem_of_set_add. unfold Js.set_delete. rewrite list_elem_of_filter.
      destruct (decide (y = seatId)) as [->|]; tauto.
    + rewrite (bool_decide_eq_false_2 _ Hnin), Hadd by done.
      rewrite bool_decide_eq_true_2
        by (apply elem_of_app; right; by apply list_elem_of_singleton).
      by rewrite Hdel.
  - rewrite (proj2 (toggle_selection _ _ _)), (proj2 (toggle_selection seatId true app)).
    destruct (decide (seatId ∈ selectedSeats app)) as [Hin|Hnin].
    + rewrite (bool_decide_eq_true_2 _ Hin), (bool_decide_eq_false_2 _ Hgone).
      apply (Hadd []). by intros ?%elem_of_nil.
    + rewrite (bool_decide_eq_false_2 _ Hnin), (Hadd []) by (by intros ?%elem_of_nil).
      cbn [List.app].
      rewrite bool_decide_eq_true_2 by (by apply list_elem_of_singleton).
      apply (Hdel []). by intros ?%elem_of_nil.
Qed.

(** ** Roster *)

Lemma uuid_set_seatId_fmap v (o : option Student) :
  uuid <$> (set_seatId v <$> o) = uuid <$> o.
Proof. by destruct o as [[]|]. Qed.



(** An edit id that is absent or empty makes [saveStudent] add a student. *)
Lemma saveStudent_empty_editId fresh nm num gen hgt nts app :
  saveStudent (Some "") fresh nm num gen hgt nts app
    = saveStudent None fresh nm num gen hgt nts app.
Proof. reflexivity. Qed.



(** ** Rotation *)

(** Writing the occupants [vs] back into the seats [idx]. *)
Lemma write_back_lookup (vs : list (option loc)) (idx : list nat) : ∀ ss : list Seat,
  NoDup idx →
  let ss' := foldl (λ ss ix, write_student ix.2 (default None (vs !! ix.1)) ss)
                   ss (imap pair idx) in
  length ss' = length ss ∧
  (∀ k, k ∉ idx → ss' !! k = ss !! k) ∧
  (∀ j i, idx !! j = Some i →
          ss' !! i = set_student (default None (vs !! j)) <$> ss !! i).
Proof.
  induction idx as [|i idx IH] using rev_ind; intros ss Hnd; cbn zeta.
  - split; [done|]. split; [done|]. intros j i. by rewrite lookup_nil.
  - apply NoDup_app in Hnd as (Hnd & Hdisj & _).
    destruct (IH ss Hnd) as (Hlen & Hout & Hin).
    rewrite imap_app, foldl_app. cbn [imap foldl fst snd compose].
    rewrite Nat.add_0_r. unfold write_student at 1 3 5.
    split; [by rewrite length_alter|]. split.
    + intros k Hk. rewrite list_lookup_alter_ne.
      * apply Hout. intros ?. apply Hk, elem_of_app. by left.
      * intros ->. apply Hk, elem_of_app. right. by apply list_elem_of_singleton.
    + intros j k Hj. destruct (decide (j < length idx)%nat) as [Hlt|Hge].
      * rewrite lookup_app_l in Hj by done.
        rewrite list_lookup_alter_ne; [by apply Hin|].
        intros ->. eapply Hdisj; [by eapply list_elem_of_lookup_2|].
        by apply list_elem_of_singleton.
      * rewrite lookup_app_r in Hj by lia.
        destruct (j - length idx)%nat as [|?] eqn:Hd; [|done].
        cbn in Hj. injection Hj as ->.
        assert (j = length idx) as -> by lia.
        rewrite list_lookup_alter_eq, Hout.
        -- destruct (ss !! k) as [s|]; [|done]. cbn. by destruct s.
        -- intros ?. by eapply Hdisj; [|apply list_elem_of_singleton].
Qed.

Lemma rotate_lookup (direction : Z) (l : list (option loc)) (j : nat) :
  (j < length l)%nat →
  (if decide (direction > 0) then rotate_right l else rotate_left l) !! j
    = l !! rotated_from direction (length l) j.
Proof.
  intros Hj. unfold rotated_from, rotate_right, rotate_left. case_decide.
  - case_decide as H0.
    + subst j. cbn. rewrite last_lookup.
      replace (pred (length l)) with (length l - 1)%nat by lia.
      destruct (lookup_lt_is_Some_2 l (length l - 1)%nat ltac:(lia)) as [x Hx].
      by rewrite Hx.
    + destruct j as [|j]; [done|].
      change (take (length l - 1) l !! j = l !! (S j - 1)%nat).
      rewrite lookup_take_lt by lia. f_equal. lia.
  - case_decide as Hn.
    + rewrite lookup_app_r by (rewrite length_drop; lia).
      rewrite length_drop. replace (j - (length l - 1))%nat with 0%nat by lia.
      cbn. rewrite head_lookup.
      destruct (lookup_lt_is_Some_2 l 0%nat ltac:(lia)) as [x Hx]. by rewrite Hx.
    + rewrite lookup_app_l by (rewrite length_drop; lia).
      rewrite lookup_drop. f_equal. lia.
Qed.

Lemma rotated_from_lt direction n j : (j < n)%nat → (rotated_from direction n j < n)%nat.
Proof. unfold rotated_from. intros. repeat case_decide; lia. Qed.

Lemma rotated_from_inj direction n j j' :
  (j < n)%nat → (j' < n)%nat →
  rotated_from direction n j = rotated_from direction n j' → j = j'.
Proof. unfold rotated_from. intros. repeat case_decide; lia. Qed.

(** One line: the occupants are permuted among the seats of the line, and
    nothing else changes. *)
Lemma rotate_group_spec (along : Seat → Z) (direction : Z) (ss : list Seat)
    (group : list nat) :
  NoDup group → (∀ i, i ∈ group → (i < length ss)%nat) →
  let ss' := rotate_group along direction ss group in
  length ss' = length ss ∧
  student <$> ss' ≡ₚ student <$> ss ∧
  (∀ k s', ss' !! k = Some s' →
     ∃ s, ss !! k = Some s ∧ frame s' = frame s ∧ (k ∉ group → s' = s)).
Proof.
  intros Hnd Hvalid. unfold rotate_group. cbn zeta.
  set (sorted := Js.sort _ group).
  assert (sorted ≡ₚ group) as Hperm by apply sort_Permutation.
  assert (NoDup sorted) as Hnds by (by rewrite Hperm).
  assert (∀ i, i ∈ sorted → (i < length ss)%nat) as Hvs
    by (intros i; rewrite Hperm; apply Hvalid).
  set (studs := (λ ref, student (ss !!! ref)) <$> sorted).
  set (studs' := if decide (direction > 0) then _ else _).
  destruct (write_back_lookup studs' sorted ss Hnds) as (Hlen & Hout & Hin).
  set (ss' := foldl _ ss _) in *.
  assert (∀ j i, sorted !! j = Some i →
            studs' !! j = Some (student (ss !!! (sorted !!!
                             rotated_from direction (length sorted) j)))) as Hst.
  { intros j i Hj. apply lookup_lt_Some in Hj as Hlt.
    unfold studs'. rewrite rotate_lookup by (unfold studs; by rewrite length_fmap).
    unfold studs. rewrite length_fmap, list_lookup_fmap.
    rewrite list_lookup_lookup_total_lt by (by apply rotated_from_lt). done. }
  split; [exact Hlen|]. split.
  - apply Permutation_inj. split; [by rewrite !length_fmap|].
    exists (λ k, match list_find (λ x, x = k) sorted with
                 | Some (j, _) => sorted !!! rotated_from direction (length sorted) j
                 | None => k
                 end).
    split.
    + intros k k' Heq.
      destruct (list_find (λ x, x = k) sorted) as [[j x]|] eqn:Hk;
      destruct (list_find (λ x, x = k') sorted) as [[j' x']|] eqn:Hk'.
      * apply list_find_Some in Hk as (Hj & -> & _).
        apply list_find_Some in Hk' as (Hj' & -> & _).
        apply lookup_lt_Some in Hj as Hlt. apply lookup_lt_Some in Hj' as Hlt'.
        assert (j = j') as <-; [|congruence].
        apply (rotated_from_inj direction (length sorted)); [done..|].
        eapply (NoDup_lookup sorted); [done| |].
        -- apply list_lookup_lookup_total_lt. by apply rotated_from_lt.
        -- rewrite Heq. apply list_lookup_lookup_total_lt. by apply rotated_from_lt.
      * apply list_find_Some in Hk as (Hj & -> & _). apply lookup_lt_Some in Hj as Hlt.
        eapply list_find_None in Hk'. rewrite Forall_forall in Hk'.
        destruct (Hk' k'); [|done]. rewrite <- Heq.
        apply list_elem_of_lookup_total_2. by apply rotated_from_lt.
      * apply list_find_Some in Hk' as (Hj & -> & _). apply lookup_lt_Some in Hj as Hlt.
        eapply list_find_None in Hk. rewrite Forall_forall in Hk.
        destruct (Hk k); [|done]. rewrite Heq.
        apply list_elem_of_lookup_total_2. by apply rotated_from_lt.
      * done.
    + intros k. rewrite !list_lookup_fmap.
      destruct (list_find (λ x, x = k) sorted) as [[j x]|] eqn:Hk.
      * apply list_find_Some in Hk as (Hj & -> & _). apply lookup_lt_Some in Hj as Hlt.
        rewrite (Hin j k Hj), (Hst j k Hj).
        destruct (lookup_lt_is_Some_2 ss k) as [s Hs];
          [apply Hvs; by eapply list_elem_of_lookup_2|].
        rewrite Hs. cbn.
        rewrite list_lookup_lookup_total_lt; [by destruct s|].
        apply Hvs, list_elem_of_lookup_total_2. by apply rotated_from_lt.
      * eapply list_find_None in Hk. rewrite Forall_forall in Hk.
        rewrite Hout; [done|]. intros Hin'. by apply (Hk k).
  - intros k s' Hk. destruct (decide (k ∈ sorted)) as [Hks|Hks].
    + apply list_elem_of_lookup_1 in Hks as [j Hj].
      rewrite (Hin j k Hj) in Hk.
      destruct (ss !! k) as [s|]; [|done]. cbn in Hk. injection Hk as <-.
      exists s. split; [done|]. split; [by destruct s|].
      intros Hng. destruct Hng. rewrite <- Hperm. by eapply list_elem_of_lookup_2.
    + rewrite (Hout k Hks) in Hk. by exists s'.
Qed.

Lemma elem_of_group_push k ref groups g :
  g ∈ (snd <$> group_push k ref groups) →
  g = [ref] ∨ (∃ g0, g0 ∈ (snd <$> groups) ∧ g = g0 ++ [ref]) ∨ g ∈ (snd <$> groups).
Proof.
  induction groups as [|[k' refs] rest IH]; cbn [group_push].
  - intros ->%list_elem_of_singleton. by left.
  - case_decide.
    + rewrite !fmap_cons, !elem_of_cons. cbn [snd]. intros [->|Hin].
      * right; left. exists refs. split; [by left|done].
      * right; right. by right.
    + rewrite !fmap_cons, !elem_of_cons. cbn [snd]. intros [->|Hin].
      * right; right. by left.
      * destruct (IH Hin) as [?|[(g0 & ? & ?)|?]]; [by left| |].
        -- right; left. exists g0. split; [by right|done].
        -- right; right. by right.
Qed.

Lemma group_by_groups (key : Seat → Z) (ss : list Seat) (refs : list nat) :
  NoDup refs →
  ∀ g, g ∈ (snd <$> group_by key ss refs) → NoDup g ∧ ∀ x, x ∈ g → x ∈ refs.
Proof.
  unfold group_by. induction refs as [|r refs IH] using rev_ind; intros Hnd g.
  - cbn. by intros ?%elem_of_nil.
  - apply NoDup_app in Hnd as (Hnd & Hdisj & _).
    rewrite foldl_app. cbn [foldl].
    intros [->|[(g0 & Hg0 & ->)|Hg]]%elem_of_group_push.
    + split; [apply NoDup_singleton|].
      intros x ->%list_elem_of_singleton. apply elem_of_app. right.
      by apply list_elem_of_singleton.
    + destruct (IH Hnd g0 Hg0) as [Hnd0 Hsub]. split.
      * apply NoDup_app. split; [done|]. split; [|apply NoDup_singleton].
        intros x Hx ->%list_elem_of_singleton.
        eapply Hdisj; [by apply Hsub|]. by apply list_elem_of_singleton.
      * intros x [?| ->%list_elem_of_singleton]%elem_of_app; apply elem_of_app;
          [left; by apply Hsub|right; by apply list_elem_of_singleton].
    + destruct (IH Hnd g Hg) as [Hnd0 Hsub]. split; [done|].
      intros x ?. apply elem_of_app. left. by apply Hsub.
Qed.

Lemma elem_of_object_values groups g :
  g ∈ object_values groups → g ∈ (snd <$> groups).
Proof.
  unfold object_values. intros (x & -> & Hx)%list_elem_of_fmap.
  apply list_elem_of_fmap. exists x. split; [done|].
  apply elem_of_app in Hx as [Hx|Hx].
  - rewrite sort_Permutation in Hx. by apply list_elem_of_filter in Hx as [_ ?].
  - by apply list_elem_of_filter in Hx as [_ ?].
Qed.

Lemma imap_pair_fst {A} (l : list A) : (imap pair l).*1 = seq 0 (length l).
Proof.
  induction l as [|x l IH] using rev_ind; [done|].
  rewrite imap_app, fmap_app, IH, length_app, seq_app. cbn. by rewrite Nat.add_0_r.
Qed.

Lemma activeSeatRefs_spec (ss : list Seat) :
  NoDup (activeSeatRefs ss) ∧
  ∀ i, i ∈ activeSeatRefs ss → ∃ s, ss !! i = Some s ∧ isDeleted s = false.
Proof.
  unfold activeSeatRefs. split.
  - eapply sublist_NoDup; [|apply fmap_sublist, sublist_filter].
    rewrite imap_pair_fst. apply NoDup_seq.
  - intros i ([j s] & -> & [Hdel Hin]%list_elem_of_filter)%list_elem_of_fmap.
    apply elem_of_lookup_imap in Hin as (j' & s' & [= -> ->] & Hs).
    by exists s'.
Qed.

(** All the lines, one after the other. *)
Lemma rotate_fold_spec (along : Seat → Z) (direction : Z) (refs : list nat)
    (G : list (list nat)) : ∀ ss : list Seat,
  (∀ g, g ∈ G → NoDup g ∧ ∀ x, x ∈ g → x ∈ refs) →
  (∀ x, x ∈ refs → (x < length ss)%nat) →
  let ss' := foldl (rotate_group along direction) ss G in
  length ss' = length ss ∧
  student <$> ss' ≡ₚ student <$> ss ∧
  (∀ k s', ss' !! k = Some s' →
     ∃ s, ss !! k = Some s ∧ frame s' = frame s ∧ (k ∉ refs → s' = s)).
Proof.
  induction G as [|g G IH]; intros ss HG Hvalid; cbn zeta.
  - split; [done|]. split; [done|]. intros k s' ?. by exists s'.
  - cbn [foldl].
    destruct (HG g ltac:(by left)) as [Hnd Hsub].
    destruct (rotate_group_spec along direction ss g Hnd) as (Hlen1 & Hperm1 & Hfr1).
    { intros i Hi. by apply Hvalid, Hsub. }
    set (ss1 := rotate_group along direction ss g) in *.
    destruct (IH ss1) as (Hlen2 & Hperm2 & Hfr2).
    { intros g' Hg'. apply HG. by right. }
    { intros x Hx. rewrite Hlen1. by apply Hvalid. }
    split; [congruence|]. split; [by rewrite Hperm2|].
    intros k s' Hk. destruct (Hfr2 k s' Hk) as (s1 & Hk1 & Hf2 & Hout2).
    destruct (Hfr1 k s1 Hk1) as (s & Hks & Hf1 & Hout1).
    exists s. split; [done|]. split; [congruence|].
    intros Hnot. rewrite (Hout2 Hnot). apply Hout1. intros ?. by apply Hnot, Hsub.
Qed.

Lemma NoDup_unique_occupancy (d : SeatingData) :
  unique_occupancy d → NoDup (omap (occupant_uuid (heap d)) (seats d)).
Proof.
  unfold unique_occupancy. generalize (occupant_uuid (heap d)) as f. intros f.
  induction (seats d) as [|s ss IH]; intros Hu; [constructor|].
  assert (NoDup (omap f ss)) as Hnd.
  { apply IH. intros i j si sj u Hi Hj Hui Huj.
    apply (inj S). by apply (Hu (S i) (S j) si sj u). }
  cbn. destruct (f s) as [u|] eqn:Hfs; [|done].
  apply NoDup_cons. split; [|done].
  intros (t & Ht & Hft)%list_elem_of_omap.
  apply list_elem_of_lookup_1 in Ht as [j Hj].
  by specialize (Hu 0%nat (S j) s t u eq_refl Hj Hfs Hft).
Qed.

(** Rotation permutes the occupants: no student is lost or duplicated; the
    seats keep their identifiers, coordinates and flags, and a deleted seat
    keeps what it holds. *)
Theorem rotateSeats_permutes_occupants (direction : string) (now : Z)
    (app : SeatingApp) :
  let app' := rotateSeats direction now app in
  student <$> seats (data app') ≡ₚ student <$> seats (data app) ∧
  length (seats (data app')) = length (seats (data app)) ∧
  (∀ k s', seats (data app') !! k = Some s' →
     ∃ s, seats (data app) !! k = Some s ∧ frame s' = frame s ∧
          (isDeleted s = true → s' = s)) ∧
  (unique_occupancy (data app) → unique_occupancy (data app')).
Proof.
  cbn zeta. unfold rotateSeats. cbn zeta. cbn [data with_data].
  destruct (addToHistory_frame "seatArrangement" (seats (data app)) now (data app))
    as (Hheap & _ & Hseats & _).
  set (d1 := addToHistory _ _ _ _) in *. set (d := data app) in *.
  set (ss' := if decide (direction = "rowLeft") then _ else _).
  change (seats (syncStudentSeatIds (with_seats ss' d1))) with ss'.
  destruct (activeSeatRefs_spec (seats d)) as [Hnd Hact].
  assert (length ss' = length (seats d) ∧
          student <$> ss' ≡ₚ student <$> seats d ∧
          (∀ k s', ss' !! k = Some s' →
             ∃ s, seats d !! k = Some s ∧ frame s' = frame s ∧
                  (k ∉ activeSeatRefs (seats d) → s' = s))) as (Hlen & Hperm & Hfr).
  { assert (∀ along key dir,
              let r := foldl (rotate_group along dir) (seats d)
                         (object_values (group_by key (seats d)
                                           (activeSeatRefs (seats d)))) in
              length r = length (seats d) ∧
              student <$> r ≡ₚ student <$> seats d ∧
              (∀ k s', r !! k = Some s' →
                 ∃ s, seats d !! k = Some s ∧ frame s' = frame s ∧
                      (k ∉ activeSeatRefs (seats d) → s' = s))) as Hrot.
    { intros along key dir. apply rotate_fold_spec.
      - intros g Hg. apply (group_by_groups key (seats d)); [done|].
        by apply elem_of_object_values.
      - intros x (s & Hs & _)%Hact. by eapply lookup_lt_Some. }
    subst ss'. rewrite Hseats. unfold rotateRows, rotateCols.
    repeat case_decide; try apply Hrot.
    split; [done|]. split; [done|]. intros k s' ?. by exists s'. }
  split; [exact Hperm|]. split; [exact Hlen|]. split.
  - intros k s' Hk. destruct (Hfr k s' Hk) as (s & Hs & Hf & Hout).
    exists s. split; [done|]. split; [done|]. intros Hdel. apply Hout.
    intros (t & Ht & Hdt)%Hact. congruence.
  - intros Hu. apply unique_occupancy_sync. apply unique_occupancy_NoDup.
    cbn [seats heap with_seats]. rewrite Hheap.
    apply NoDup_unique_occupancy in Hu.
    assert (∀ l : list Seat, omap (occupant_uuid (heap d)) l
              = omap (λ o, uuid <$> (o ≫= (heap d !!.))) (student <$> l)) as Homap.
    { intros l. induction l as [|x l IHl]; [done|]. cbn. unfold occupant_uuid at 1.
      by rewrite IHl. }
    rewrite Homap in Hu |- *. by rewrite Hperm.
Qed.

(** ** Clearing seats *)

Lemma frame_set_student v s : frame (set_student v s) = frame s.
Proof. by destruct s. Qed.

Lemma frame_id s s' : frame s' = frame s → id s' = id s ∧ isDeleted s' = isDeleted s.
Proof. destruct s, s'. unfold frame. cbn. by intros [= -> _ _ _ ->]. Qed.

(** The loop of [clearSelectedSeats]. *)
Lemma clear_fold_spec (sel : list string) : ∀ ss : list Seat,
  let ss' := foldl (λ ss seatId,
                      match list_find (λ s, id s = seatId) ss with
                      | Some (i, seat) =>
                          if isDeleted seat then ss else write_student i None ss
                      | None => ss
                      end) ss sel in
  ∀ k s, ss !! k = Some s →
    ∃ s', ss' !! k = Some s' ∧ frame s' = frame s ∧
          (student s' = student s ∨ student s' = None) ∧
          (id s ∉ sel → s' = s) ∧
          (id s ∈ sel → isDeleted s = false →
           (∀ j t, ss !! j = Some t → (j < k)%nat → id t ≠ id s) →
           student s' = None).
Proof.
  induction sel as [|x sel IH]; intros ss; cbn zeta.
  - intros k s Hk. exists s. split; [done|]. split; [done|]. split; [by left|].
    split; [done|]. by intros ?%elem_of_nil.
  - cbn [foldl].
    set (ss1 := match list_find (λ s, id s = x) ss with
                | Some (i, seat) => if isDeleted seat then ss else write_student i None ss
                | None => ss
                end).
    assert (∀ k s, ss !! k = Some s →
              ∃ s1, ss1 !! k = Some s1 ∧ frame s1 = frame s ∧
                    (student s1 = student s ∨ student s1 = None) ∧
                    (id s ≠ x → s1 = s) ∧
                    (id s = x → isDeleted s = false →
                     (∀ j t, ss !! j = Some t → (j < k)%nat → id t ≠ id s) →
                     student s1 = None)) as Hstep.
    { intros k s Hk. subst ss1.
      destruct (list_find (λ s, id s = x) ss) as [[i seat]|] eqn:Hfind.
      - apply list_find_Some in Hfind as (Hi & Hid & Hmin).
        destruct (isDeleted seat) eqn:Hdel.
        + exists s. split; [done|]. split; [done|]. split; [by left|]. split; [done|].
          intros Hx Hnd Hfirst. exfalso.
          assert (i = k) as ->.
          { destruct (Nat.lt_total i k) as [Hlt|[?|Hlt]]; [|done|].
            - destruct (Hfirst i seat Hi Hlt). congruence.
            - by destruct (Hmin k s Hk Hlt). }
          congruence.
        + unfold write_student. destruct (decide (k = i)) as [->|Hne].
          * rewrite list_lookup_alter_eq, Hk. cbn.
            eexists. split; [done|]. rewrite frame_set_student.
            split; [done|]. split; [right; by destruct s|].
            split; [|intros; by destruct s].
            intros Hx. destruct Hx. congruence.
          * rewrite list_lookup_alter_ne by done.
            exists s. split; [done|]. split; [done|]. split; [by left|]. split; [done|].
            intros Hx Hnd Hfirst. exfalso. apply Hne.
            destruct (Nat.lt_total i k) as [Hlt|[?|Hlt]]; [|done|].
            -- destruct (Hfirst i seat Hi Hlt). congruence.
            -- by destruct (Hmin k s Hk Hlt).
      - exists s. split; [done|]. split; [done|]. split; [by left|]. split; [done|].
        intros Hx _ _. eapply list_find_None in Hfind. rewrite Forall_forall in Hfind.
        destruct (Hfind s); [by eapply list_elem_of_lookup_2|done]. }
    intros k s Hk.
    destruct (Hstep k s Hk) as (s1 & Hk1 & Hf1 & Hst1 & Hne1 & Hx1).
    destruct (IH ss1 k s1 Hk1) as (s' & Hk' & Hf' & Hst' & Hne' & Hx').
    destruct (frame_id _ _ Hf1) as [Hid1 Hdel1].
    exists s'. split; [done|]. split; [congruence|]. split; [|split].
    + destruct Hst' as [->| ->]; [exact Hst1|by right].
    + intros Hnot. rewrite Hne'.
      * apply Hne1. intros <-. apply Hnot. by left.
      * rewrite Hid1. intros ?. apply Hnot. by right.
    + intros Hin Hnd Hfirst.
      destruct (decide (id s = x)) as [Hx|Hx].
      * destruct Hst' as [->| ->]; [|done]. by apply Hx1.
      * apply elem_of_cons in Hin as [?|Hin]; [done|].
        apply Hx'; [by rewrite Hid1|congruence|].
        intros j t1 Hj Hlt. rewrite Hid1.
        destruct (lookup_lt_is_Some_2 ss j) as [t Ht].
        { apply lookup_lt_Some in Hk. lia. }
        destruct (Hstep j t Ht) as (t1' & Hj' & Hft & _).
        rewrite Hj in Hj'. injection Hj' as <-.
        destruct (frame_id _ _ Hft) as [-> _]. by apply (Hfirst j t).
Qed.

(** [clearAllSeats] and [clearSelectedSeats] empty seats without touching
    the student objects: the seat caches keep naming the seats that were
    emptied.  [clearAllSeats] empties every seat and brings the deleted
    ones back; [clearSelectedSeats] empties the selected seats that are not
    deleted (the first seat carrying each selected id), leaves the others
    alone and drops the selection. *)
Theorem clearing_keeps_caches (now : Z) (app : SeatingApp) :
  (let app' := clearAllSeats true now app in
   heap (data app') = heap (data app) ∧ students (data app') = students (data app) ∧
   seats (data app')
     = (λ s, mkSeat (id s) (row s) (col s) None (position s) false) <$> seats (data app)) ∧
  (let app' := clearSelectedSeats true now app in
   heap (data app') = heap (data app) ∧ students (data app') = students (data app) ∧
   (selectedSeats app ≠ [] → selectedSeats app' = []) ∧
   ∀ k s, seats (data app) !! k = Some s →
     ∃ s', seats (data app') !! k = Some s' ∧ frame s' = frame s ∧
           (id s ∉ selectedSeats app → s' = s) ∧
           (id s ∈ selectedSeats app → isDeleted s = false →
            (∀ j t, seats (data app) !! j = Some t → (j < k)%nat → id t ≠ id s) →
            student s' = None)).
Proof.
  destruct (addToHistory_frame "seatArrangement" (seats (data app)) now (data app))
    as (Hheap & Hstud & Hseats & _).
  split.
  - unfold clearAllSeats. cbn zeta. cbn [data with_data heap students seats with_seats].
    split; [done|]. split; [done|]. rewrite Hseats.
    apply list_fmap_ext. intros _ s _. by destruct s.
  - unfold clearSelectedSeats. cbn zeta.
    destruct (selectedSeats app) as [|x sel] eqn:Hsel.
    + split; [done|]. split; [done|]. split; [done|].
      intros k s Hk. exists s. split; [done|]. split; [done|]. split; [done|].
      by intros ?%elem_of_nil.
    + unfold clearSelection.
      cbn [data with_data with_selection selectedSeats heap students seats with_seats].
      split; [done|]. split; [done|]. split; [done|]. rewrite Hseats.
      intros k s Hk.
      destruct (clear_fold_spec (x :: sel) (seats (data app)) k s Hk)
        as (s' & Hk' & Hf & _ & Hout & Hin).
      by exists s'.
Qed.

(** ** Display coordinates as text *)

Lemma string_app_cons (c : ascii) (a b : string) :
  String c a +:+ b = String c (a +:+ b).
Proof. reflexivity. Qed.

Lemma string_app_nil_l (s : string) : "" +:+ s = s.
Proof. reflexivity. Qed.

Lemma string_app_nil_r (s : string) : s +:+ "" = s.
Proof. induction s as [|c s IH]; [done|]. by rewrite string_app_cons, IH. Qed.

Lemma string_app_assoc (a b c : string) : (a +:+ b) +:+ c = a +:+ (b +:+ c).
Proof. induction a as [|x a IH]; [done|]. by rewrite !string_app_cons, IH. Qed.

Lemma pretty_N_char_digit (m : N) :
  (m < 10)%N →
  is_digit (pretty_N_char m) = true ∧
  Z.of_N (N_of_ascii (pretty_N_char m)) - 48 = Z.of_N m.
Proof.
  intros Hm.
  assert (m = 0 ∨ m = 1 ∨ m = 2 ∨ m = 3 ∨ m = 4 ∨ m = 5 ∨ m = 6 ∨ m = 7 ∨ m = 8 ∨ m = 9)%N
    as Hcases by lia.
  repeat (destruct Hcases as [->|Hcases]; [by vm_compute|]). subst. by vm_compute.
Qed.

Lemma is_digit_not_white_space c : is_digit c = true → is_white_space c = false.
Proof.
  unfold is_digit, is_white_space. generalize (N_of_ascii c). intros n.
  rewrite andb_true_iff, !N.leb_le. intros [? ?].
  rewrite !orb_false_iff, andb_false_iff, !N.leb_gt, !N.eqb_neq. lia.
Qed.

Lemma parseInt_digits_app (a b : string) : ∀ acc,
  parseInt_digits acc (a +:+ b) = parseInt_digits (parseInt_digits acc a) b.
Proof.
  induction a as [|c a IH]; intros acc; [done|].
  rewrite string_app_cons. cbn [parseInt_digits]. apply IH.
Qed.

Lemma digits_only_app (a b : string) :
  digits_only a → digits_only b → digits_only (a +:+ b).
Proof.
  induction a as [|c a IH]; [done|]. rewrite string_app_cons.
  cbn [digits_only]. intros [? ?] ?. split; [done|]. by apply IH.
Qed.

(** The digits [pretty] writes are read back by [parseInt]. *)
Lemma pretty_N_go_digits (x : N) :
  ∃ ds, (∀ s, pretty_N_go x s = ds +:+ s) ∧ digits_only ds ∧
        parseInt_digits 0 ds = Z.of_N x ∧ ((0 < x)%N → ds ≠ "").
Proof.
  induction (N.lt_wf_0 x) as [x _ IH].
  assert (x = 0 ∨ 0 < x)%N as [->|Hpos] by lia.
  - exists "". split; [intros s; by rewrite pretty_N_go_0|]. split; [done|].
    split; [done|]. lia.
  - destruct (IH (x `div` 10)%N) as (ds & Hgo & Hds & Hval & _); [by apply N.div_lt|].
    destruct (pretty_N_char_digit (x `mod` 10)%N) as [Hdig Hv]; [by apply N.mod_lt|].
    exists (ds +:+ String (pretty_N_char (x `mod` 10)) "").
    split; [|split; [|split]].
    + intros s. rewrite pretty_N_go_step by done. by rewrite Hgo, string_app_assoc.
    + apply digits_only_app; [done|]. by split.
    + rewrite parseInt_digits_app, Hval. cbn [parseInt_digits]. rewrite Hv.
      pose proof (N.div_mod x 10 ltac:(lia)). lia.
    + intros _. by destruct ds.
Qed.

Lemma pretty_Z_digits (z : Z) :
  0 ≤ z → digits_only (pretty z) ∧ pretty z ≠ "" ∧ parseInt_digits 0 (pretty z) = z.
Proof.
  intros Hz. destruct z as [|p|p]; [by vm_compute| |lia].
  unfold pretty, pretty_Z, pretty, pretty_positive, pretty, pretty_N.
  rewrite decide_False by done.
  destruct (pretty_N_go_digits (N.pos p)) as (ds & Hgo & Hds & Hval & Hne).
  rewrite Hgo, string_app_nil_r. split; [done|]. split; [apply Hne; lia|].
  rewrite Hval. done.
Qed.

Lemma span_digits_app (ds rest : string) :
  digits_only ds →
  match rest with EmptyString => True | String c _ => is_digit c = false end →
  span_digits (ds +:+ rest) = (ds, rest).
Proof.
  intros Hds Hrest. induction ds as [|c ds IH].
  - rewrite string_app_nil_l. destruct rest as [|c r]; [done|].
    cbn [span_digits]. by rewrite Hrest.
  - destruct Hds as [Hc Hds]. rewrite string_app_cons. cbn [span_digits].
    by rewrite Hc, IH.
Qed.

Lemma match_coord_digits (a b : string) :
  digits_only a → digits_only b → a ≠ "" → b ≠ "" →
  match_coord (a +:+ "-" +:+ b) = Some (a, b).
Proof.
  intros Ha Hb Hna Hnb. unfold match_coord.
  change ("-" +:+ b) with (String "-" b).
  rewrite (span_digits_app a (String "-" b)) by done. cbn [fst snd].
  pose proof (span_digits_app b "" Hb I) as Hb2. rewrite string_app_nil_r in Hb2.
  rewrite Hb2. cbn [fst snd]. by rewrite decide_True.
Qed.

Lemma trim_start_white_space (pre s : string) :
  white_space_only pre → trim_start (pre +:+ s) = trim_start s.
Proof.
  induction pre as [|c pre IH]; [done|]. rewrite string_app_cons.
  cbn [white_space_only trim_start]. intros [-> ?]. by apply IH.
Qed.

Lemma trim_end_white_space (post : string) : white_space_only post → trim_end post = "".
Proof.
  induction post as [|c post IH]; [done|].
  cbn [white_space_only trim_end]. intros [-> ?]. by rewrite IH.
Qed.

Lemma trim_end_core (core post : string) :
  no_white_space core → white_space_only post → trim_end (core +:+ post) = core.
Proof.
  intros Hcore Hpost. induction core as [|c core IH].
  - rewrite string_app_nil_l. by apply trim_end_white_space.
  - destruct Hcore as [Hc Hcore]. rewrite string_app_cons. cbn [trim_end].
    rewrite IH by done. rewrite Hc. by destruct core.
Qed.

Lemma trim_padded (pre core post : string) :
  white_space_only pre → white_space_only post → no_white_space core →
  trim (pre +:+ core +:+ post) = core.
Proof.
  intros Hpre Hpost Hcore. unfold trim. rewrite trim_start_white_space by done.
  destruct core as [|c core].
  - rewrite string_app_nil_l.
    assert (trim_start post = "") as ->; [|done].
    clear -Hpost. induction post as [|c post IH]; [done|]. cbn [trim_start].
    destruct Hpost as [-> ?]. by apply IH.
  - pose proof Hcore as [Hc _]. rewrite string_app_cons. cbn [trim_start].
    rewrite Hc, <- string_app_cons. by apply trim_end_core.
Qed.

Lemma digits_no_white_space (s : string) : digits_only s → no_white_space s.
Proof.
  induction s as [|c s IH]; [done|]. intros [Hc Hs].
  split; [by apply is_digit_not_white_space|by apply IH].
Qed.

Lemma no_white_space_app (a b : string) :
  no_white_space a → no_white_space b → no_white_space (a +:+ b).
Proof.
  induction a as [|c a IH]; [done|]. rewrite string_app_cons.
  cbn [no_white_space]. intros [? ?] ?. split; [done|]. by apply IH.
Qed.

(** The text of a display coordinate of the grid is parsed back to the
    internal coordinate it was made from. *)
Lemma parse_display_text (totalRows totalCols r c : Z) (pre post : string) :
  0 ≤ r < totalRows → 0 ≤ c < totalCols →
  white_space_only pre → white_space_only post →
  parseDisplayCoordinate
    (pre +:+ (pretty (totalRows - r) +:+ "-" +:+ pretty (c + 1)) +:+ post)
    totalRows totalCols
  = Some (mkParsedCoord r c (totalRows - r) (c + 1) (seatIdOf r c)).
Proof.
  intros Hr Hc Hpre Hpost.
  destruct (pretty_Z_digits (totalRows - r)) as (Hd1 & Hn1 & Hv1); [lia|].
  destruct (pretty_Z_digits (c + 1)) as (Hd2 & Hn2 & Hv2); [lia|].
  set (a := pretty (totalRows - r)) in *. set (b := pretty (c + 1)) in *.
  unfold parseDisplayCoordinate.
  rewrite decide_False.
  - rewrite trim_padded; [|done..|].
    + rewrite match_coord_digits by done. rewrite Hv1, Hv2.
      rewrite decide_False by lia. do 2 f_equal; [lia..|f_equal; lia].
    + apply no_white_space_app; [by apply digits_no_white_space|].
      split; [done|]. by apply digits_no_white_space.
  - destruct pre as [|x pre]; [|by rewrite string_app_cons].
    rewrite string_app_nil_l. destruct a as [|x a]; [done|].
    by rewrite !string_app_cons.
Qed.

(** [parseDisplayCoordinate] reads back what [getDisplayCoordString] writes
    for a seat of the grid, also with white space around it. *)
Theorem parse_display_round_trip (totalRows totalCols : Z) (s : Seat)
    (pre post : string) :
  0 ≤ row s < totalRows → 0 ≤ col s < totalCols →
  white_space_only pre → white_space_only post →
  parseDisplayCoordinate (pre +:+ getDisplayCoordString totalRows s +:+ post)
    totalRows totalCols
  = Some (mkParsedCoord (row s) (col s) (totalRows - row s) (col s + 1)
            (seatIdOf (row s) (col s))).
Proof. intros. by apply parse_display_text. Qed.

Lemma parse_display_round_trip_witness :
  parseDisplayCoordinate
    (" " +:+ getDisplayCoordString 6 (mkSeat "2-3" 2 3 None 20 false) +:+ "")
    6 8
  = Some (mkParsedCoord 2 3 4 4 "2-3").
Proof.
  apply (parse_display_round_trip 6 8 (mkSeat "2-3" 2 3 None 20 false) " " "");
    simpl; try lia; by repeat split.
Defined.

(** What [parseDisplayCoordinate] accepts lies in the grid, its fields agree
    with the coordinate conversions, and writing it as a display coordinate
    and parsing again gives the same result. *)
Theorem parse_display_accepts_grid (coordString : string) (totalRows totalCols : Z)
    (p : ParsedCoord) :
  parseDisplayCoordinate coordString totalRows totalCols = Some p →
  0 ≤ pc_row p < totalRows ∧ 0 ≤ pc_col p < totalCols ∧
  toInternalCoord (pc_displayRow p) (pc_displayCol p) totalRows = (pc_row p, pc_col p) ∧
  toDisplayCoord (pc_row p) (pc_col p) totalRows = (pc_displayRow p, pc_displayCol p) ∧
  pc_seatId p = seatIdOf (pc_row p) (pc_col p) ∧
  parseDisplayCoordinate
    (pretty (pc_displayRow p) +:+ "-" +:+ pretty (pc_displayCol p)) totalRows totalCols
  = Some p.
Proof.
  unfold parseDisplayCoordinate at 1. case_decide; [done|].
  destruct (match_coord _) as [[g1 g2]|]; [|done].
  cbn zeta. case_decide as Hrange; [done|]. intros [= <-].
  cbn [pc_row pc_col pc_displayRow pc_displayCol pc_seatId].
  set (dr := parseInt_digits 0 g1) in *. set (dc := parseInt_digits 0 g2) in *.
  unfold toInternalCoord, toDisplayCoord.
  split; [lia|]. split; [lia|]. split; [done|]. split; [f_equal; lia|]. split; [done|].
  pose proof (parse_display_text totalRows totalCols (totalRows - dr) (dc - 1) "" ""
                ltac:(lia) ltac:(lia) I I) as Hp.
  rewrite string_app_nil_l, string_app_nil_r in Hp.
  replace (totalRows - (totalRows - dr)) with dr in Hp by lia.
  replace (dc - 1 + 1) with dc in Hp by lia. exact Hp.
Qed.

Lemma parse_display_accepts_grid_witness :
  parseDisplayCoordinate "  3-2 " 6 8 = Some (mkParsedCoord 3 1 3 2 "3-1") ∧
  parseDisplayCoordinate "3-2" 6 8 = Some (mkParsedCoord 3 1 3 2 "3-1").
Proof.
  assert (parseDisplayCoordinate "  3-2 " 6 8 = Some (mkParsedCoord 3 1 3 2 "3-1")) as H
    by (vm_compute; reflexivity).
  split; [exact H|].
  exact (proj2 (proj2 (proj2 (proj2 (proj2
           (parse_display_accepts_grid "  3-2 " 6 8 _ H)))))).
Defined.

(** ** Counts *)

Lemma length_filter_occupied (ss : list Seat) :
  length (filter (λ s, is_Some (student s)) ss) = length (omap student ss).
Proof.
  induction ss as [|s ss IH]; [done|].
  cbn [omap list_omap]. destruct (student s) as [p|] eqn:Hs.
  - rewrite filter_cons_True by (by rewrite Hs). cbn. by rewrite IH.
  - rewrite filter_cons_False; [done|]. rewrite Hs. by intros [].
Qed.

(** The count of unseated students is the number of roster objects that no
    seat references, when the roster has no repetition and the seats
    reference roster objects, each at most once; it is then not negative.
    (A seat that holds an object outside the roster makes it too small.) *)
Theorem unseated_count_counts_roster (d : SeatingData) :
  NoDup (students d) →
  NoDup (omap student (seats d)) →
  (∀ p, p ∈ omap student (seats d) → p ∈ students d) →
  getUnseatedStudentsCount d
    = Z.of_nat (length (filter (λ p, p ∉ omap student (seats d)) (students d))) ∧
  0 ≤ getUnseatedStudentsCount d ∧
  0 ≤ getSeatedStudentsCount d ≤ Z.of_nat (length (students d)).
Proof.
  intros Hroster Hseated Hsub.
  unfold getUnseatedStudentsCount, getSeatedStudentsCount.
  rewrite length_filter_occupied.
  set (S := omap student (seats d)) in *.
  assert (filter (λ p, p ∈ S) (students d) ≡ₚ S) as Hin.
  { apply NoDup_Permutation; [by apply NoDup_filter|done|].
    intros p. rewrite list_elem_of_filter. split; [tauto|]. intros ?. split; [done|].
    by apply Hsub. }
  pose proof (filter_app_complement (λ p, p ∈ S) (students d)) as Hsplit.
  apply Permutation_length in Hsplit. rewrite length_app in Hsplit.
  rewrite (Permutation_length Hin) in Hsplit.
  assert (length (filter (λ p, ¬ p ∈ S) (students d))
            = length (filter (λ p, p ∉ S) (students d))) as Heq by done.
  lia.
Qed.

Lemma unseated_count_counts_roster_witness :
  getUnseatedStudentsCount (data Scenario.ann_and_bob) = 1 ∧
  getSeatedStudentsCount (data Scenario.ann_and_bob) = 2.
Proof.
  assert (NoDup (students (data Scenario.ann_and_bob))) as H1
    by (apply (bool_decide_unpack _); vm_compute; reflexivity).
  assert (NoDup (omap student (seats (data Scenario.ann_and_bob)))) as H2
    by (apply (bool_decide_unpack _); vm_compute; reflexivity).
  assert (∀ p, p ∈ omap student (seats (data Scenario.ann_and_bob)) →
               p ∈ students (data Scenario.ann_and_bob)) as H3.
  { apply Forall_forall. apply (bool_decide_unpack _). vm_compute. reflexivity. }
  destruct (unseated_count_counts_roster (data Scenario.ann_and_bob) H1 H2 H3)
    as (Hu & _ & _).
  split; [rewrite Hu|]; vm_compute; reflexivity.
Defined.

(** ** Arrangement *)

Lemma NoDup_omap_lookup {A B} (f : A → option B) (l : list A) :
  (∀ i j x y u, l !! i = Some x → l !! j = Some y →
                f x = Some u → f y = Some u → i = j) →
  NoDup (omap f l).
Proof.
  induction l as [|s ss IH]; intros Hu; [constructor|].
  assert (NoDup (omap f ss)) as Hnd.
  { apply IH. intros i j si sj u Hi Hj Hui Huj.
    apply (inj S). by apply (Hu (S i) (S j) si sj u). }
  cbn. destruct (f s) as [u|] eqn:Hfs; [|done].
  apply NoDup_cons. split; [|done].
  intros (t & Ht & Hft)%list_elem_of_omap.
  apply list_elem_of_lookup_1 in Ht as [j Hj].
  by specialize (Hu 0%nat (S j) s t u eq_refl Hj Hfs Hft).
Qed.

Lemma active_occupants_omap (ss : list Seat) :
  active_occupants ss = omap (λ s, if isDeleted s then None else student s) ss.
Proof.
  unfold active_occupants. induction ss as [|s ss IH]; [done|].
  cbn [omap list_omap]. destruct (isDeleted s) eqn:Hdel.
  - by rewrite filter_cons_False by congruence.
  - rewrite filter_cons_True by done. cbn [omap list_omap]. by rewrite IH.
Qed.

Lemma elem_of_active_occupants (ss : list Seat) (p : loc) :
  p ∈ active_occupants ss ↔
  ∃ k s, ss !! k = Some s ∧ isDeleted s = false ∧ student s = Some p.
Proof.
  unfold active_occupants. rewrite list_elem_of_omap. split.
  - intros (s & [Hdel Hin]%list_elem_of_filter & Hs).
    apply list_elem_of_lookup_1 in Hin as [k Hk]. by exists k, s.
  - intros (k & s & Hk & Hdel & Hs). exists s. split; [|done].
    apply list_elem_of_filter. split; [done|]. by eapply list_elem_of_lookup_2.
Qed.

(** Writing students on seats, pair after pair. *)
Lemma write_pairs_lookup (assigned : list (nat * loc)) : ∀ ss : list Seat,
  NoDup (assigned.*1) →
  let ss' := foldl (λ ss a, write_student a.1 (Some a.2) ss) ss assigned in
  length ss' = length ss ∧
  (∀ k, k ∉ assigned.*1 → ss' !! k = ss !! k) ∧
  (∀ k p, (k, p) ∈ assigned → ss' !! k = set_student (Some p) <$> ss !! k).
Proof.
  induction assigned as [|[i q] assigned IH] using rev_ind; intros ss Hnd; cbn zeta.
  - split; [done|]. split; [done|]. by intros k p ?%elem_of_nil.
  - rewrite fmap_app in Hnd. apply NoDup_app in Hnd as (Hnd & Hdisj & _).
    destruct (IH ss Hnd) as (Hlen & Hout & Hin).
    rewrite foldl_app. cbn [foldl fst snd]. unfold write_student at 1 3 5.
    assert (i ∉ assigned.*1) as Hi.
    { intros ?. eapply Hdisj; [done|]. cbn. by apply list_elem_of_singleton. }
    split; [by rewrite length_alter|]. split.
    + intros k Hk. rewrite fmap_app, elem_of_app in Hk. rewrite list_lookup_alter_ne.
      * apply Hout. tauto.
      * intros ->. apply Hk. right. cbn. by apply list_elem_of_singleton.
    + intros k p [Hkp|[= -> ->]%list_elem_of_singleton]%elem_of_app.
      * rewrite list_lookup_alter_ne; [by apply Hin|].
        intros ->. apply Hi. apply list_elem_of_fmap. by exists (k, p).
      * rewrite list_lookup_alter_eq, (Hout i Hi).
        destruct (ss !! i) as [s|]; [|done]. cbn. by destruct s.
Qed.

(** Distinct students written on distinct empty seats that are not deleted,
    in a room whose other seats of this kind are empty too. *)
Lemma arrangement_spec (assigned : list (nat * loc)) (ss : list Seat) :
  NoDup (assigned.*1) → NoDup (assigned.*2) →
  (∀ k, k ∈ assigned.*1 → ∃ s, ss !! k = Some s ∧ isDeleted s = false) →
  (∀ s, s ∈ ss → isDeleted s = false → student s = None) →
  let ss' := foldl (λ ss a, write_student a.1 (Some a.2) ss) ss assigned in
  length ss' = length ss ∧
  (∀ k s', ss' !! k = Some s' →
     ∃ s, ss !! k = Some s ∧ frame s' = frame s ∧ (isDeleted s = true → s' = s)) ∧
  (∀ k s' p, ss' !! k = Some s' → isDeleted s' = false →
             ((student s' = Some p) ↔ ((k, p) ∈ assigned))) ∧
  active_occupants ss' ≡ₚ assigned.*2.
Proof.
  intros Hnd1 Hnd2 Hvalid Hempty.
  destruct (write_pairs_lookup assigned ss Hnd1) as (Hlen & Hout & Hin).
  cbn zeta. set (ss' := foldl _ ss assigned) in *.
  assert (∀ k s', ss' !! k = Some s' →
            ∃ s, ss !! k = Some s ∧ frame s' = frame s ∧
                 ((∃ p, (k, p) ∈ assigned ∧ student s' = Some p) ∨
                  ((k ∉ assigned.*1) ∧ s' = s))) as Hcases.
  { intros k s' Hk. destruct (decide (k ∈ assigned.*1)) as [Hka|Hka].
    - apply list_elem_of_fmap in Hka as ([k' p] & -> & Hkp). cbn in Hk.
      destruct (ss !! k') as [s|] eqn:Hs; rewrite (Hin k' p Hkp), Hs in Hk; [|done].
      cbn in Hk. injection Hk as <-. exists s. split; [done|].
      split; [by destruct s|]. left. exists p. split; [done|]. by destruct s.
    - rewrite (Hout k Hka) in Hk. exists s'. split; [done|]. split; [done|]. by right. }
  assert (∀ k s' p, ss' !! k = Some s' → isDeleted s' = false →
            ((student s' = Some p) ↔ ((k, p) ∈ assigned))) as Hocc.
  { intros k s' p Hk Hdel.
    destruct (Hcases k s' Hk) as (s & Hs & Hf & [(q & Hkq & Hq)|[Hka Heq]]).
    - rewrite Hq. split.
      + by intros [= ->].
      + intros Hkp. f_equal.
        apply list_elem_of_lookup_1 in Hkq as [a Ha].
        apply list_elem_of_lookup_1 in Hkp as [b Hb].
        assert (a = b) as ->; [|congruence].
        eapply (NoDup_lookup (assigned.*1)); [done|..].
        * by rewrite list_lookup_fmap, Ha.
        * by rewrite list_lookup_fmap, Hb.
    - subst s'. rewrite (Hempty s); [|by eapply list_elem_of_lookup_2|done].
      split; [done|]. intros Hkp. destruct Hka. apply list_elem_of_fmap. by exists (k, p). }
  split; [exact Hlen|]. split; [|split; [exact Hocc|]].
  - intros k s' Hk.
    destruct (Hcases k s' Hk) as (s & Hs & Hf & [(q & Hkq & Hq)|[Hka ->]]).
    + exists s. split; [done|]. split; [done|]. intros Hdel.
      destruct (Hvalid k) as (t & Ht & Hdt).
      { apply list_elem_of_fmap. by exists (k, q). }
      congruence.
    + by exists s.
  - apply NoDup_Permutation; [|done|].
    + rewrite active_occupants_omap. apply NoDup_omap_lookup.
      intros i j si sj p Hi Hj Hpi Hpj.
      destruct (isDeleted si) eqn:Hdi; [done|]. destruct (isDeleted sj) eqn:Hdj; [done|].
      apply (Hocc i si p Hi Hdi) in Hpi. apply (Hocc j sj p Hj Hdj) in Hpj.
      apply list_elem_of_lookup_1 in Hpi as [a Ha].
      apply list_elem_of_lookup_1 in Hpj as [b Hb].
      assert (a = b) as ->; [|congruence].
      eapply (NoDup_lookup (assigned.*2)); [done|..].
      * by rewrite list_lookup_fmap, Ha.
      * by rewrite list_lookup_fmap, Hb.
    + intros p. rewrite elem_of_active_occupants, list_elem_of_fmap. split.
      * intros (k & s' & Hk & Hdel & Hs). exists (k, p). split; [done|].
        by apply (Hocc k s' p Hk Hdel).
      * intros ([k p'] & -> & Hkp). cbn.
        destruct (Hvalid k) as (s & Hs & Hds).
        { apply list_elem_of_fmap. by exists (k, p'). }
        exists k, (set_student (Some p') s).
        rewrite (Hin k p' Hkp), Hs. split; [done|]. by destruct s.
Qed.

Lemma delete_lookup_NoDup {A} (l : list A) (i : nat) (x : A) :
  NoDup l → l !! i = Some x →
  NoDup (delete i l) ∧ (x ∉ delete i l) ∧ (∀ y, y ∈ delete i l → y ∈ l) ∧
  length l = S (length (delete i l)).
Proof.
  intros Hnd Hi. rewrite delete_take_drop.
  rewrite <- (take_drop_middle l i x Hi) in Hnd.
  apply NoDup_app in Hnd as (Hnd1 & Hdisj & Hnd2).
  apply NoDup_cons in Hnd2 as [Hx Hnd2].
  split; [|split; [|split]].
  - apply NoDup_app. split; [done|]. split; [|done].
    intros y Hy1 Hy2. apply (Hdisj y Hy1). by right.
  - intros [H1|H2]%elem_of_app; [|done]. apply (Hdisj x H1). by left.
  - intros y Hy. rewrite <- (take_drop_middle l i x Hi).
    apply elem_of_app in Hy as [?|?]; apply elem_of_app; [by left|right; by right].
  - rewrite <- (take_drop_middle l i x Hi) at 1. rewrite !length_app. cbn. lia.
Qed.

(** The loop of [randomSeatArrangement] writes as many pairs as there are
    students or seats, whichever is fewer, and no student or seat twice. *)
Lemma random_loop_spec (draw : nat → nat) (turns : nat) :
  ∀ k studs avail ss,
    (length studs ≤ turns)%nat → NoDup studs → NoDup avail →
    ∃ assigned : list (nat * loc),
      random_loop draw k turns studs avail ss
        = foldl (λ ss a, write_student a.1 (Some a.2) ss) ss assigned ∧
      NoDup (assigned.*1) ∧ NoDup (assigned.*2) ∧
      (∀ a, a ∈ assigned.*1 → a ∈ avail) ∧ (∀ p, p ∈ assigned.*2 → p ∈ studs) ∧
      length assigned = (length studs `min` length avail)%nat.
Proof.
  induction turns as [|turns IH]; intros k studs avail ss Hlen Hs Ha.
  - exists []. destruct studs; [|cbn in Hlen; lia].
    repeat split; try done; try constructor; by intros ? ?%elem_of_nil.
  - cbn [random_loop]. case_decide as Hempty.
    + exists []. repeat split; try done; try constructor; try (by intros ? ?%elem_of_nil).
      cbn. destruct Hempty as [-> | ->]; cbn; lia.
    + assert (studs ≠ [] ∧ avail ≠ []) as [Hns Hna] by tauto.
      assert (0 < length studs)%nat as Hls by (destruct studs; [done|cbn; lia]).
      assert (0 < length avail)%nat as Hla by (destruct avail; [done|cbn; lia]).
      set (i := (draw k mod length studs)%nat).
      set (j := (draw (S k) mod length avail)%nat).
      destruct (lookup_lt_is_Some_2 studs i) as [st Hst];
        [apply Nat.mod_upper_bound; lia|].
      destruct (lookup_lt_is_Some_2 avail j) as [seat Hseat];
        [apply Nat.mod_upper_bound; lia|].
      rewrite Hst, Hseat.
      destruct (delete_lookup_NoDup studs i st Hs Hst) as (Hs' & Hst' & Hsub & Hlens).
      destruct (delete_lookup_NoDup avail j seat Ha Hseat) as (Ha' & Hseat' & Hsuba & Hlena).
      destruct (IH (S (S k)) (delete i studs) (delete j avail)
                  (write_student seat (Some st) ss) ltac:(lia) Hs' Ha')
        as (assigned & Heq & Hn1 & Hn2 & Hin1 & Hin2 & Hlen').
      exists ((seat, st) :: assigned). rewrite Heq.
      split; [done|]. rewrite !fmap_cons. cbn [fst snd].
      split; [apply NoDup_cons; split; [|done]; intros ?; by apply Hseat', Hin1|].
      split; [apply NoDup_cons; split; [|done]; intros ?; by apply Hst', Hin2|].
      split; [intros a [->|?]%elem_of_cons;
                [by eapply list_elem_of_lookup_2|by apply Hsuba, Hin1]|].
      split; [intros p [->|?]%elem_of_cons;
                [by eapply list_elem_of_lookup_2|by apply Hsub, Hin2]|].
      cbn [length]. lia.
Qed.

Lemma activeSeatRefs_snoc (ss : list Seat) (s : Seat) :
  activeSeatRefs (ss ++ [s])
    = activeSeatRefs ss ++ (if isDeleted s then [] else [length ss]).
Proof.
  unfold activeSeatRefs. rewrite imap_app, filter_app, fmap_app. f_equal.
  cbn [imap compose]. rewrite Nat.add_0_r. destruct (isDeleted s) eqn:Hdel.
  - by rewrite filter_cons_False by (cbn; congruence).
  - by rewrite filter_cons_True by done.
Qed.

Lemma activeSeatRefs_fmap (f : Seat → Seat) (ss : list Seat) :
  (∀ s, frame (f s) = frame s) → activeSeatRefs (f <$> ss) = activeSeatRefs ss.
Proof.
  intros Hf. induction ss as [|s ss IH] using rev_ind; [done|].
  rewrite fmap_app. cbn [fmap list_fmap]. rewrite !activeSeatRefs_snoc, IH, length_fmap.
  by destruct (frame_id _ _ (Hf s)) as [_ ->].
Qed.

Lemma clear_active_spec (s : Seat) :
  frame (clear_active s) = frame s ∧
  (isDeleted s = true → clear_active s = s) ∧
  (isDeleted s = false → student (clear_active s) = None).
Proof. unfold clear_active. by destruct s as [? ? ? ? ? []]. Qed.

(** Whatever the random draws, [randomSeatArrangement] seats distinct roster
    students on the seats that are not deleted, as many as there are
    students or such seats, whichever is fewer; the seats keep their
    identifiers, coordinates and flags, and a deleted seat keeps what it
    holds. *)
Theorem randomSeatArrangement_seats_distinct (draw : nat → nat) (now : Z)
    (app : SeatingApp) :
  NoDup (students (data app)) → students (data app) ≠ [] →
  let app' := randomSeatArrangement draw now app in
  length (seats (data app')) = length (seats (data app)) ∧
  (∀ k s', seats (data app') !! k = Some s' →
     ∃ s, seats (data app) !! k = Some s ∧ frame s' = frame s ∧
          (isDeleted s = true → s' = s)) ∧
  NoDup (active_occupants (seats (data app'))) ∧
  (∀ p, p ∈ active_occupants (seats (data app')) → p ∈ students (data app)) ∧
  length (active_occupants (seats (data app')))
    = (length (students (data app))
       `min` length (activeSeatRefs (seats (data app))))%nat.
Proof.
  intros Hroster Hne. cbn zeta. unfold randomSeatArrangement. cbn zeta.
  rewrite decide_False by done. cbn [data with_data].
  destruct (addToHistory_frame "seatArrangement" (seats (data app)) now (data app))
    as (_ & Hstud & Hseats & _).
  set (d1 := addToHistory _ _ _ _) in *. set (d := data app) in *.
  rewrite Hstud, Hseats.
  set (ss0 := clear_active <$> seats d).
  change (seats (syncStudentSeatIds (with_seats ?x d1))) with x.
  destruct (activeSeatRefs_spec ss0) as [Hnd Hact].
  destruct (random_loop_spec draw (length (students d)) 0%nat (students d)
              (activeSeatRefs ss0) ss0 ltac:(lia) Hroster Hnd)
    as (assigned & -> & Hn1 & Hn2 & Hin1 & Hin2 & Hlen).
  destruct (arrangement_spec assigned ss0 Hn1 Hn2) as (Hl & Hfr & _ & Hperm).
  { intros k Hk. by apply Hact, Hin1. }
  { intros s (s0 & -> & _)%list_elem_of_fmap Hdel.
    destruct (clear_active_spec s0) as (Hf & _ & Hnone).
    apply Hnone. destruct (frame_id _ _ Hf) as [_ <-]. exact Hdel. }
  assert (activeSeatRefs ss0 = activeSeatRefs (seats d)) as Hsame.
  { apply activeSeatRefs_fmap. intros s. apply clear_active_spec. }
  rewrite Hsame in Hlen.
  split; [rewrite Hl; unfold ss0; by rewrite length_fmap|]. split; [|split; [|split]].
  - intros k s' Hk. destruct (Hfr k s' Hk) as (s0 & Hs0 & Hf & Hdel).
    unfold ss0 in Hs0. rewrite list_lookup_fmap in Hs0.
    destruct (seats d !! k) as [s|] eqn:Hs; [|done]. cbn in Hs0. injection Hs0 as <-.
    destruct (clear_active_spec s) as (Hf0 & Hkeep & _).
    exists s. split; [done|]. split; [congruence|]. intros Hd.
    rewrite Hdel; [by apply Hkeep|]. destruct (frame_id _ _ Hf0) as [_ ->]. exact Hd.
  - by rewrite Hperm.
  - intros p. rewrite Hperm. apply Hin2.
  - by rewrite Hperm, length_fmap.
Qed.

(** Three students on six seats. *)
Lemma randomSeatArrangement_seats_distinct_witness :
  let app' := randomSeatArrangement (λ k, 7 * k + 3)%nat 9 Scenario.seated in
  NoDup (students (data Scenario.seated)) ∧
  NoDup (active_occupants (seats (data app'))) ∧
  length (active_occupants (seats (data app'))) = 3%nat.
Proof.
  intros app'.
  assert (NoDup (students (data Scenario.seated))) as H1
    by (apply (bool_decide_unpack _); vm_compute; reflexivity).
  assert (students (data Scenario.seated) ≠ []) as H2 by (vm_compute; discriminate).
  destruct (randomSeatArrangement_seats_distinct (λ k, 7 * k + 3)%nat 9
              Scenario.seated H1 H2) as (_ & _ & Hnd & _ & Hlen).
  split; [exact H1|]. split; [exact Hnd|].
  subst app'. rewrite Hlen. vm_compute. reflexivity.
Defined.

Lemma zip_fst_take {A B} (l : list A) (k : list B) :
  (zip l k).*1 = take (length k) l.
Proof.
  revert k. induction l as [|x l IH]; intros [|y k]; cbn; [done..|].
  by rewrite IH.
Qed.

Lemma zip_snd_take {A B} (l : list A) (k : list B) :
  (zip l k).*2 = take (length l) k.
Proof.
  revert k. induction l as [|x l IH]; intros [|y k]; cbn; [done..|].
  by rewrite IH.
Qed.

(** The loop of [arrangeStudentsInOrder] writes the pairs of the seats in
    order and the students. *)
Lemma arrange_fold_zip (avail : list nat) (studs : list loc) : ∀ (n : nat) (ss : list Seat),
  foldl (λ ss ix, match avail !! ix.1 with
                  | Some seat => write_student seat (Some ix.2) ss
                  | None => ss
                  end) ss (imap (λ i, pair (n + i)%nat) studs)
  = foldl (λ ss a, write_student a.1 (Some a.2) ss) ss (zip (drop n avail) studs).
Proof.
  induction studs as [|p studs IH]; intros n ss.
  - by destruct (drop n avail).
  - cbn [imap foldl fst snd]. rewrite Nat.add_0_r.
    rewrite (imap_ext _ (λ i, pair (S n + i)%nat)) by (intros; unfold compose; f_equal; lia).
    rewrite IH. destruct (avail !! n) as [seat|] eqn:Hn.
    + rewrite (drop_S avail seat n Hn). done.
    + apply lookup_ge_None in Hn.
      rewrite !drop_ge by lia. done.
Qed.

Lemma seatComparator_total t a b :
  seatComparator t a b ≤ 0 ∨ seatComparator t b a ≤ 0.
Proof. unfold seatComparator, byColumn, byRow. repeat case_decide; lia. Qed.

Lemma seatComparator_trans t a b c :
  seatComparator t a b ≤ 0 → seatComparator t b c ≤ 0 → seatComparator t a c ≤ 0.
Proof. unfold seatComparator, byColumn, byRow. repeat case_decide; lia. Qed.

(** [arrangeStudentsInOrder] on a room whose seats that are not deleted are
    empty: the seats are ranked by the comparator of the arrangement type,
    the seat of rank [k] receives the [k]-th student, and stays empty when
    there is no such student; no student sits twice. *)
Theorem arrangeStudentsInOrder_fills_in_order (studs : list loc)
    (arrangementType : string) (ss : list Seat) :
  NoDup studs →
  (∀ s, s ∈ ss → isDeleted s = false → student s = None) →
  let order := availableSeatsInOrder arrangementType ss in
  let ss' := arrangeStudentsInOrder studs arrangementType ss in
  order ≡ₚ activeSeatRefs ss ∧
  StronglySorted
    (λ a b, seatComparator arrangementType (ss !!! a) (ss !!! b) ≤ 0) order ∧
  (∀ k seat, order !! k = Some seat → student <$> ss' !! seat = Some (studs !! k)) ∧
  (∀ k s', ss' !! k = Some s' →
     ∃ s, ss !! k = Some s ∧ frame s' = frame s ∧ (isDeleted s = true → s' = s)) ∧
  NoDup (active_occupants ss').
Proof.
  intros Hstuds Hempty order ss'.
  destruct (activeSeatRefs_spec ss) as [Hnd Hact].
  assert (order ≡ₚ activeSeatRefs ss) as Hperm by apply sort_Permutation.
  assert (NoDup order) as Hndo by (by rewrite Hperm).
  assert (ss' = foldl (λ ss a, write_student a.1 (Some a.2) ss) ss (zip order studs))
    as Hss'.
  { subst ss'. unfold arrangeStudentsInOrder. cbn zeta. fold order.
    pose proof (arrange_fold_zip order studs 0 ss) as Hfold.
    rewrite drop_0 in Hfold. rewrite <- Hfold. done. }
  assert (∀ seat p, (seat, p) ∈ zip order studs ↔
                    ∃ i, order !! i = Some seat ∧ studs !! i = Some p) as Hzip.
  { intros seat p. rewrite list_elem_of_lookup. split.
    - intros [i Hi]. exists i. apply lookup_zip_with_Some in Hi as (x & y & [= -> ->] & ? & ?).
      done.
    - intros (i & Ho & Hs). exists i. apply lookup_zip_with_Some. by exists seat, p. }
  destruct (arrangement_spec (zip order studs) ss) as (Hlen & Hfr & Hocc & Hp);
    [| | |done|].
  { rewrite zip_fst_take. apply (sublist_NoDup _ order); [done|apply sublist_take]. }
  { rewrite zip_snd_take. apply (sublist_NoDup _ studs); [done|apply sublist_take]. }
  { intros k Hk. apply Hact. rewrite <- Hperm. rewrite zip_fst_take in Hk.
    eapply elem_of_sublist; [done|apply sublist_take]. }
  cbn zeta in Hlen, Hfr, Hocc, Hp. rewrite <- Hss' in Hlen, Hfr, Hocc, Hp.
  split; [exact Hperm|]. split.
  { apply sort_StronglySorted;
      [intros; apply seatComparator_total|intros ???; apply seatComparator_trans]. }
  split; [|split; [exact Hfr|]].
  - intros k seat Hk.
    destruct (Hact seat) as (s & Hs & Hdel).
    { rewrite <- Hperm. by eapply list_elem_of_lookup_2. }
    destruct (lookup_lt_is_Some_2 ss' seat) as [s' Hs'].
    { rewrite Hlen. by eapply lookup_lt_Some. }
    destruct (Hfr seat s' Hs') as (s0 & Hs0 & Hf & _).
    assert (isDeleted s' = false) as Hdel'.
    { destruct (frame_id _ _ Hf) as [_ ->]. congruence. }
    rewrite Hs'. cbn. f_equal.
    destruct (student s') as [p|] eqn:Hp'.
    + apply (Hocc seat s' p Hs' Hdel'), Hzip in Hp' as (i & Hi & Hsi).
      by rewrite (NoDup_lookup order k i seat Hndo Hk Hi).
    + destruct (studs !! k) as [p|] eqn:Hsk; [|done].
      assert ((seat, p) ∈ zip order studs) as Hin by (apply Hzip; by exists k).
      apply (Hocc seat s' p Hs' Hdel') in Hin. congruence.
  - rewrite Hp, zip_snd_take. apply (sublist_NoDup _ studs); [done|apply sublist_take].
Qed.

(** Ann and Cid are put on the six empty seats of the classroom, row by
    row: the first rank is the seat [1-0]. *)
Lemma arrangeStudentsInOrder_fills_in_order_witness :
  let ss := seats (data Scenario.classroom) in
  NoDup [0%nat; 2%nat] ∧
  availableSeatsInOrder "row" ss !! 0%nat = Some 3%nat ∧
  student <$> arrangeStudentsInOrder [0%nat; 2%nat] "row" ss !! 3%nat
    = Some (Some 0%nat).
Proof.
  intros ss.
  assert (NoDup [0%nat; 2%nat]) as H1
    by (apply (bool_decide_unpack _); vm_compute; reflexivity).
  assert (∀ s, s ∈ ss → isDeleted s = false → student s = None) as H2.
  { apply (Forall_forall (λ s, isDeleted s = false → student s = None)).
    apply (bool_decide_unpack _). vm_compute. reflexivity. }
  assert (availableSeatsInOrder "row" ss !! 0%nat = Some 3%nat) as H3
    by (vm_compute; reflexivity).
  split; [exact H1|]. split; [exact H3|].
  destruct (arrangeStudentsInOrder_fills_in_order [0%nat; 2%nat] "row" ss H1 H2)
    as (_ & _ & Hrank & _).
  exact (Hrank 0%nat 3%nat H3).
Defined.

(** ** Storage *)

(** Saving and loading again: the arrangement comes back seat by seat with
    occupants of the same uuid, the roster holds copies of the same
    students in the same order, and a seat whose occupant is in the roster
    references the roster object itself.  A size of zero is replaced by the
    default. *)
Theorem storage_round_trip (d this : SeatingData) :
  (∀ p, p ∈ students d → is_Some (heap d !! p)) →
  seats d ≠ [] →
  let r := loadFromStorage (Some (saveToStorage d)) this in
  let d' := r.2.1 in
  r.1 = true ∧
  same_arrangement (heap d) (seats d) (heap d') (seats d') ∧
  Forall2 (λ p p', heap d' !! p' = heap d !! p) (students d) (students d') ∧
  rows d' = Js.num_or (rows d) 6 ∧ cols d' = Js.num_or (cols d) 8 ∧
  history d' = history d ∧ historyIndex d' = historyIndex d ∧
  (∀ i s' p st, seats d' !! i = Some s' → student s' = Some p →
                heap d' !! p = Some st → uuid st ≠ "" →
                is_Some (findStudentByUuid (uuid st) d') →
                findStudentByUuid (uuid st) d' = Some p).
Proof.
  intros Hwf Hne r d'. subst d' r. unfold loadFromStorage, saveToStorage.
  cbn [st_students st_seats st_rows st_cols st_history st_historyIndex].
  rewrite decide_True by (unfold deepClone_seats; by destruct (seats d)).
  rewrite relinkStudentReferences_unfold. cbn [fst snd].
  set (copies := omap (heap d !!.) (students d)).
  set (h1 := heap this ++ copies).
  set (d1 := mkSeatingData h1 _ _ _ _ _ _).
  destruct (revive_seats_spec (deepClone_seats (heap d) (seats d)) h1) as [Hpre Hall].
  set (rv := foldl revive_seat (h1, []) (deepClone_seats (heap d) (seats d))) in *.
  set (d2 := with_seats rv.2 (with_heap rv.1 d1)).
  cbn [heap seats students rows cols history historyIndex with_seats].
  change (heap d2) with rv.1. change (students d2) with (students d1).
  change (rows d2) with (Js.num_or (rows d) 6).
  change (cols d2) with (Js.num_or (cols d) 8).
  change (history d2) with (history d). change (historyIndex d2) with (historyIndex d).
  change (seats d2) with rv.2.
  split; [done|]. split; [|split; [|split; [done|split; [done|split; [done|split; [done|]]]]]].
  - unfold same_arrangement. unfold deepClone_seats in Hall.
    rewrite Forall2_fmap_l in Hall. apply Forall2_fmap_r.
    eapply Forall2_impl; [exact Hall|].
    intros s s1 (Hid & Hrow & Hcol & Hpos & Hdel & Hs). unfold compose in *.
    cbn [c_id c_row c_col c_position c_isDeleted c_student deepClone_seat] in *.
    destruct (relink_seat_spec d2 s1) as (Hid' & Hrow' & Hcol' & Hpos' & Hdel' & Hs').
    change (heap d2) with rv.1 in Hs'.
    rewrite Hid', Hrow', Hcol', Hpos', Hdel'. repeat (split; [done|]).
    unfold occupant_uuid.
    destruct (student s ≫= (heap d !!.)) as [st|].
    + destruct Hs as (p & Hp & Hlook). rewrite Hp in Hs'. cbn in Hs'.
      unfold loc in *. rewrite Hlook in Hs'.
      destruct Hs' as (q & st' & -> & Hq & Hu). cbn. unfold loc in *.
      rewrite Hq. cbn. by rewrite Hu.
    + rewrite Hs in Hs'. cbn in Hs'. by rewrite Hs'.
  - change (students d1) with (seq (length (heap this)) (length copies)).
    apply Forall2_same_length_lookup. split.
    + rewrite length_seq. unfold copies. clear -Hwf.
      induction (students d) as [|p l IH]; [done|]. cbn.
      destruct (Hwf p) as [st Hst]; [by left|]. rewrite Hst. cbn. f_equal.
      apply IH. intros q Hq. apply Hwf. by right.
    + intros i p p' Hp Hp'. apply lookup_seq in Hp' as [-> Hlt].
      assert (copies !! i = heap d !! p) as Hcopy.
      { unfold copies. clear -Hwf Hp. revert i Hp.
        induction (students d) as [|q l IH]; intros i Hp; [done|]. cbn.
        destruct (Hwf q) as [st Hst]; [by left|]. rewrite Hst.
        destruct i as [|i]; cbn in *; [by injection Hp as ->|].
        apply IH; [|done]. intros q' Hq'. apply Hwf. by right. }
      rewrite <- Hcopy.
      destruct (copies !! i) as [st|] eqn:Hi; [|by apply lookup_ge_None in Hi; lia].
      apply (prefix_lookup_Some h1); [|done].
      unfold h1. rewrite lookup_app_r by lia. by rewrite Nat.add_comm, Nat.add_sub.
  - intros i s' p st Hi Hp Hst Hu [q Hq].
    rewrite list_lookup_fmap in Hi.
    destruct (rv.2 !! i) as [s1|]; [|done]. cbn in Hi. injection Hi as <-.
    revert Hp Hst. unfold relink_seat. change (heap d2) with rv.1.
    destruct (student s1 ≫= (rv.1 !!.)) as [st1|] eqn:Hs1.
    + case_decide as Hempty.
      * cbn [fst]. intros Hp Hst. rewrite Hp in Hs1. cbn in Hs1.
        unfold loc in *. congruence.
      * destruct (findStudentByUuid (uuid st1) d2) as [q1|] eqn:Hq1; cbn [fst].
        -- intros Hp Hst. destruct s1; cbn in Hp. injection Hp as ->.
           pose proof Hq1 as Hq1'.
           unfold findStudentByUuid in Hq1.
           destruct (list_find _ _) as [[j x]|] eqn:Hfind; [|done].
           cbn in Hq1. injection Hq1 as ->.
           apply list_find_Some in Hfind as (_ & Hux & _).
           change (heap d2) with rv.1 in Hux. unfold loc in *.
           rewrite Hst in Hux. cbn in Hux. injection Hux as Hux.
           rewrite Hux. exact Hq1'.
        -- intros Hp Hst. rewrite Hp in Hs1. cbn in Hs1. unfold loc in *.
           rewrite Hst in Hs1. injection Hs1 as <-.
           change (findStudentByUuid (uuid st) d2 = Some q) in Hq. congruence.
    + cbn [fst]. intros Hp Hst. rewrite Hp in Hs1. cbn in Hs1. unfold loc in *.
      congruence.
Qed.

(** The seated class is saved and loaded into a new store. *)
Lemma storage_round_trip_witness :
  let d := data Scenario.seated in
  let d' := (loadFromStorage (Some (saveToStorage d)) new_SeatingData).2.1 in
  seats d ≠ [] ∧
  same_arrangement (heap d) (seats d) (heap d') (seats d') ∧
  student <$> seats d' !! 1%nat = Some (Some 1%nat).
Proof.
  intros d d'.
  assert (∀ p, p ∈ students d → is_Some (heap d !! p)) as Hwf.
  { apply Forall_forall. apply (bool_decide_unpack _). vm_compute. reflexivity. }
  assert (seats d ≠ []) as Hne by (vm_compute; discriminate).
  split; [exact Hne|]. split; [|vm_compute; reflexivity].
  exact (proj1 (proj2 (storage_round_trip d new_SeatingData Hwf Hne))).
Defined.

(** ** Seat status *)

(** [isEmpty] and [isAvailable] are the same test; a seat is deleted,
    available or occupied, and only one of the three; the seats that are
    not deleted are the available ones and the occupied ones. *)
Theorem seat_status_partition (d : SeatingData) :
  (∀ s, isEmpty s = isAvailable s ∧
        (isDeleted s = true ∧ isAvailable s = false ∧ isOccupied s = false ∨
         isDeleted s = false ∧ isAvailable s = true ∧ isOccupied s = false ∧
           student s = None ∨
         isDeleted s = false ∧ isAvailable s = false ∧ isOccupied s = true ∧
           is_Some (student s))) ∧
  (∀ s, s ∈ getAvailableSeats d ↔ s ∈ seats d ∧ isAvailable s = true) ∧
  length (getActiveSeats d)
    = (length (getAvailableSeats d)
       + length (filter (λ s, isOccupied s = true) (seats d)))%nat.
Proof.
  split; [|split].
  - intros [i r c [p|] pos []]; unfold isEmpty, isAvailable, isOccupied; cbn;
      (split; [done|]);
      first [by left | by right; left
            | right; right; repeat split; try done; by eexists].
  - intros s. unfold getAvailableSeats. rewrite list_elem_of_filter.
    destruct s as [i r c [p|] pos []]; unfold isAvailable; cbn; intuition congruence.
  - unfold getActiveSeats, getAvailableSeats.
    induction (seats d) as [|s ss IH]; [done|].
    destruct s as [i r c [p|] pos []].
    + rewrite !filter_cons_False; [done|by cbn|by intros [? ?]|by cbn].
    + rewrite (filter_cons_True (λ s, isDeleted s = false)) by done.
      rewrite (filter_cons_False (λ s, isDeleted s = false ∧ student s = None))
        by (by intros [? ?]).
      rewrite (filter_cons_True (λ s, isOccupied s = true)) by done.
      cbn [length]. rewrite IH. lia.
    + rewrite !filter_cons_False; [done|by cbn|by intros [? ?]|by cbn].
    + rewrite (filter_cons_True (λ s, isDeleted s = false)) by done.
      rewrite (filter_cons_True (λ s, isDeleted s = false ∧ student s = None)) by done.
      rewrite (filter_cons_False (λ s, isOccupied s = true)) by (by cbn).
      cbn [length]. rewrite IH. lia.
Qed.

(** ** Block move: the students arrive *)

Lemma write_student_ids i v (ss : list Seat) : id <$> write_student i v ss = id <$> ss.
Proof.
  unfold write_student. apply list_eq. intros k.
  rewrite !list_lookup_fmap, list_lookup_alter. case_decide; [subst|done].
  by destruct (ss !! k) as [[]|].
Qed.

(** Arrays with the same ids are searched alike. *)
Lemma find_by_id_same (ss0 ss : list Seat) (x : string) i src s :
  id <$> ss = id <$> ss0 →
  list_find (λ s, id s = x) ss0 = Some (i, src) → ss !! i = Some s →
  list_find (λ s, id s = x) ss = Some (i, s).
Proof.
  intros Hids (Hi & Hid & Hmin)%list_find_Some Hs.
  assert (∀ k y, ss !! k = Some y → ∃ y0, ss0 !! k = Some y0 ∧ id y0 = id y) as Hsame.
  { intros k y Hk. assert ((id <$> ss0) !! k = Some (id y)) as Hk0
      by (by rewrite <- Hids, list_lookup_fmap, Hk).
    rewrite list_lookup_fmap in Hk0. destruct (ss0 !! k) as [y0|]; [|done].
    cbn in Hk0. injection Hk0 as ?. by exists y0. }
  apply list_find_Some. split; [done|]. split.
  - destruct (Hsame i s Hs) as (y0 & Hy0 & <-). congruence.
  - intros j y Hj Hlt Hy. destruct (Hsame j y Hj) as (y0 & Hy0 & Hid0).
    apply (Hmin j y0 Hy0 Hlt). congruence.
Qed.

Lemma find_by_id_index (ss0 ss : list Seat) (x : string) i s :
  id <$> ss = id <$> ss0 →
  list_find (λ s, id s = x) ss = Some (i, s) →
  ∃ src, list_find (λ s, id s = x) ss0 = Some (i, src).
Proof.
  intros Hids Hfind.
  destruct (lookup_lt_is_Some_2 ss0 i) as [src Hsrc].
  { apply list_find_lt in Hfind.
    by rewrite <- (length_fmap id ss0), <- Hids, length_fmap. }
  exists src. by eapply (find_by_id_same ss ss0).
Qed.

(** Step 2 of the move lists the occupants of the source seats with the
    ids of their targets, when no source seat is named twice. *)
Lemma collect_toMove (seatIds : list string) (ss0 : list Seat) (P : list Position) :
  NoDup (originalSeatId <$> P) →
  (∀ p, p ∈ P → ∃ i src, list_find (λ s, id s = originalSeatId p) ss0 = Some (i, src) ∧
                         p_student p = student src) →
  ∀ ss tm dsp,
    id <$> ss = id <$> ss0 →
    (∀ p i src, p ∈ P → list_find (λ s, id s = originalSeatId p) ss0 = Some (i, src) →
                ss !! i = Some src) →
    let r := foldl (collect_step seatIds) (ss, tm, dsp) P in
    id <$> r.1.1 = id <$> ss0 ∧
    r.1.2 = tm ++ omap (λ p, (λ q, (q, targetSeatId p)) <$> p_student p) P.
Proof.
  induction P as [|p P IH]; intros Hnd Hsrc ss tm dsp Hids Hkeep; cbn zeta.
  - split; [done|]. by rewrite app_nil_r.
  - rewrite fmap_cons in Hnd. apply NoDup_cons in Hnd as [Hfresh Hnd].
    destruct (Hsrc p ltac:(by left)) as (i & src & Hfind0 & Hstud).
    pose proof (Hkeep p i src ltac:(by left) Hfind0) as Hi.
    pose proof (find_by_id_same ss0 ss _ i src src Hids Hfind0 Hi) as Hfind.
    cbn [foldl].
    set (ss1 := match student src with
                | Some _ => write_student i None ss | None => ss end).
    set (tm1 := match student src with
                | Some q => tm ++ [(q, targetSeatId p)] | None => tm end).
    assert (∃ dsp1, collect_step seatIds (ss, tm, dsp) p = (ss1, tm1, dsp1)) as [dsp1 ->].
    { unfold collect_step. rewrite Hfind. subst ss1 tm1.
      destruct (student src); by eexists. }
    destruct (IH Hnd) with (ss := ss1) (tm := tm1) (dsp := dsp1) as [Hids' Htm].
    + intros p' Hp'. apply Hsrc. by right.
    + subst ss1. destruct (student src); [by rewrite write_student_ids|done].
    + intros p' i' src' Hp' Hfind'.
      assert (ss !! i' = Some src') as Hi' by (apply (Hkeep p'); [by right|done]).
      subst ss1. destruct (student src); [|done].
      unfold write_student. rewrite list_lookup_alter_ne; [done|].
      intros <-. apply Hfresh. apply list_elem_of_fmap. exists p'. split; [|done].
      apply list_find_Some in Hfind0 as (Hs0 & Hid0 & _).
      apply list_find_Some in Hfind' as (Hs' & Hid' & _). congruence.
    + split; [exact Hids'|]. rewrite Htm. subst tm1. cbn [omap list_omap].
      rewrite Hstud. destruct (student src); cbn; [by rewrite <- app_assoc|done].
Qed.

(** Step 4 puts every listed student on the seat of the listed id, when no
    id is listed twice. *)
Lemma place_arrives (toMove : list (loc * string)) : ∀ ss : list Seat,
  NoDup (toMove.*2) →
  let ss4 := foldl place_step ss toMove in
  id <$> ss4 = id <$> ss ∧
  ∀ q tid ti t, (q, tid) ∈ toMove → list_find (λ s, id s = tid) ss = Some (ti, t) →
                student <$> ss4 !! ti = Some (Some q).
Proof.
  induction toMove as [|[q' tid'] toMove IH] using rev_ind; intros ss Hnd; cbn zeta.
  - split; [done|]. by intros q tid ti t ?%elem_of_nil.
  - rewrite fmap_app in Hnd. apply NoDup_app in Hnd as (Hnd & Hdisj & _).
    destruct (IH ss Hnd) as [Hids Harr]. rewrite foldl_app. cbn [foldl].
    set (ss3 := foldl place_step ss toMove) in *.
    unfold place_step at 1 2. cbn [fst snd].
    split.
    + destruct (list_find _ ss3) as [[ti' t']|]; [by rewrite write_student_ids|done].
    + intros q tid ti t [Hin|[= -> ->]%list_elem_of_singleton]%elem_of_app Hfind.
      * pose proof (Harr q tid ti t Hin Hfind) as Hq.
        destruct (list_find _ ss3) as [[ti' t']|] eqn:Hfind'; [|done].
        unfold write_student. rewrite list_lookup_alter_ne; [done|].
        intros <-. apply (Hdisj tid).
        -- apply list_elem_of_fmap. by exists (q, tid).
        -- cbn. apply list_elem_of_singleton.
           destruct (find_by_id_index ss ss3 tid' ti' t' Hids Hfind') as (src & Hsrc).
           apply list_find_Some in Hsrc as (Hs1 & Hid1 & _).
           apply list_find_Some in Hfind as (Hs2 & Hid2 & _). congruence.
      * destruct (lookup_lt_is_Some_2 ss3 ti) as [s3 Hs3].
        { apply list_find_lt in Hfind.
          by rewrite <- (length_fmap id ss3), Hids, length_fmap. }
        rewrite (find_by_id_same ss ss3 tid' ti t s3 Hids Hfind Hs3).
        unfold write_student. rewrite list_lookup_alter_eq, Hs3. cbn. by destruct s3.
Qed.

(** Step 5 writes only into the net-vacated seats. *)
Lemma backfill_elsewhere (V : list nat) (D : list Displaced) : ∀ (n : nat) ss h k,
  k ∉ V →
  (foldl (backfill_step V) (ss, h) (imap (λ i, pair (n + i)%nat) D)).1 !! k = ss !! k.
Proof.
  induction D as [|x D IH]; intros n ss h k Hk; [done|].
  cbn [imap foldl]. rewrite Nat.add_0_r.
  rewrite (imap_ext _ (λ i, pair (S n + i)%nat)) by (intros; unfold compose; f_equal; lia).
  unfold backfill_step at 2. cbn [fst snd].
  destruct (V !! n) as [seat|] eqn:Hn.
  - rewrite IH by done. unfold write_student. rewrite list_lookup_alter_ne; [done|].
    intros ->. apply Hk. by eapply list_elem_of_lookup_2.
  - by rewrite IH.
Qed.

Lemma toMove_targets_NoDup (P : list Position) :
  NoDup (targetSeatId <$> P) →
  NoDup ((omap (λ p, (λ q, (q, targetSeatId p)) <$> p_student p) P).*2).
Proof.
  induction P as [|p P IH]; intros Hnd; [constructor|].
  rewrite fmap_cons in Hnd. apply NoDup_cons in Hnd as [Hfresh Hnd].
  cbn [omap list_omap]. destruct (p_student p) as [q|]; cbn; [|by apply IH].
  apply NoDup_cons. split; [|by apply IH].
  intros ([q' tid] & Heq & (p' & Hp' & Hq')%list_elem_of_omap)%list_elem_of_fmap.
  cbn in Heq. subst tid. destruct (p_student p') as [q''|]; [|done].
  cbn in Hq'. injection Hq' as -> Htid. apply Hfresh. rewrite <- Htid.
  apply list_elem_of_fmap. by exists p'.
Qed.

(** What an accepted plan says of its positions, on a grid whose seats have
    distinct ids and distinct coordinates. *)
Lemma plan_positions (d : SeatingData) (targetId : string) (seatIds : list string)
    (res : DropResult) :
  NoDup (id <$> seats d) →
  NoDup ((λ s, (row s, col s)) <$> seats d) →
  NoDup seatIds →
  checkMultiDropTarget targetId seatIds d = Some res →
  NoDup (originalSeatId <$> positions res) ∧
  NoDup (targetSeatId <$> positions res) ∧
  (∀ p, p ∈ positions res → originalSeatId p ∈ seatIds) ∧
  ∀ p, p ∈ positions res →
    ∃ i src ti t,
      findSeatById (originalSeatId p) d = Some (i, src) ∧ p_student p = student src ∧
      findSeatById (targetSeatId p) d = Some (ti, t).
Proof.
  intros Hids Hcoords Hnd Hcheck.
  assert (∀ i j si sj, seats d !! i = Some si → seats d !! j = Some sj →
                       row si = row sj → col si = col sj → i = j) as Hcoord.
  { intros i j si sj Hi Hj Hr Hc.
    eapply (NoDup_lookup ((λ s, (row s, col s)) <$> seats d)); [done|..].
    - by rewrite list_lookup_fmap, Hi.
    - rewrite list_lookup_fmap, Hj. cbn. by rewrite Hr, Hc. }
  assert (∃ ro co, Forall (translated_by d ro co) (positions res) ∧
                   originalSeatId <$> positions res
                     = filter (λ sid, is_Some (findSeatById sid d)) seatIds)
    as (ro & co & Hall & Horig).
  { unfold checkMultiDropTarget in Hcheck.
    destruct (findSeatById targetId d) as [[j t]|]; [|done].
    destruct (isDeleted t); [done|].
    destruct (head seatIds) as [fid|]; [|done]. cbn [mbind option_bind] in Hcheck.
    destruct (findSeatById fid d) as [[i f]|]; [|done].
    apply checkLoop_translates in Hcheck as (new & Hpos & Hall & Hnew).
    exists (row t - row f), (col t - col f). rewrite Hpos. by split. }
  rewrite Forall_forall in Hall.
  assert (∀ k y x, seats d !! k = Some y →
            list_find (λ s, id s = x) (seats d) = Some (k, y) ∨ id y ≠ x) as Hbyid.
  { intros k y x Hk. destruct (decide (id y = x)) as [Hx|Hx]; [left|by right].
    apply list_find_unique; [done..|].
    intros k' y' Hk' Hy'. eapply (NoDup_lookup (id <$> seats d)); [done|..].
    - by rewrite list_lookup_fmap, Hk'; cbn; rewrite Hy'.
    - by rewrite list_lookup_fmap, Hk; cbn; rewrite Hx. }
  assert (∀ p, p ∈ positions res →
            ∃ i src ti t,
              findSeatById (originalSeatId p) d = Some (i, src) ∧
              p_student p = student src ∧
              findSeatById (targetSeatId p) d = Some (ti, t) ∧
              row t = row src + ro ∧ col t = col src + co) as Hpos.
  { intros p Hp. destruct (Hall p Hp) as (i & src & t & Hsrc & Ht & _ & _ & _ & Htid & Hst).
    unfold seat_at in Ht.
    destruct (list_find _ (seats d)) as [[ti t']|] eqn:Hfind; [|done].
    cbn in Ht. injection Ht as ->.
    apply list_find_Some in Hfind as (Hti & [Hr Hc] & _).
    exists i, src, ti, t. split; [done|]. split; [done|]. split; [|done].
    unfold findSeatById. destruct (Hbyid ti t (targetSeatId p) Hti) as [?|Hne]; [done|].
    by destruct Hne. }
  split; [rewrite Horig; by apply NoDup_filter|]. split; [|split].
  - apply NoDup_fmap_2_strong.
    + intros p p' Hp Hp' Heq.
      destruct (Hpos p Hp) as (i & src & ti & t & Hsrc & Hst & Ht & Hr & Hc).
      destruct (Hpos p' Hp') as (i' & src' & ti' & t' & Hsrc' & Hst' & Ht' & Hr' & Hc').
      rewrite Heq, Ht' in Ht. injection Ht as -> ->.
      apply findSeatById_Some in Hsrc as [Hi Hid].
      apply findSeatById_Some in Hsrc' as [Hi' Hid'].
      assert (i = i') as -> by (apply (Hcoord i i' src src'); [done..|lia|lia]).
      rewrite Hi' in Hi. injection Hi as ->.
      destruct p, p'. cbn in *. congruence.
    + eapply NoDup_fmap_1. rewrite Horig. by apply NoDup_filter.
  - intros p Hp.
    assert (originalSeatId p ∈ originalSeatId <$> positions res) as Hin
      by (apply list_elem_of_fmap; by exists p).
    rewrite Horig in Hin. by apply list_elem_of_filter in Hin as [_ ?].
  - intros p Hp. destruct (Hpos p Hp) as (i & src & ti & t & ? & ? & ? & _).
    by exists i, src, ti, t.
Qed.

(** On a grid whose seats have distinct ids and distinct coordinates, an
    accepted block move whose payload names each source seat once carries
    every occupant of a source seat to the target of that seat. *)
Theorem moved_students_arrive (app : SeatingApp) (targetId : string)
    (sourceSeats : list SourceSeat) (dragged : list (string * loc))
    (anchor : option string) (now : Z) (res : DropResult) :
  NoDup (id <$> seats (data app)) →
  NoDup ((λ s, (row s, col s)) <$> seats (data app)) →
  NoDup (ss_seatId <$> sourceSeats) →
  checkMultiDropTarget targetId (ss_seatId <$> sourceSeats) (data app) = Some res →
  let app' := executeMultiDropWithAllSeats targetId
                (MultipleSeats sourceSeats dragged anchor) now app in
  ∀ p q, p ∈ positions res → p_student p = Some q →
    ∃ i src ti t,
      findSeatById (originalSeatId p) (data app) = Some (i, src) ∧
      student src = Some q ∧
      findSeatById (targetSeatId p) (data app) = Some (ti, t) ∧
      student <$> seats (data app') !! ti = Some (Some q).
Proof.
  intros Hids Hcoord Hnd Hcheck app' p q Hp Hq.
  destruct (plan_positions _ _ _ _ Hids Hcoord Hnd Hcheck) as (Hno & Hnt & Hsel & Hpos).
  destruct (Hpos p Hp) as (i & src & ti & t & Hsrc & Hst & Ht).
  exists i, src, ti, t. split; [done|]. split; [congruence|]. split; [done|].
  subst app'. unfold executeMultiDropWithAllSeats. rewrite Hcheck.
  destruct (addToHistory_frame "seatArrangement" (seats (data app)) now (data app))
    as (Hheap & Hroster & Hseats & _).
  set (d1 := addToHistory "seatArrangement" (seats (data app)) now (data app)) in *.
  rewrite Hseats, (availableSourceSeats_ext _ _ d1 (data app) Hseats).
  set (seatIds := ss_seatId <$> sourceSeats) in *.
  destruct (collect_toMove seatIds (seats (data app)) (positions res) Hno)
    with (ss := seats (data app)) (tm := @nil (loc * string)) (dsp := @nil Displaced)
    as [Hids2 Htm]; [| done | |].
  { intros p' Hp'. destruct (Hpos p' Hp') as (i' & src' & _ & _ & Hs' & Hst' & _).
    by exists i', src'. }
  { intros p' i' src' _ Hfind. by apply list_find_Some in Hfind as (? & _). }
  destruct (foldl (collect_step seatIds) (seats (data app), [], []) (positions res))
    as [[ss2 toMove] displaced].
  cbn [fst snd] in Hids2, Htm. rewrite app_nil_l in Htm.
  destruct (place_arrives toMove ss2) as [Hids4 Harr].
  { rewrite Htm. by apply toMove_targets_NoDup. }
  set (ss4 := foldl place_step ss2 toMove) in *.
  set (V := availableSourceSeats sourceSeats (targetSeatId <$> positions res) (data app)).
  set (D := Js.sort _ displaced).
  pose proof (backfill_elsewhere V D 0 ss4 (heap d1) ti) as Hback.
  change (imap (λ i0, pair (0 + i0)%nat) D) with (imap pair D) in Hback.
  destruct (foldl (backfill_step V) (ss4, heap d1) (imap pair D)) as [ss5 h5].
  unfold clearSelection. cbn [data with_data with_selection seats with_seats fst] in *.
  change (seats (syncStudentSeatIds ?x)) with (seats x). cbn [seats with_seats].
  rewrite Hback.
  - destruct (lookup_lt_is_Some_2 ss2 ti) as [t2 Ht2].
    { apply list_find_lt in Ht.
      by rewrite <- (length_fmap id ss2), Hids2, length_fmap. }
    apply (Harr q (targetSeatId p) ti t2).
    + rewrite Htm. apply list_elem_of_omap. exists p. split; [done|]. by rewrite Hq.
    + by apply (find_by_id_same (seats (data app)) ss2 _ ti t t2).
  - unfold V, availableSourceSeats. rewrite sort_Permutation.
    intros ([k seat] & Hk & Hin)%list_elem_of_fmap. cbn in Hk. subst k.
    apply list_elem_of_filter in Hin as [_ Hin].
    apply list_elem_of_omap in Hin as (s & Hs & Hfind).
    apply list_elem_of_filter in Hs as [Hnot _].
    apply findSeatById_Some in Hfind as [Hseat Hid].
    apply findSeatById_Some in Ht as [Ht Hidt].
    apply Hnot. apply list_elem_of_fmap. exists p. split; [|done]. congruence.
Qed.

(** Ann and Bob, selected at [0-0] and [0-1], are dropped at [1-1]: Ann
    lands on [1-1], the seat of index 4. *)
Lemma moved_students_arrive_witness :
  let app := Scenario.two_selected in
  NoDup (id <$> seats (data app)) ∧
  NoDup ((λ s, (row s, col s)) <$> seats (data app)) ∧
  checkMultiDropTarget "1-1" ["0-0"; "0-1"] (data app)
    = Some (mkDropResult [mkPosition "0-0" "1-1" (Some 0%nat);
                          mkPosition "0-1" "1-2" (Some 1%nat)] []) ∧
  student <$> seats (data Scenario.dropped_at_1_1) !! 4%nat = Some (Some 0%nat).
Proof.
  intros app.
  assert (NoDup (id <$> seats (data app))) as H1
    by (apply (bool_decide_unpack _); vm_compute; reflexivity).
  assert (NoDup ((λ s, (row s, col s)) <$> seats (data app))) as H2
    by (apply (bool_decide_unpack _); vm_compute; reflexivity).
  assert (Scenario.grabbed_at_0_1
            = MultipleSeats [mkSourceSeat "0-0" 0 0 (Some 0%nat);
                             mkSourceSeat "0-1" 0 1 (Some 1%nat)]
                            [("0-0", 0%nat); ("0-1", 1%nat)] (Some "0-1")) as Hdrag
    by (vm_compute; reflexivity).
  set (sourceSeats := [mkSourceSeat "0-0" 0 0 (Some 0%nat);
                       mkSourceSeat "0-1" 0 1 (Some 1%nat)]) in *.
  assert (NoDup (ss_seatId <$> sourceSeats)) as H3
    by (apply (bool_decide_unpack _); vm_compute; reflexivity).
  set (res := mkDropResult [mkPosition "0-0" "1-1" (Some 0%nat);
                            mkPosition "0-1" "1-2" (Some 1%nat)] []).
  assert (checkMultiDropTarget "1-1" (ss_seatId <$> sourceSeats) (data app) = Some res)
    as H4 by (vm_compute; reflexivity).
  split; [exact H1|]. split; [exact H2|]. split; [exact H4|].
  unfold Scenario.dropped_at_1_1. rewrite Hdrag. fold app.
  destruct (moved_students_arrive app "1-1" sourceSeats [("0-0", 0%nat); ("0-1", 1%nat)]
              (Some "0-1") 9 res H1 H2 H3 H4
              (mkPosition "0-0" "1-1" (Some 0%nat)) 0%nat)
    as (i & src & ti & t & _ & _ & Ht & Hq).
  { apply list_elem_of_here. }
  { reflexivity. }
  assert (findSeatById "1-1" (data app)
            = Some (4%nat, mkSeat "1-1" 1 1 None 5 false)) as Hfind
    by (vm_compute; reflexivity).
  cbn [targetSeatId] in Ht. rewrite Hfind in Ht. injection Ht as <- <-.
  exact Hq.
Defined.

(** ** Block move: when every selected seat is occupied *)

(** Step 2 of the move, seat by seat: the source seats are emptied, the
    other seats are left alone, and the displaced students are the
    occupants of the targets that are not source seats. *)
Lemma collect_spec (seatIds : list string) (ss0 : list Seat) (P : list Position) :
  NoDup (originalSeatId <$> P) →
  (∀ p, p ∈ P → originalSeatId p ∈ seatIds ∧
                ∃ i src, list_find (λ s, id s = originalSeatId p) ss0 = Some (i, src)) →
  ∀ ss tm dsp,
    id <$> ss = id <$> ss0 →
    (∀ p i src, p ∈ P → list_find (λ s, id s = originalSeatId p) ss0 = Some (i, src) →
                ss !! i = Some src) →
    (∀ k s0, ss0 !! k = Some s0 → id s0 ∉ seatIds → ss !! k = Some s0) →
    let r := foldl (collect_step seatIds) (ss, tm, dsp) P in
    (∀ k, r.1.1 !! k
          = if decide (k ∈ omap (λ p, fst <$> list_find (λ s, id s = originalSeatId p) ss0) P)
            then set_student None <$> ss !! k else ss !! k) ∧
    r.2 = dsp ++ omap (λ p, '(ti, t) ← list_find (λ s, id s = targetSeatId p) ss0;
                            q ← student t;
                            if bool_decide (targetSeatId p ∈ seatIds) then None
                            else Some (mkDisplaced q ti)) P.
Proof.
  induction P as [|p P IH]; intros Hnd Hsrc ss tm dsp Hids Hkeep Hother; cbn zeta.
  - split; [|by rewrite app_nil_r]. intros k. cbn [omap list_omap foldl fst].
    rewrite decide_False; [done|]. by intros ?%elem_of_nil.
  - rewrite fmap_cons in Hnd. apply NoDup_cons in Hnd as [Hfresh Hnd].
    destruct (Hsrc p ltac:(by left)) as (Hsel & i & src & Hfind0).
    pose proof (Hkeep p i src ltac:(by left) Hfind0) as Hi.
    pose proof (find_by_id_same ss0 ss _ i src src Hids Hfind0 Hi) as Hfind.
    cbn [foldl].
    set (ss1 := match student src with
                | Some _ => write_student i None ss | None => ss end).
    assert (∀ k, ss1 !! k = if decide (k = i) then set_student None <$> ss !! k
                            else ss !! k) as Hss1.
    { intros k. subst ss1. destruct (student src) eqn:Hst.
      - unfold write_student. case_decide as Hk; [subst k|].
        + by rewrite list_lookup_alter_eq.
        + by rewrite list_lookup_alter_ne.
      - case_decide; [subst k|done]. rewrite Hi. cbn. f_equal.
        destruct src; cbn in *; by subst. }
    set (item := '(ti, t) ← list_find (λ s, id s = targetSeatId p) ss0;
                 q ← student t;
                 if bool_decide (targetSeatId p ∈ seatIds) then None
                 else Some (mkDisplaced q ti)).
    assert (∃ tm1, collect_step seatIds (ss, tm, dsp) p
                   = (ss1, tm1, dsp ++ from_option (λ x, [x]) [] item))
      as [tm1 ->].
    { unfold collect_step. rewrite Hfind.
      assert (match list_find (λ s, id s = targetSeatId p) ss with
                | Some (ti, _) =>
                    match student <$> ss1 !! ti with
                    | Some (Some p0) =>
                        if bool_decide (targetSeatId p ∈ seatIds) then dsp
                        else dsp ++ [mkDisplaced p0 ti]
                    | _ => dsp
                    end
                | None => dsp
                end = dsp ++ from_option (λ x, [x]) [] item) as Hdsp.
      { subst item.
        destruct (list_find (λ s, id s = targetSeatId p) ss) as [[ti t1]|] eqn:Ht1.
        - destruct (find_by_id_index ss0 ss _ ti t1 Hids Ht1) as (t & Ht).
          rewrite Ht. cbn [mbind option_bind].
          case_bool_decide as Hin.
          + destruct (student t); cbn; rewrite app_nil_r;
              by destruct (student <$> ss1 !! ti) as [[?|]|].
          + pose proof Ht as (Hti & Hidt & _)%list_find_Some.
            assert (ss !! ti = Some t) as Hsti
              by (apply Hother; [done|by rewrite Hidt]).
            assert (ti ≠ i) as Hne.
            { intros ->. rewrite Hi in Hsti. injection Hsti as ->.
              apply list_find_Some in Hfind0 as (_ & Hid0 & _). congruence. }
            rewrite Hss1, decide_False, Hsti by done. cbn.
            destruct (student t); cbn; [done|by rewrite app_nil_r].
        - destruct (list_find (λ s, id s = targetSeatId p) ss0) as [[ti t]|] eqn:Ht.
          + destruct (lookup_lt_is_Some_2 ss ti) as [t1 Ht1'].
            { apply list_find_lt in Ht.
              by rewrite <- (length_fmap id ss), Hids, length_fmap. }
            by rewrite (find_by_id_same ss0 ss _ ti t t1 Hids Ht Ht1') in Ht1.
          + cbn. by rewrite app_nil_r. }
      subst ss1. destruct (student src); cbn beta iota zeta; rewrite Hdsp;
        eexists; reflexivity. }
    destruct (IH Hnd) with (ss := ss1) (tm := tm1)
                           (dsp := dsp ++ from_option (λ x, [x]) [] item)
      as [Hlook Hdisp].
    + intros p' Hp'. apply Hsrc. by right.
    + subst ss1. destruct (student src); [by rewrite write_student_ids|done].
    + intros p' i' src' Hp' Hfind'.
      assert (ss !! i' = Some src') as Hi' by (apply (Hkeep p'); [by right|done]).
      rewrite Hss1, decide_False; [done|].
      intros ->. apply Hfresh. apply list_elem_of_fmap. exists p'. split; [|done].
      apply list_find_Some in Hfind0 as (Hs0 & Hid0 & _).
      apply list_find_Some in Hfind' as (Hs' & Hid' & _). congruence.
    + intros k s0 Hk Hnot. rewrite Hss1, decide_False; [by apply Hother|].
      intros ->. apply list_find_Some in Hfind0 as (Hs0 & Hid0 & _).
      rewrite Hk in Hs0. injection Hs0 as ->. congruence.
    + split.
      * intros k. rewrite Hlook. cbn [omap list_omap]. rewrite Hfind0. cbn [fmap option_fmap option_map fst].
        rewrite Hss1. destruct (decide (k = i)) as [->|Hne].
        -- rewrite (decide_True (P := i ∈ i :: _)) by (by left).
           case_decide; [|done]. destruct (ss !! i) as [[]|]; done.
        -- case_decide as Hin.
           ++ by rewrite decide_True by (by right).
           ++ rewrite decide_False; [done|]. by intros [?|?]%elem_of_cons.
      * rewrite Hdisp. cbn [omap list_omap]. fold item.
        destruct item; cbn; by rewrite <- app_assoc.
Qed.

Lemma place_elsewhere (toMove : list (loc * string)) (k : nat) : ∀ ss : list Seat,
  (∀ q tid t, (q, tid) ∈ toMove → list_find (λ s, id s = tid) ss ≠ Some (k, t)) →
  foldl place_step ss toMove !! k = ss !! k.
Proof.
  induction toMove as [|[q' tid'] toMove IH] using rev_ind; intros ss Hk; [done|].
  rewrite foldl_app. cbn [foldl].
  assert (id <$> foldl place_step ss toMove = id <$> ss) as Hids.
  { clear. revert ss. induction toMove as [|x l IH]; intros ss; [done|].
    cbn [foldl]. rewrite IH. unfold place_step.
    destruct (list_find _ ss) as [[ti t]|]; [by rewrite write_student_ids|done]. }
  rewrite <- (IH ss);
    [|intros q tid t Hin; apply (Hk q tid t); apply elem_of_app; by left].
  set (ss3 := foldl place_step ss toMove) in *.
  unfold place_step. cbn [fst snd].
  destruct (list_find (λ s, id s = tid') ss3) as [[ti t]|] eqn:Hfind; [|done].
  unfold write_student. rewrite list_lookup_alter_ne; [done|].
  intros ->. destruct (find_by_id_index ss ss3 tid' k t Hids Hfind) as (src & Hsrc).
  apply (Hk q' tid' src); [|done]. apply elem_of_app. right.
  by apply list_elem_of_singleton.
Qed.

Lemma backfill_unassigned (V : list nat) (D : list Displaced) : ∀ (n : nat) ss h k,
  (∀ r, (r < length D)%nat → V !! (n + r)%nat ≠ Some k) →
  (foldl (backfill_step V) (ss, h) (imap (λ i, pair (n + i)%nat) D)).1 !! k = ss !! k.
Proof.
  induction D as [|x D IH]; intros n ss h k Hk; [done|].
  cbn [imap foldl]. rewrite Nat.add_0_r.
  rewrite (imap_ext _ (λ i, pair (S n + i)%nat)) by (intros; unfold compose; f_equal; lia).
  assert (∀ r, (r < length D)%nat → V !! (S n + r)%nat ≠ Some k) as Hk'.
  { intros r Hr. replace (S n + r)%nat with (n + S r)%nat by lia.
    apply Hk. cbn. lia. }
  unfold backfill_step at 2. cbn [fst snd].
  destruct (V !! n) as [seat|] eqn:Hn.
  - rewrite IH by done. unfold write_student. rewrite list_lookup_alter_ne; [done|].
    intros ->. apply (Hk 0%nat); [cbn; lia|]. by rewrite Nat.add_0_r.
  - by rewrite IH.
Qed.

Lemma backfill_uuid (V : list nat) (l : list (nat * Displaced)) : ∀ ss h p,
  uuid <$> (foldl (backfill_step V) (ss, h) l).2 !! p = uuid <$> h !! p.
Proof.
  induction l as [|x l IH]; intros ss h p; [done|].
  cbn [foldl]. unfold backfill_step at 2.
  destruct (V !! x.1) as [seat|]; rewrite IH; [done|]. cbn [snd].
  rewrite list_lookup_alter. case_decide as Hp; [|done].
  by rewrite uuid_set_seatId_fmap, Hp.
Qed.

Lemma displaced_seats_NoDup (seatIds : list string) (ss0 : list Seat) (P : list Position) :
  NoDup (targetSeatId <$> P) →
  NoDup (d_currentSeat <$>
         omap (λ p, '(ti, t) ← list_find (λ s, id s = targetSeatId p) ss0;
                    q ← student t;
                    if bool_decide (targetSeatId p ∈ seatIds) then None
                    else Some (mkDisplaced q ti)) P).
Proof.
  induction P as [|p P IH]; intros Hnd; [constructor|].
  rewrite fmap_cons in Hnd. apply NoDup_cons in Hnd as [Hfresh Hnd].
  cbn [omap list_omap].
  destruct (list_find (λ s, id s = targetSeatId p) ss0) as [[ti t]|] eqn:Ht;
    cbn [mbind option_bind]; [|by apply IH].
  destruct (student t) as [q|]; cbn [mbind option_bind]; [|by apply IH].
  case_bool_decide; [by apply IH|]. cbn. apply NoDup_cons. split; [|by apply IH].
  intros (item & Hcur & (p' & Hp' & Hitem)%list_elem_of_omap)%list_elem_of_fmap.
  destruct (list_find (λ s, id s = targetSeatId p') ss0) as [[ti' t']|] eqn:Ht';
    cbn [mbind option_bind] in Hitem; [|done].
  destruct (student t') as [q'|]; cbn [mbind option_bind] in Hitem; [|done].
  case_bool_decide; [done|]. injection Hitem as <-. cbn in Hcur. subst ti'.
  apply list_find_Some in Ht as (Hti & Hid & _).
  apply list_find_Some in Ht' as (Hti' & Hid' & _).
  apply Hfresh. apply list_elem_of_fmap. exists p'. split; [congruence|done].
Qed.

Lemma NoDup_fmap_elem {A B} (f : A → B) (l : list A) (x y : A) :
  NoDup (f <$> l) → x ∈ l → y ∈ l → f x = f y → x = y.
Proof.
  intros Hnd [a Ha]%list_elem_of_lookup_1 [b Hb]%list_elem_of_lookup_1 Heq.
  assert (a = b) as ->; [|congruence].
  eapply (NoDup_lookup (f <$> l)); [done|..].
  - by rewrite list_lookup_fmap, Ha.
  - rewrite list_lookup_fmap, Hb. cbn. by rewrite Heq.
Qed.

(** On a grid whose seats have distinct ids and distinct coordinates, an
    accepted block move whose payload names each source seat once, and
    whose source seats are all occupied, keeps the occupancy unique: the
    students of the block take the target seats, and the students they
    displace take net-vacated seats or lose their seat. *)
Theorem block_move_keeps_unique_occupancy (app : SeatingApp) (targetId : string)
    (sourceSeats : list SourceSeat) (dragged : list (string * loc))
    (anchor : option string) (now : Z) (res : DropResult) :
  unique_occupancy (data app) →
  NoDup (id <$> seats (data app)) →
  NoDup ((λ s, (row s, col s)) <$> seats (data app)) →
  NoDup (ss_seatId <$> sourceSeats) →
  checkMultiDropTarget targetId (ss_seatId <$> sourceSeats) (data app) = Some res →
  (∀ p, p ∈ positions res → is_Some (p_student p)) →
  unique_occupancy
    (data (executeMultiDropWithAllSeats targetId
             (MultipleSeats sourceSeats dragged anchor) now app)).
Proof.
  intros Hu Hids Hcoord Hnd Hcheck Hocc.
  destruct (plan_positions _ _ _ _ Hids Hcoord Hnd Hcheck) as (Hno & Hnt & Hsel & Hpos).
  unfold executeMultiDropWithAllSeats. rewrite Hcheck.
  destruct (addToHistory_frame "seatArrangement" (seats (data app)) now (data app))
    as (Hheap & Hroster & Hseats & _).
  set (d1 := addToHistory "seatArrangement" (seats (data app)) now (data app)) in *.
  rewrite Hseats, (availableSourceSeats_ext _ _ d1 (data app) Hseats).
  set (seatIds := ss_seatId <$> sourceSeats) in *.
  set (ss0 := seats (data app)) in *.
  set (P := positions res) in *.
  unfold findSeatById in Hpos. fold ss0 in Hpos.
  set (Sl := omap (λ p, fst <$> list_find (λ s, id s = originalSeatId p) ss0) P).
  set (Tl := omap (λ p, fst <$> list_find (λ s, id s = targetSeatId p) ss0) P).
  assert (∀ p i src, p ∈ P → list_find (λ s, id s = originalSeatId p) ss0 = Some (i, src) →
                     i ∈ Sl) as HinS.
  { intros p i src Hp Hf. apply list_elem_of_omap. exists p. split; [done|]. by rewrite Hf. }
  assert (∀ p i t, p ∈ P → list_find (λ s, id s = targetSeatId p) ss0 = Some (i, t) →
                   i ∈ Tl) as HinT.
  { intros p i t Hp Hf. apply list_elem_of_omap. exists p. split; [done|]. by rewrite Hf. }
  assert (∀ k, k ∈ Tl → ∃ p t, p ∈ P ∧
                   list_find (λ s, id s = targetSeatId p) ss0 = Some (k, t)) as HTinv.
  { intros k (p & Hp & Hf)%list_elem_of_omap.
    destruct (list_find _ ss0) as [[k' t]|] eqn:Hfind; [|done].
    cbn in Hf. injection Hf as ->. by exists p, t. }
  destruct (collect_toMove seatIds ss0 P Hno)
    with (ss := ss0) (tm := @nil (loc * string)) (dsp := @nil Displaced)
    as [Hids2 Htm]; [| done | |].
  { intros p' Hp'. destruct (Hpos p' Hp') as (i' & src' & _ & _ & Hs' & Hst' & _).
    by exists i', src'. }
  { intros p' i' src' _ Hfind. by apply list_find_Some in Hfind as (? & _). }
  destruct (collect_spec seatIds ss0 P Hno)
    with (ss := ss0) (tm := @nil (loc * string)) (dsp := @nil Displaced)
    as [Hss2 Hdisp]; [| done | | done |].
  { intros p' Hp'. split; [by apply Hsel|].
    destruct (Hpos p' Hp') as (i' & src' & _ & _ & Hs' & _). by exists i', src'. }
  { intros p' i' src' _ Hfind. by apply list_find_Some in Hfind as (? & _). }
  destruct (foldl (collect_step seatIds) (ss0, [], []) P) as [[ss2 toMove] displaced].
  cbn [fst snd] in Hids2, Htm, Hss2, Hdisp. rewrite app_nil_l in Htm, Hdisp.
  destruct (place_arrives toMove ss2) as [Hids4 Harr].
  { rewrite Htm. by apply toMove_targets_NoDup. }
  pose proof (place_elsewhere toMove) as Hplace.
  set (ss4 := foldl place_step ss2 toMove) in *.
  set (V := availableSourceSeats sourceSeats (targetSeatId <$> P) (data app)).
  set (D := Js.sort _ displaced).
  assert (D ≡ₚ displaced) as HD by apply sort_Permutation.
  assert (length ss2 = length ss0) as Hlen2
    by (by rewrite <- (length_fmap id ss2), Hids2, length_fmap).
  destruct (backfill_paired V (availableSourceSeats_NoDup _ _ _ Hnd) D ss4 (heap d1))
    as [_ Hpaired].
  { intros seat Hin. unfold ss4. rewrite place_length, Hlen2.
    by eapply availableSourceSeats_lt. }
  pose proof (backfill_unassigned V D 0 ss4 (heap d1)) as Hun.
  pose proof (backfill_uuid V (imap pair D) ss4 (heap d1)) as Huuid.
  change (imap (λ i0, pair (0 + i0)%nat) D) with (imap pair D) in Hun.
  destruct (foldl (backfill_step V) (ss4, heap d1) (imap pair D)) as [ss5 h5].
  cbn [fst snd] in Hpaired, Hun, Huuid.
  unfold clearSelection. cbn [data with_data with_selection].
  apply unique_occupancy_sync. unfold unique_occupancy.
  cbn [seats heap with_seats with_heap].
  assert (∀ s, occupant_uuid h5 s = occupant_uuid (heap (data app)) s) as Hsameu.
  { intros s. unfold occupant_uuid. destruct (student s) as [q|]; [|done].
    cbn [mbind option_bind]. by rewrite Huuid, Hheap. }
  assert (∀ k s5 u, ss5 !! k = Some s5 → occupant_uuid (heap (data app)) s5 = Some u →
            ∃ o so, ss0 !! o = Some so ∧ student so = student s5 ∧
              ((∃ p t, p ∈ P ∧
                  list_find (λ s, id s = originalSeatId p) ss0 = Some (o, so) ∧
                  list_find (λ s, id s = targetSeatId p) ss0 = Some (k, t)) ∨
               ((∃ r item, D !! r = Some item ∧ V !! r = Some k ∧
                           d_currentSeat item = o) ∧
                (∃ p, p ∈ P ∧
                   list_find (λ s, id s = targetSeatId p) ss0 = Some (o, so) ∧
                   targetSeatId p ∉ seatIds)) ∨
               (o = k ∧ (k ∉ Sl) ∧ (k ∉ Tl)))) as Horigin.
  { intros k s5 u Hk Hku.
    destruct (decide (k ∈ take (length D) V)) as [Hkv|Hkv].
    - apply list_elem_of_lookup_1 in Hkv as [r Hr].
      apply lookup_take_Some in Hr as [Hr Hlt].
      destruct (lookup_lt_is_Some_2 D r Hlt) as [item Hitem].
      pose proof (Hpaired r item k Hitem Hr) as Hst. rewrite Hk in Hst.
      cbn in Hst. injection Hst as Hst.
      assert (item ∈ displaced) as Hin
        by (rewrite <- HD; by eapply list_elem_of_lookup_2).
      rewrite Hdisp in Hin. apply list_elem_of_omap in Hin as (p & Hp & Hf).
      destruct (list_find (λ s, id s = targetSeatId p) ss0) as [[ti t]|] eqn:Ht;
        cbn [mbind option_bind] in Hf; [|done].
      destruct (student t) as [q|] eqn:Hq; cbn [mbind option_bind] in Hf; [|done].
      case_bool_decide as Hnsel; [done|]. injection Hf as <-.
      exists ti, t. split; [by apply list_find_Some in Ht as (? & _)|].
      split; [by rewrite Hq, Hst|]. right; left. split.
      + by exists r, (mkDisplaced q ti).
      + by exists p.
    - assert (ss5 !! k = ss4 !! k) as H54.
      { apply Hun. intros r Hr Hv. apply Hkv.
        apply list_elem_of_lookup. exists r. by apply lookup_take_Some. }
      rewrite H54 in Hk.
      destruct (decide (k ∈ Tl)) as [HkT|HkT].
      + destruct (HTinv k HkT) as (p & t & Hp & Ht).
        destruct (Hocc p Hp) as [qm Hqm].
        destruct (Hpos p Hp) as (i & src & _ & _ & Hsrc & Hst & _).
        destruct (lookup_lt_is_Some_2 ss2 k) as [t2 Ht2].
        { rewrite Hlen2. by eapply list_find_lt. }
        assert (student <$> ss4 !! k = Some (Some qm)) as Hq.
        { apply (Harr qm (targetSeatId p) k t2).
          - rewrite Htm. apply list_elem_of_omap. exists p. split; [done|]. by rewrite Hqm.
          - by apply (find_by_id_same ss0 ss2 _ k t t2). }
        rewrite Hk in Hq. cbn in Hq. injection Hq as Hq.
        exists i, src. split; [by apply list_find_Some in Hsrc as (? & _)|].
        split; [congruence|]. left. by exists p, t.
      + assert (ss4 !! k = ss2 !! k) as H42.
        { apply Hplace. intros q tid t Hin Hfind.
          rewrite Htm in Hin. apply list_elem_of_omap in Hin as (p & Hp & Hf).
          destruct (p_student p); [|done]. cbn in Hf. injection Hf as _ <-.
          destruct (find_by_id_index ss0 ss2 _ k t Hids2 Hfind) as (src & Hsrc).
          apply HkT. by eapply HinT. }
        rewrite H42, Hss2 in Hk. fold Sl in Hk. case_decide as HkS.
        * destruct (ss0 !! k) as [s0|]; [|done]. cbn in Hk. injection Hk as <-.
          unfold occupant_uuid in Hku. by destruct s0.
        * exists k, s5. split; [done|]. split; [done|]. right; right. done. }
  intros i j si sj u Hi Hj Hui Huj. rewrite Hsameu in Hui, Huj.
  destruct (Horigin i si u Hi Hui) as (oi & soi & Hoi & Hsi & Hci).
  destruct (Horigin j sj u Hj Huj) as (oj & soj & Hoj & Hsj & Hcj).
  assert (oi = oj) as Heq.
  { apply (Hu oi oj soi soj u); [done|done|..]; unfold occupant_uuid in *.
    - by rewrite Hsi.
    - by rewrite Hsj. }
  subst oj. rewrite Hoi in Hoj. injection Hoj as <-.
  assert (NoDup (d_currentSeat <$> D)) as HndD.
  { rewrite HD, Hdisp. by apply displaced_seats_NoDup. }
  destruct Hci as [(p & t & Hp & Hsrc & Htgt)
                  |[((r & item & HDr & HVr & Hcur) & (pd & Hpd & Htd & Hnsel))
                   |(Hoik & HnS & HnT)]];
  destruct Hcj as [(p' & t' & Hp' & Hsrc' & Htgt')
                  |[((r' & item' & HDr' & HVr' & Hcur') & (pd' & Hpd' & Htd' & Hnsel'))
                   |(Hojk & HnS' & HnT')]].
  - assert (p = p') as <-.
    { apply (NoDup_fmap_elem originalSeatId P); [done..|].
      apply list_find_Some in Hsrc as (_ & <- & _).
      by apply list_find_Some in Hsrc' as (_ & <- & _). }
    rewrite Htgt in Htgt'. by injection Htgt' as ->.
  - exfalso. apply Hnsel'.
    apply list_find_Some in Htd' as (_ & <- & _).
    apply list_find_Some in Hsrc as (_ & -> & _). by apply Hsel.
  - exfalso. apply HnS'. rewrite <- Hojk. by eapply HinS.
  - exfalso. apply Hnsel.
    apply list_find_Some in Htd as (_ & <- & _).
    apply list_find_Some in Hsrc' as (_ & -> & _). by apply Hsel.
  - assert (r = r') as <-.
    { eapply (NoDup_lookup (d_currentSeat <$> D)); [done|..].
      - by rewrite list_lookup_fmap, HDr.
      - rewrite list_lookup_fmap, HDr'. cbn. congruence. }
    congruence.
  - exfalso. apply HnT'. rewrite <- Hojk. by eapply HinT.
  - exfalso. apply HnS. rewrite <- Hoik. by eapply HinS.
  - exfalso. apply HnT. rewrite <- Hoik. by eapply HinT.
  - congruence.
Qed.

(** Ann and Bob, selected at [0-0] and [0-1], are dropped at [1-0], where
    Cid sits: Cid is displaced to the first vacated seat. *)
Lemma block_move_keeps_unique_occupancy_witness :
  let app := Scenario.two_selected in
  let app' := executeMultiDropWithAllSeats "1-0" Scenario.grabbed_at_0_1 9 app in
  unique_occupancy (data app) ∧
  unique_occupancy (data app') ∧
  student <$> seats (data app') !! 0%nat = Some (Some 2%nat).
Proof.
  intros app app'.
  assert (unique_occupancy (data app)) as H0.
  { apply unique_occupancy_NoDup. apply (bool_decide_unpack _). vm_compute. reflexivity. }
  assert (NoDup (id <$> seats (data app))) as H1
    by (apply (bool_decide_unpack _); vm_compute; reflexivity).
  assert (NoDup ((λ s, (row s, col s)) <$> seats (data app))) as H2
    by (apply (bool_decide_unpack _); vm_compute; reflexivity).
  assert (Scenario.grabbed_at_0_1
            = MultipleSeats [mkSourceSeat "0-0" 0 0 (Some 0%nat);
                             mkSourceSeat "0-1" 0 1 (Some 1%nat)]
                            [("0-0", 0%nat); ("0-1", 1%nat)] (Some "0-1")) as Hdrag
    by (vm_compute; reflexivity).
  set (sourceSeats := [mkSourceSeat "0-0" 0 0 (Some 0%nat);
                       mkSourceSeat "0-1" 0 1 (Some 1%nat)]) in *.
  assert (NoDup (ss_seatId <$> sourceSeats)) as H3
    by (apply (bool_decide_unpack _); vm_compute; reflexivity).
  set (res := mkDropResult [mkPosition "0-0" "1-0" (Some 0%nat);
                            mkPosition "0-1" "1-1" (Some 1%nat)] [2%nat]).
  assert (checkMultiDropTarget "1-0" (ss_seatId <$> sourceSeats) (data app) = Some res)
    as H4 by (vm_compute; reflexivity).
  assert (∀ p, p ∈ positions res → is_Some (p_student p)) as H5.
  { apply Forall_forall. apply (bool_decide_unpack _). vm_compute. reflexivity. }
  split; [exact H0|]. split; [|vm_compute; reflexivity].
  subst app'. rewrite Hdrag.
  exact (block_move_keeps_unique_occupancy app "1-0" sourceSeats
           [("0-0", 0%nat); ("0-1", 1%nat)] (Some "0-1") 9 res H0 H1 H2 H3 H4 H5).
Defined.

(** ** Export *)

(** The rows of the export: every row that is not a separator is the row of
    a seat of the grid that is not deleted, with the display coordinate of
    this seat and the fields of its occupant, and [parseDisplayCoordinate]
    reads the coordinate back to the coordinates of the seat; conversely
    every seat of the grid that is not deleted (the first with its
    coordinates) has its row. *)
Theorem export_rows_parse_back (d : SeatingData) :
  (∀ cells, cells ∈ drop 1 (exportToExcel d) → cells ≠ export_blank →
     ∃ i seat, seats d !! i = Some seat ∧ isDeleted seat = false ∧
       cells = export_cells (heap d) (getDisplayCoordString (rows d) seat) seat ∧
       parseDisplayCoordinate (getDisplayCoordString (rows d) seat) (rows d) (cols d)
         = Some (mkParsedCoord (row seat) (col seat) (rows d - row seat) (col seat + 1)
                   (seatIdOf (row seat) (col seat)))) ∧
  (∀ i seat, seats d !! i = Some seat → isDeleted seat = false →
     0 ≤ row seat < rows d → 0 ≤ col seat < cols d →
     (∀ j t, seats d !! j = Some t → (j < i)%nat →
             ¬ (row t = row seat ∧ col t = col seat)) →
     export_cells (heap d) (getDisplayCoordString (rows d) seat) seat ∈ exportToExcel d).
Proof.
  split.
  - intros cells Hin Hnb. unfold exportToExcel in Hin. cbn [drop] in Hin.
    apply list_elem_of_bind in Hin as (dc & Hin & Hdc).
    apply elem_of_seqZ in Hdc.
    apply elem_of_app in Hin as [Hin|Hin].
    + apply list_elem_of_bind in Hin as (dr & Hin & Hdr).
      apply elem_of_reverse, elem_of_seqZ in Hdr.
      unfold export_seat in Hin. cbn zeta in Hin.
      destruct (list_find _ (seats d)) as [[i seat]|] eqn:Hfind;
        [|by apply elem_of_nil in Hin].
      destruct (isDeleted seat) eqn:Hdel; [by apply elem_of_nil in Hin|].
      apply list_elem_of_singleton in Hin.
      apply list_find_Some in Hfind as (Hi & [Hr Hc] & _).
      assert (pretty dr +:+ "-" +:+ pretty dc = getDisplayCoordString (rows d) seat)
        as Hcoord.
      { unfold getDisplayCoordString, getDisplayCoord. cbn [fst snd].
        by replace (rows d - row seat) with dr by lia;
           replace (col seat + 1) with dc by lia. }
      rewrite Hcoord in Hin.
      exists i, seat. split; [done|]. split; [done|]. split; [done|].
      pose proof (parse_display_text (rows d) (cols d) (row seat) (col seat) "" ""
                    ltac:(lia) ltac:(lia) I I) as Hp.
      rewrite string_app_nil_l, string_app_nil_r in Hp. exact Hp.
    + case_decide; [|by apply elem_of_nil in Hin].
      apply list_elem_of_singleton in Hin. done.
  - intros i seat Hi Hdel Hr Hc Hfirst. unfold exportToExcel.
    apply elem_of_cons. right.
    apply list_elem_of_bind. exists (col seat + 1).
    split; [|apply elem_of_seqZ; lia].
    apply elem_of_app. left.
    apply list_elem_of_bind. exists (rows d - row seat).
    split; [|apply elem_of_reverse, elem_of_seqZ; lia].
    unfold export_seat. cbn zeta.
    assert (list_find (λ s, row s = rows d - (rows d - row seat) ∧
                            col s = col seat + 1 - 1) (seats d) = Some (i, seat))
      as ->.
    { apply list_find_Some. split; [done|]. split; [split; lia|].
      intros j t Hj Hlt [Hrt Hct]. apply (Hfirst j t Hj Hlt). split; lia. }
    rewrite Hdel. apply list_elem_of_singleton. done.
Qed.


(** ** Import *)

Lemma occupant_uuid_ext (h h' : list Student) (s : Seat) :
  (∀ k, uuid <$> h' !! k = uuid <$> h !! k) → occupant_uuid h' s = occupant_uuid h s.
Proof. unfold occupant_uuid. intros H. destruct (student s); cbn; [apply H|done]. Qed.

Lemma uuid_alter_seatId v (q : nat) (h : list Student) (k : nat) :
  uuid <$> alter (set_seatId v) q h !! k = uuid <$> h !! k.
Proof.
  destruct (decide (q = k)) as [->|Hne].
  - rewrite list_lookup_alter_eq. apply uuid_set_seatId_fmap.
  - by rewrite list_lookup_alter_ne.
Qed.

Lemma write_student_lookup_eq i v (ss : list Seat) :
  write_student i v ss !! i = set_student v <$> ss !! i.
Proof. apply list_lookup_alter_eq. Qed.

Lemma write_student_lookup_ne i j v (ss : list Seat) :
  i ≠ j → write_student i v ss !! j = ss !! j.
Proof. apply list_lookup_alter_ne. Qed.

(** One seating step of the import keeps the invariant. *)
Lemma import_seat_spec seatCoord (p : loc) d d' seated :
  import_invariant d → p ∈ students d →
  (∀ s, s ∈ seats d → student s ≠ Some p) →
  import_seat seatCoord p d = (d', seated) →
  import_invariant d' ∧ students d' = students d ∧
  (∀ k, uuid <$> heap d' !! k = uuid <$> heap d !! k) ∧
  length (heap d') = length (heap d).
Proof.
  intros Inv Hp Hfree Himp. unfold loc in *.
  assert (d' = d → import_invariant d' ∧ students d' = students d ∧
    (∀ k, uuid <$> heap d' !! k = uuid <$> heap d !! k) ∧
    length (heap d') = length (heap d)) as Hsame.
  { by intros ->. }
  unfold import_seat in Himp.
  case_decide; [apply Hsame; congruence|].
  destruct (parseDisplayCoordinate _ _ _) as [pc|]; [|apply Hsame; congruence].
  destruct (list_find _ _) as [[ti T]|] eqn:Hfind; [|apply Hsame; congruence].
  clear Hsame. apply list_find_Some in Hfind as (Hti & _ & _).
  cbv zeta in Himp. unfold loc in *.
  assert (T ∈ seats d) as HT by (by eapply list_elem_of_lookup_2).
  destruct (lookup_lt_is_Some_2 (heap d) p) as [P HP]; [by apply (inv_roster_refs d)|].
  match type of Himp with context [alter (set_seatId (Some (id T))) p ?h] =>
    set (h1 := h) in Himp end.
  assert (∀ k, uuid <$> h1 !! k = uuid <$> heap d !! k) as Hh1u.
  { intros k. subst h1. destruct (student T); [case_decide|]; try done.
    apply uuid_alter_seatId. }
  assert (∀ r : nat, h1 !! r = heap d !! r ∨
            (student T = Some r ∧ uuid <$> heap d !! r ≠ Some (uuid P))) as Hh1r.
  { intros r. subst h1. destruct (student T) as [q|]; [|by left].
    case_decide as Hq; [by left|]. destruct (decide (q = r)) as [->|Hne].
    - right. split; [done|]. by rewrite HP in Hq.
    - left. by apply list_lookup_alter_ne. }
  assert (length h1 = length (heap d)) as Hh1l.
  { subst h1. destruct (student T); [case_decide|]; try done. apply length_alter. }
  assert (h1 !! p = Some P) as Hh1p.
  { destruct (Hh1r p) as [->|[Hbad _]]; [done|]. by destruct (Hfree T HT). }
  rewrite Hh1p in Himp. cbn [mbind option_bind] in Himp.
  match type of Himp with context [write_student ti (Some p) ?s] =>
    set (ss1 := s) in Himp end.
  assert (id <$> ss1 = id <$> seats d) as Hss1a.
  { subst ss1. destruct (seatId P) as [old|]; [case_decide|]; try done.
    destruct (list_find _ _) as [[oi so]|]; [|done]. apply write_student_ids. }
  assert (∀ k s1, ss1 !! k = Some s1 →
            ∃ s, seats d !! k = Some s ∧ (s1 = s ∨ s1 = set_student None s)) as Hss1b.
  { intros k s1. subst ss1.
    assert (seats d !! k = Some s1 →
      ∃ s, seats d !! k = Some s ∧ (s1 = s ∨ s1 = set_student None s)) as Hid
      by (intros; exists s1; auto).
    destruct (seatId P) as [old|]; [case_decide|]; try done.
    destruct (list_find _ _) as [[oi so]|]; [|done].
    destruct (decide (oi = k)) as [->|Hne].
    - rewrite write_student_lookup_eq. destruct (seats d !! k) as [s|]; [|done].
      intros [= <-]. exists s. auto.
    - by rewrite write_student_lookup_ne. }
  assert (∀ k s, seats d !! k = Some s → occupant_uuid (heap d) s = Some (uuid P) →
            ss1 !! k = Some (set_student None s)) as Hss1c.
  { intros k s Hk Hu.
    assert (s ∈ seats d) as Hs by (by eapply list_elem_of_lookup_2).
    pose proof (inv_cached d Inv s (uuid P) p Hs Hu Hp) as Hc.
    unfold loc in Hc. rewrite HP in Hc. specialize (Hc eq_refl). cbn in Hc.
    subst ss1. rewrite Hc.
    assert (id s ≠ "") as Hne.
    { intros Heq. apply (inv_ids_ne d Inv). rewrite <- Heq.
      apply list_elem_of_fmap. by exists s. }
    rewrite decide_False by done.
    destruct (list_find _ _) as [[oi so]|] eqn:Hfind.
    - apply list_find_Some in Hfind as (Hoi & Hid & _).
      assert (oi = k) as ->.
      { eapply (NoDup_lookup (id <$> seats d)); [apply (inv_ids d Inv)|..].
        - by rewrite list_lookup_fmap, Hoi.
        - rewrite list_lookup_fmap, Hk. cbn. by rewrite Hid. }
      by rewrite write_student_lookup_eq, Hk.
    - apply list_find_None in Hfind. rewrite Forall_forall in Hfind.
      by destruct (Hfind s Hs). }
  clearbody ss1 h1. injection Himp as <- <-.
  cbn [heap students seats with_seats with_heap].
  set (h2 := alter (set_seatId (Some (id T))) p h1).
  set (ss2 := write_student ti (Some p) ss1).
  assert (∀ k, uuid <$> h2 !! k = uuid <$> heap d !! k) as Hh2u.
  { intros k. subst h2. rewrite uuid_alter_seatId. apply Hh1u. }
  assert (length h2 = length (heap d)) as Hlen.
  { subst h2. by rewrite length_alter. }
  assert (∀ s, occupant_uuid h2 s = occupant_uuid (heap d) s) as Hocc.
  { intros s. apply occupant_uuid_ext, Hh2u. }
  assert (occupant_uuid (heap d) (set_student (Some p) T) = Some (uuid P)) as HoccT.
  { unfold occupant_uuid. cbn. unfold loc. by rewrite HP. }
  assert (∀ k s', ss2 !! k = Some s' →
    (k = ti ∧ s' = set_student (Some p) T) ∨
    (k ≠ ti ∧ ∃ s, seats d !! k = Some s ∧
       (s' = set_student None s ∨
        (s' = s ∧ occupant_uuid (heap d) s ≠ Some (uuid P))))) as Hss2.
  { intros k s' Hk. subst ss2. destruct (decide (ti = k)) as [<-|Hne].
    - left. split; [done|]. rewrite write_student_lookup_eq in Hk.
      destruct (ss1 !! ti) as [s1|] eqn:Hs1; [|done]. injection Hk as <-.
      destruct (Hss1b _ _ Hs1) as (s & Hs & [->| ->]);
        rewrite Hti in Hs; by injection Hs as <-.
    - right. split; [done|]. rewrite write_student_lookup_ne in Hk by done.
      destruct (Hss1b _ _ Hk) as (s & Hs & [->| ->]); exists s; (split; [done|]);
        [|by left].
      right. split; [done|]. intros Hu. rewrite (Hss1c _ _ Hs Hu) in Hk.
      injection Hk as Heq. by rewrite <- Heq in Hu. }
  assert (id <$> ss2 = id <$> seats d) as Hss2a.
  { subst ss2. by rewrite write_student_ids. }
  clearbody ss2.
  split; [constructor|]; cbn [heap students seats with_seats with_heap].
  - intros i j si sj u Hi Hj Hui Huj.
    cbn [heap students seats with_seats with_heap] in *.
    rewrite Hocc in Hui, Huj.
    destruct (Hss2 _ _ Hi) as [[-> ->]|(Hni & s & Hs & [->|[-> Hnu]])],
      (Hss2 _ _ Hj) as [[-> ->]|(Hnj & t & Ht & [->|[-> Hnv]])];
      try done; try congruence.
    by eapply (inv_unique d Inv).
  - rewrite Hss2a. apply (inv_ids d Inv).
  - rewrite Hss2a. apply (inv_ids_ne d Inv).
  - rewrite Hlen. apply (inv_roster_refs d Inv).
  - intros s' q [k Hk]%list_elem_of_lookup_1 Hq. rewrite Hlen.
    destruct (Hss2 _ _ Hk) as [[-> ->]|(Hnk & s & Hs & [->|[-> Hnu]])].
    + injection Hq as <-. by apply (inv_roster_refs d Inv).
    + done.
    + apply (inv_seat_refs d Inv s); [by eapply list_elem_of_lookup_2|done].
  - rewrite (list_fmap_ext _ (λ p : nat, uuid <$> heap d !! p)); [apply (inv_roster d Inv)|].
    intros ? r _. apply Hh2u.
  - intros s' u r [k Hk]%list_elem_of_lookup_1 Hu Hr Hur.
    cbn [heap students seats with_seats with_heap] in *.
    rewrite Hocc in Hu. unfold loc in Hur. rewrite Hh2u in Hur.
    destruct (Hss2 _ _ Hk) as [[-> ->]|(Hnk & s & Hs & [->|[-> Hnu]])].
    + assert (r = p) as ->.
      { apply (NoDup_fmap_elem (λ p : nat, uuid <$> heap d !! p) (students d));
          [apply (inv_roster d Inv)|done..|].
        cbn beta. rewrite Hur, HP. cbn. congruence. }
      subst h2. unfold loc. rewrite list_lookup_alter_eq, Hh1p. done.
    + done.
    + assert (r ≠ p) as Hrp.
      { intros ->. rewrite HP in Hur. cbn in Hur. congruence. }
      subst h2. unfold loc. rewrite list_lookup_alter_ne by done.
      destruct (Hh1r r) as [->|[HTr Hne]].
      * apply (inv_cached d Inv s u r); [by eapply list_elem_of_lookup_2|done..].
      * destruct Hnk. apply (inv_unique d Inv k ti s T u); [done..|].
        unfold occupant_uuid. rewrite HTr. done.
  - done.
Qed.

(** Allocating a student object leaves the seats as they are. *)
Lemma occupant_uuid_alloc d obj s :
  import_invariant d → s ∈ seats d →
  occupant_uuid (heap d ++ [obj]) s = occupant_uuid (heap d) s.
Proof.
  intros Inv Hs. unfold occupant_uuid.
  destruct (student s) as [q|] eqn:Hq; [|done]. cbn.
  by rewrite lookup_app_l by (by apply (inv_seat_refs d Inv s)).
Qed.

Lemma import_alloc d obj (roster' : list loc) :
  import_invariant d →
  (∀ r, r ∈ roster' → (r < length (heap d ++ [obj]))%nat) →
  NoDup ((λ p : nat, uuid <$> (heap d ++ [obj]) !! p) <$> roster') →
  (∀ s u (r : nat), s ∈ seats d → occupant_uuid (heap d) s = Some u → r ∈ roster' →
     uuid <$> (heap d ++ [obj]) !! r = Some u →
     (heap d ++ [obj]) !! r ≫= seatId = Some (id s)) →
  import_invariant (with_students roster' (with_heap (heap d ++ [obj]) d)).
Proof.
  intros Inv Hrefs Hnd Hc.
  constructor; cbn [heap students seats with_students with_heap]; try done.
  - intros i j si sj u Hi Hj.
    cbn [heap students seats with_students with_heap] in *.
    rewrite (occupant_uuid_alloc d obj si Inv), (occupant_uuid_alloc d obj sj Inv)
      by (by eapply list_elem_of_lookup_2).
    by apply (inv_unique d Inv).
  - apply (inv_ids d Inv).
  - apply (inv_ids_ne d Inv).
  - intros s q Hs Hq. rewrite length_app. cbn.
    pose proof (inv_seat_refs d Inv s q Hs Hq). lia.
  - intros s u r Hs Hu Hr Hur.
    cbn [heap students seats with_students with_heap] in *.
    rewrite (occupant_uuid_alloc d obj s Inv) in Hu by done.
    by apply (Hc s u r).
Qed.

Lemma uuid_alloc_lookup (h : list Student) obj (k : nat) v :
  uuid <$> (h ++ [obj]) !! k = Some v → uuid <$> h !! k = Some v ∨ v = uuid obj.
Proof.
  destruct (decide (k < length h)%nat) as [Hlt|Hge].
  - rewrite lookup_app_l by done. auto.
  - rewrite lookup_app_r by lia. destruct (k - length h)%nat as [|n]; cbn; [|done].
    intros [= <-]. auto.
Qed.

Lemma import_finish fresh coord (p : loc) d1 g a b c :
  import_invariant d1 → p ∈ students d1 →
  (∀ s, s ∈ seats d1 → student s ≠ Some p) →
  (∀ n (k : nat), (g ≤ n)%nat → uuid <$> heap d1 !! k ≠ Some (fresh n)) →
  between_rows fresh
    (let '(d2, seated) := import_seat coord p d1 in
     mkImportState d2 g a b (if seated then c + 1 else c)).
Proof.
  intros Inv Hp Hfree Hfresh.
  destruct (import_seat coord p d1) as [d2 seated] eqn:Himp.
  destruct (import_seat_spec _ _ _ _ _ Inv Hp Hfree Himp) as (Inv2 & _ & Hu & _).
  split; cbn [i_data generated]; [done|].
  intros n k Hn. rewrite Hu. by apply Hfresh.
Qed.

Lemma import_row_between_rows overwriteExisting fresh st studentData :
  (∀ a b, fresh a = fresh b → a = b) →
  between_rows fresh st →
  between_rows fresh (import_row overwriteExisting fresh st studentData).
Proof.
  intros Hinj [Inv Hfresh]. unfold import_row. cbv zeta.
  set (d := i_data st) in *. set (p := length (heap d)).
  assert (∀ s, s ∈ seats d → student s ≠ Some p) as Hfree.
  { intros s Hs Hq. pose proof (inv_seat_refs d Inv s p Hs Hq). lia. }
  assert (∀ obj (r : nat), r ∈ students d →
            (heap d ++ [obj]) !! r = heap d !! r) as Hold.
  { intros obj r Hr. apply lookup_app_l. by apply (inv_roster_refs d Inv). }
  destruct (list_find _ _) as [[existingIndex q]|] eqn:Hfind.
  - destruct overwriteExisting; [|done].
    apply list_find_Some in Hfind as (Hq & Hname & _).
    unfold loc in *.
    destruct (heap d !! q) as [ex|] eqn:Hex; [|done].
    assert (q ∈ students d) as Hqin by (by eapply list_elem_of_lookup_2).
    assert (existingIndex < length (students d))%nat as Hlt by (by eapply lookup_lt_Some).
    match goal with |- context [heap d ++ [?o]] => set (obj := o) end.
    assert ((heap d ++ [obj]) !! p = Some obj) as Hp by apply list_lookup_middle, eq_refl.
    assert (∀ r : nat, r ∈ <[existingIndex:=p]> (students d) → r = p ∨ r ∈ students d) as Hins.
    { intros r [k Hk]%list_elem_of_lookup_1.
      apply list_lookup_insert_Some in Hk as [(_ & <- & _)|[_ Hk]]; [by left|].
      right. by eapply list_elem_of_lookup_2. }
    apply import_finish; cbn [heap students seats with_students with_heap].
    + apply import_alloc; [done|..].
      * intros r [->|Hr]%Hins; rewrite length_app; cbn; [lia|].
        pose proof (inv_roster_refs d Inv r Hr). lia.
      * replace ((λ p0 : nat, uuid <$> (heap d ++ [obj]) !! p0) <$>
                   <[existingIndex:=p]> (students d))
          with ((λ p0 : nat, uuid <$> heap d !! p0) <$> students d);
          [apply (inv_roster d Inv)|].
        apply list_eq. intros k. rewrite !list_lookup_fmap.
        destruct (decide (existingIndex = k)) as [<-|Hne].
        -- rewrite list_lookup_insert_eq by done. rewrite Hq. cbn.
           by rewrite Hp, Hex.
        -- rewrite list_lookup_insert_ne by done.
           match goal with |- context [(_ <$> ?o) = _] =>
             destruct o as [r|] eqn:Hr; [|done] end.
           cbn. rewrite Hold; [done|by eapply list_elem_of_lookup_2].
      * intros s u r Hs Hu [->|Hr]%Hins.
        -- rewrite Hp. cbn. intros [= <-].
           pose proof (inv_cached d Inv s (uuid ex) q Hs Hu Hqin) as Hc.
           unfold loc in Hc. rewrite Hex in Hc. by apply Hc.
        -- rewrite Hold by done. by apply (inv_cached d Inv).
    + apply list_elem_of_lookup. exists existingIndex. by apply list_lookup_insert_eq.
    + done.
    + intros n k Hn [Hk|Hk]%uuid_alloc_lookup; [by apply (Hfresh n k)|].
      apply (Hfresh n q Hn). rewrite Hex. cbn. by rewrite Hk.
  - match goal with |- context [heap d ++ [?o]] => set (obj := o) end.
    assert ((heap d ++ [obj]) !! p = Some obj) as Hp by apply list_lookup_middle, eq_refl.
    apply import_finish; cbn [heap students seats with_students with_heap].
    + apply import_alloc; [done|..].
      * intros r [Hr| ->%list_elem_of_singleton]%elem_of_app; rewrite length_app; cbn; [|lia].
        pose proof (inv_roster_refs d Inv r Hr). lia.
      * rewrite fmap_app. apply NoDup_app. split; [|split].
        -- rewrite (list_fmap_ext _ (λ p0 : nat, uuid <$> heap d !! p0));
             [apply (inv_roster d Inv)|].
           intros k r Hr. apply (f_equal (fmap uuid)), Hold.
           by eapply list_elem_of_lookup_2.
        -- intros x [r [-> Hr]]%list_elem_of_fmap Hx. cbn in Hx.
           apply list_elem_of_singleton in Hx. rewrite Hp, Hold in Hx by done.
           by apply (Hfresh (generated st) r).
        -- cbn. apply NoDup_singleton.
      * intros s u r Hs Hu [Hr| ->%list_elem_of_singleton]%elem_of_app.
        -- rewrite Hold by done. by apply (inv_cached d Inv).
        -- rewrite Hp. cbn. intros [= <-]. unfold occupant_uuid in Hu.
           destruct (student s) as [o|]; [|done]. cbn in Hu.
           by destruct (Hfresh (generated st) o).
    + apply elem_of_app. right. by apply list_elem_of_singleton.
    + done.
    + intros n k Hn [Hk|Hk]%uuid_alloc_lookup; [apply (Hfresh n k); [lia|done]|].
      cbn in Hk. apply Hinj in Hk. lia.
Qed.

Lemma import_rows_between_rows overwriteExisting fresh validData : ∀ st,
  (∀ a b, fresh a = fresh b → a = b) →
  between_rows fresh st →
  between_rows fresh (foldl (import_row overwriteExisting fresh) st validData).
Proof.
  induction validData as [|row validData IH]; intros st Hinj Hst; [done|].
  cbn [foldl]. apply IH; [done|]. by apply import_row_between_rows.
Qed.

(** The import keeps one seat per student.  Take a store where references
    point into the heap, seat ids are distinct and not empty, the roster
    holds each uuid once, no two seats hold students with the same uuid, and
    the roster object of every seated student caches the id of that seat;
    let the generated uuids be new and pairwise distinct.  Then
    [confirmExcelImport] leaves a store with the same properties, whatever
    the rows and the overwrite option: a student moved by a row leaves the
    old seat, and the student found on the target seat is unseated. *)
Theorem import_keeps_one_seat_per_student (validData : list StudentData)
    (overwriteExisting : bool) (fresh : nat → string) (d : SeatingData) :
  import_invariant d →
  (∀ a b, fresh a = fresh b → a = b) →
  (∀ n, fresh n ∉ uuid <$> heap d) →
  ∃ st, confirmExcelImport (Some validData) overwriteExisting fresh d = Some st ∧
        import_invariant (i_data st).
Proof.
  intros Inv Hinj Hfresh. eexists. split; [reflexivity|].
  apply import_rows_between_rows; [done|]. split; [done|].
  cbn [i_data generated]. intros n k _ Hk. apply (Hfresh n).
  destruct (heap d !! k) as [x|] eqn:Hx; [|done]. injection Hk as <-.
  apply list_elem_of_fmap. exists x. split; [done|by eapply list_elem_of_lookup_2].
Qed.

Lemma seats_cached_Forall (d : SeatingData) :
  Forall (λ s, Forall (λ p : nat,
            occupant_uuid (heap d) s = uuid <$> heap d !! p →
            is_Some (occupant_uuid (heap d) s) →
            heap d !! p ≫= seatId = Some (id s)) (students d)) (seats d) →
  seats_cached d.
Proof.
  intros Hall s u p Hs Hu Hp Hup. rewrite Forall_forall in Hall.
  specialize (Hall s Hs). rewrite Forall_forall in Hall.
  apply (Hall p Hp); [by etrans; [exact Hu|symmetry; exact Hup]|by rewrite Hu].
Qed.

Lemma import_invariant_Forall (d : SeatingData) :
  NoDup (omap (occupant_uuid (heap d)) (seats d)) →
  NoDup (id <$> seats d) → "" ∉ id <$> seats d →
  Forall (λ p, (p < length (heap d))%nat) (students d) →
  Forall (λ q, (q < length (heap d))%nat) (omap student (seats d)) →
  NoDup ((λ p : nat, uuid <$> heap d !! p) <$> students d) →
  Forall (λ s, Forall (λ p : nat,
            occupant_uuid (heap d) s = uuid <$> heap d !! p →
            is_Some (occupant_uuid (heap d) s) →
            heap d !! p ≫= seatId = Some (id s)) (students d)) (seats d) →
  import_invariant d.
Proof.
  intros H1 H2 H3 H4 H5 H6 H7. constructor; try done.
  - by apply unique_occupancy_NoDup.
  - by apply Forall_forall.
  - intros s q Hs Hq. rewrite Forall_forall in H5. apply H5.
    apply list_elem_of_omap. by exists s.
  - by apply seats_cached_Forall.
Qed.

(** Ann, Bob and Cid sit at [0-0], [0-1] and [1-0]; the sheet moves Bob to
    the display coordinate [2-1], the seat of Ann, and adds Dan at [1-2]:
    Bob sits at [0-0], the seat [0-1] is free, Dan sits at [1-1], and Ann
    has lost her seat. *)
Lemma import_keeps_one_seat_per_student_witness :
  let d := data Scenario.seated in
  let sheet := [mkStudentData "Bob" "" "" None "" "2-1";
                mkStudentData "Dan" "4" "male" (Some 160) "" "1-2"] in
  let fresh := λ k : nat, pretty (Z.of_nat k) in
  import_invariant d ∧
  ∃ st, confirmExcelImport (Some sheet) true fresh d = Some st ∧
        import_invariant (i_data st) ∧
        omap (occupant_uuid (heap (i_data st))) (seats (i_data st)) = ["ub"; "uc"; "0"].
Proof.
  intros d sheet fresh.
  assert (import_invariant d) as Inv.
  { apply import_invariant_Forall.
    - apply (bool_decide_unpack _). vm_compute. reflexivity.
    - apply (bool_decide_unpack _). vm_compute. reflexivity.
    - apply (bool_decide_unpack _). vm_compute. reflexivity.
    - apply (bool_decide_unpack _). vm_compute. reflexivity.
    - apply (bool_decide_unpack _). vm_compute. reflexivity.
    - apply (bool_decide_unpack _). vm_compute. reflexivity.
    - apply (bool_decide_unpack _). vm_compute. reflexivity. }
  assert (∀ a b, fresh a = fresh b → a = b) as Hinj.
  { intros a b Hab. apply (inj pretty) in Hab. lia. }
  assert (∀ n, fresh n ∉ uuid <$> heap d) as Hfresh.
  { intros n Hin.
    destruct (pretty_Z_digits (Z.of_nat n)) as [Hd _]; [lia|].
    assert (uuid <$> heap d = ["ua"; "ub"; "uc"]) as Hh by (vm_compute; reflexivity).
    rewrite Hh in Hin. unfold fresh in Hin. clear Hh Inv Hinj. clearbody d.
    repeat (apply elem_of_cons in Hin as [Heq|Hin];
            [rewrite Heq in Hd; cbn in Hd; destruct Hd as [Hd _]; discriminate Hd|]).
    exact (proj1 (elem_of_nil _) Hin). }
  split; [exact Inv|].
  destruct (import_keeps_one_seat_per_student sheet true fresh d Inv Hinj Hfresh)
    as (st & Hst & Inv').
  exists st. split; [exact Hst|]. split; [exact Inv'|].
  change (Some (foldl (import_row true fresh) (mkImportState d 0 0 0 0) sheet) = Some st)
    in Hst.
  apply (inj Some) in Hst. rewrite <- Hst. vm_compute. reflexivity.
Defined.

Lemma name_alter_seatId v (q : nat) (h : list Student) (k : nat) :
  name <$> alter (set_seatId v) q h !! k = name <$> h !! k.
Proof.
  destruct (decide (q = k)) as [->|Hne].
  - rewrite list_lookup_alter_eq. by destruct (h !! k) as [[]|].
  - by rewrite list_lookup_alter_ne.
Qed.

(** The seating step touches neither the roster nor a name. *)
Lemma import_seat_frame seatCoord (p : loc) d d' seated :
  import_seat seatCoord p d = (d', seated) →
  students d' = students d ∧ length (heap d') = length (heap d) ∧
  ∀ k : nat, name <$> heap d' !! k = name <$> heap d !! k.
Proof.
  unfold import_seat. intros Himp.
  case_decide; [by injection Himp as <- <-|].
  destruct (parseDisplayCoordinate _ _ _) as [pc|]; [|by injection Himp as <- <-].
  destruct (list_find _ _) as [[ti T]|]; [|by injection Himp as <- <-].
  cbv zeta in Himp. injection Himp as <- <-.
  cbn [heap students seats with_seats with_heap].
  split; [done|]. split.
  - rewrite length_alter. destruct (student T); [case_decide|]; try done.
    apply length_alter.
  - intros k. rewrite name_alter_seatId. destruct (student T); [case_decide|]; try done.
    apply name_alter_seatId.
Qed.

Lemma import_row_counts overwriteExisting fresh st row :
  (∀ p, p ∈ students (i_data st) → (p < length (heap (i_data st)))%nat) →
  let st' := import_row overwriteExisting fresh st row in
  (∀ p, p ∈ students (i_data st') → (p < length (heap (i_data st')))%nat) ∧
  (importedCount st' = importedCount st + 1 ∧ skippedCount st' = skippedCount st ∨
   importedCount st' = importedCount st ∧ skippedCount st' = skippedCount st + 1 ∧
   overwriteExisting = false) ∧
  seatedCount st ≤ seatedCount st' ≤ seatedCount st + (importedCount st' - importedCount st) ∧
  (∃ added, roster_names (i_data st') = roster_names (i_data st) ++ added ∧
            generated st' = (generated st + length added)%nat) ∧
  Some (sd_name row) ∈ roster_names (i_data st').
Proof.
  intros Hrefs. unfold import_row. cbv zeta.
  set (d := i_data st) in *. set (p := length (heap d)).
  assert (∀ obj (r : nat), r ∈ students d →
            (heap d ++ [obj]) !! r = heap d !! r) as Hold.
  { intros obj r Hr. apply lookup_app_l. by apply Hrefs. }
  assert (Some (sd_name row) ∈ roster_names d → ∃ added : list (option string),
            roster_names d = roster_names d ++ added ∧
            generated st = (generated st + length added)%nat) as Hnone.
  { exists []. by rewrite app_nil_r, Nat.add_0_r. }
  destruct (list_find _ _) as [[existingIndex q]|] eqn:Hfind.
  - apply list_find_Some in Hfind as (Hq & Hname & _).
    assert (Some (sd_name row) ∈ roster_names d) as Hin.
    { apply list_elem_of_fmap. exists q. split; [done|by eapply list_elem_of_lookup_2]. }
    destruct overwriteExisting.
    2:{ cbn. split; [done|]. split; [right; done|]. split; [lia|]. auto. }
    unfold loc in *.
    destruct (heap d !! q) as [ex|] eqn:Hex; [|done].
    match goal with |- context [heap d ++ [?o]] => set (obj := o) end.
    assert ((heap d ++ [obj]) !! p = Some obj) as Hp by apply list_lookup_middle, eq_refl.
    destruct (import_seat _ _ _) as [d2 seated] eqn:Himp.
    apply import_seat_frame in Himp as (Hst & Hlen & Hnm).
    cbn [heap students seats with_students with_heap] in *.
    cbn [i_data generated importedCount skippedCount seatedCount].
    assert (roster_names d2 = roster_names d) as Hnames.
    { unfold roster_names. rewrite Hst. apply list_eq. intros k.
      rewrite !list_lookup_fmap.
      destruct (decide (existingIndex = k)) as [<-|Hne].
      - rewrite list_lookup_insert_eq by (by eapply lookup_lt_Some).
        rewrite Hq. cbn. by rewrite Hnm, Hp, Hex.
      - rewrite list_lookup_insert_ne by done.
        match goal with |- context [(_ <$> ?o) = _] =>
          destruct o as [r|] eqn:Hr; [|done] end.
        cbn. rewrite Hnm, Hold; [done|by eapply list_elem_of_lookup_2]. }
    split; [|split; [by left|split; [destruct seated; lia|]]].
    + rewrite Hst, Hlen, length_app. cbn. intros r [k Hk]%list_elem_of_lookup_1.
      apply list_lookup_insert_Some in Hk as [(_ & <- & _)|[_ Hk]]; [lia|].
      apply list_elem_of_lookup_2 in Hk. apply Hrefs in Hk. lia.
    + rewrite Hnames. auto.
  - match goal with |- context [heap d ++ [?o]] => set (obj := o) end.
    assert ((heap d ++ [obj]) !! p = Some obj) as Hp by apply list_lookup_middle, eq_refl.
    destruct (import_seat _ _ _) as [d2 seated] eqn:Himp.
    apply import_seat_frame in Himp as (Hst & Hlen & Hnm).
    cbn [heap students seats with_students with_heap] in *.
    cbn [i_data generated importedCount skippedCount seatedCount].
    assert (roster_names d2 = roster_names d ++ [Some (sd_name row)]) as Hnames.
    { unfold roster_names. rewrite Hst, fmap_app. f_equal.
      - apply list_fmap_ext. intros k r Hr.
        rewrite Hnm, Hold; [done|by eapply list_elem_of_lookup_2].
      - cbn. by rewrite Hnm, Hp. }
    split; [|split; [by left|split; [destruct seated; lia|]]].
    + rewrite Hst, Hlen, length_app. cbn.
      intros r [Hr| ->%list_elem_of_singleton]%elem_of_app; [|lia].
      apply Hrefs in Hr. lia.
    + rewrite Hnames. split.
      * exists [Some (sd_name row)]. split; [done|]. cbn. lia.
      * apply elem_of_app. right. by apply list_elem_of_singleton.
Qed.

Lemma import_rows_counts overwriteExisting fresh validData : ∀ st,
  (∀ p, p ∈ students (i_data st) → (p < length (heap (i_data st)))%nat) →
  let st' := foldl (import_row overwriteExisting fresh) st validData in
  importedCount st' + skippedCount st'
    = importedCount st + skippedCount st + Z.of_nat (length validData) ∧
  (overwriteExisting = true → skippedCount st' = skippedCount st) ∧
  seatedCount st ≤ seatedCount st' ≤ seatedCount st + (importedCount st' - importedCount st) ∧
  (∃ added, roster_names (i_data st') = roster_names (i_data st) ++ added ∧
            generated st' = (generated st + length added)%nat) ∧
  ∀ row, row ∈ validData → Some (sd_name row) ∈ roster_names (i_data st').
Proof.
  induction validData as [|row validData IH]; intros st Hrefs.
  { cbn. split; [lia|]. split; [done|]. split; [lia|]. split.
    - exists []. by rewrite app_nil_r, Nat.add_0_r.
    - by intros row ?%elem_of_nil. }
  cbn [foldl]. cbv zeta.
  destruct (import_row_counts overwriteExisting fresh st row Hrefs)
    as (Hrefs1 & Hcount & Hseated & (added1 & Hnames1 & Hgen1) & Hin1).
  set (st1 := import_row overwriteExisting fresh st row) in *.
  destruct (IH st1 Hrefs1) as (Hsum & Hskip & Hseated' & (added & Hnames & Hgen) & Hin).
  set (st' := foldl (import_row overwriteExisting fresh) st1 validData) in *.
  split; [|split; [|split; [|split]]].
  - rewrite Hsum. cbn [length]. destruct Hcount as [[-> ->]|(-> & -> & _)]; lia.
  - intros Ho. rewrite (Hskip Ho). destruct Hcount as [[_ ->]|(_ & _ & Hf)]; congruence.
  - lia.
  - exists (added1 ++ added). rewrite Hnames, Hnames1, Hgen, Hgen1, length_app.
    split; [by rewrite app_assoc|lia].
  - intros r [->|Hr]%elem_of_cons; [|by apply Hin].
    rewrite Hnames. apply elem_of_app. by left.
Qed.

(** What the import reports and what it does to the roster, for a roster
    whose references point into the heap: every row is counted once, as
    imported or as skipped, and no row is skipped when existing students are
    overwritten; at most the imported rows are counted as seated; the names
    on the roster stay in place, one name is added at the end for every
    uuid generated, and afterwards every row finds its name on the
    roster. *)
Theorem import_counts_rows (validData : list StudentData)
    (overwriteExisting : bool) (fresh : nat → string) (d : SeatingData) :
  (∀ p, p ∈ students d → (p < length (heap d))%nat) →
  ∃ st added,
    confirmExcelImport (Some validData) overwriteExisting fresh d = Some st ∧
    importedCount st + skippedCount st = Z.of_nat (length validData) ∧
    (overwriteExisting = true → skippedCount st = 0) ∧
    0 ≤ seatedCount st ≤ importedCount st ∧
    roster_names (i_data st) = roster_names d ++ added ∧
    length added = generated st ∧
    ∀ row, row ∈ validData → Some (sd_name row) ∈ roster_names (i_data st).
Proof.
  intros Hrefs.
  destruct (import_rows_counts overwriteExisting fresh validData
              (mkImportState d 0 0 0 0) Hrefs)
    as (Hsum & Hskip & Hseated & (added & Hnames & Hgen) & Hin).
  eexists. exists added. split; [reflexivity|].
  cbn [i_data generated importedCount skippedCount seatedCount] in *.
  split; [lia|]. split; [done|]. split; [lia|]. split; [done|]. split; [lia|done].
Qed.

(** The sheet names Bob, who is on the roster, and Dan, who is not: without
    the overwrite option Bob is skipped and Dan is added and seated. *)
Lemma import_counts_rows_witness :
  let d := data Scenario.seated in
  let sheet := [mkStudentData "Bob" "" "" None "" "2-1";
                mkStudentData "Dan" "4" "male" (Some 160) "" "1-2"] in
  let fresh := λ k : nat, pretty (Z.of_nat k) in
  (∀ p, p ∈ students d → (p < length (heap d))%nat) ∧
  ∃ st added,
    confirmExcelImport (Some sheet) false fresh d = Some st ∧
    (importedCount st, skippedCount st, seatedCount st) = (1, 1, 1) ∧
    roster_names (i_data st) = roster_names d ++ added ∧
    added = [Some "Dan"].
Proof.
  intros d sheet fresh.
  assert (∀ p, p ∈ students d → (p < length (heap d))%nat) as Hrefs.
  { apply (Forall_forall (λ p, (p < length (heap d))%nat)).
    apply (bool_decide_unpack _). vm_compute. reflexivity. }
  split; [exact Hrefs|].
  destruct (import_counts_rows sheet false fresh d Hrefs)
    as (st & added & Hst & _ & _ & _ & Hnames & _ & _).
  exists st, added. split; [exact Hst|].
  change (Some (foldl (import_row false fresh) (mkImportState d 0 0 0 0) sheet) = Some st)
    in Hst.
  apply (inj Some) in Hst. rewrite <- Hst in Hnames |- *.
  split; [vm_compute; reflexivity|]. split; [exact Hnames|].
  apply (app_inv_head (roster_names d)). rewrite <- Hnames. vm_compute. reflexivity.
Defined.
